(** * Inkrypt deployment scripts: domain normalisation, name derivation and
    Cloudflare reconciliation

    A shallow embedding of [deploy/cf-api.mjs] and of the configuration
    resolver (the second script of the repository, module [ResolveConfig]
    below), followed by the properties of the specification that concern them.

    Conventions of the embedding.
    - A JavaScript string is a [string]; the built-ins [trim] and
      [toLowerCase] are modelled on ASCII (white space is TAB, LF, VT, FF, CR
      and SPACE; only [A-Z] has a lower-case form), other characters are
      carried unchanged.
    - A JavaScript value is a [jsval]; numbers are integers.
    - What the platform provides and the scripts only call ([fetch],
      [JSON.parse], [JSON.stringify], [new URL], [URL.prototype.toString],
      [fs.appendFileSync]) is a [Platform]: the theorems hold for every
      platform. A request records the text its URL is made from and the
      URL the platform makes of it; a write to the file of step outputs may
      throw.
    - A function that throws returns [Throw e]; [process.exit(n)] is [Exit n].
    - [normalizeDomain] calls itself on the host name of a URL; it takes a
      recursion budget, and two units are enough as soon as host names are
      not themselves URLs. *)

From Stdlib Require Import ZArith Ascii String List Bool Lia DecimalString.
From stdpp Require Import base option list gmap strings.

Local Open Scope Z_scope.
Local Open Scope list_scope.
Local Set Warnings "-register-all".

(** ** JavaScript strings *)

Module Js.

Definition isWhiteSpace (c : ascii) : bool :=
  match c with
  | "009" | "010" | "011" | "012" | "013" | " " => true
  | _ => false
  end%char.

Fixpoint trimStart (s : string) : string :=
  match s with
  | EmptyString => EmptyString
  | String c s' => if isWhiteSpace c then trimStart s' else s
  end.

Fixpoint trimEnd (s : string) : string :=
  match s with
  | EmptyString => EmptyString
  | String c s' =>
      match trimEnd s' with
      | EmptyString => if isWhiteSpace c then EmptyString else String c EmptyString
      | r => String c r
      end
  end.

(** [s.trim()] *)
Definition trim (s : string) : string := trimEnd (trimStart s).

Definition lowerChar (c : ascii) : ascii :=
  let n := N_of_ascii c in
  if ((65 <=? n) && (n <=? 90))%N then ascii_of_N (n + 32) else c.

(** [s.toLowerCase()] *)
Fixpoint toLowerCase (s : string) : string :=
  match s with
  | EmptyString => EmptyString
  | String c s' => String (lowerChar c) (toLowerCase s')
  end.

(** [s.startsWith(p)] *)
Definition startsWith (s p : string) : bool := String.prefix p s.

(** [s.includes(sub)] *)
Fixpoint includes (s sub : string) : bool :=
  String.prefix sub s ||
  match s with
  | EmptyString => false
  | String _ s' => includes s' sub
  end.

(** [s.endsWith(p)] *)
Fixpoint endsWith (s p : string) : bool :=
  String.eqb s p ||
  match s with
  | EmptyString => false
  | String _ s' => endsWith s' p
  end.

(** [s.replace(/c+$/, '')] for a character [c]: the trailing run of [c]
    is removed. *)
Fixpoint stripTrailing (c : ascii) (s : string) : string :=
  match s with
  | EmptyString => EmptyString
  | String a s' =>
      match stripTrailing c s' with
      | EmptyString => if Ascii.eqb a c then EmptyString else String a EmptyString
      | r => String a r
      end
  end.

(** [s.split(c)] for a one-character separator. *)
Fixpoint split (c : ascii) (s : string) : list string :=
  match s with
  | EmptyString => [EmptyString]
  | String a s' =>
      if Ascii.eqb a c then EmptyString :: split c s'
      else match split c s' with
           | h :: t => String a h :: t
           | [] => [String a EmptyString]
           end
  end.

(** [l.join(sep)] *)
Fixpoint join (sep : string) (l : list string) : string :=
  match l with
  | [] => EmptyString
  | [x] => x
  | x :: rest => x +:+ sep +:+ join sep rest
  end.

(** [s.slice(0, n)] for [n >= 0]. *)
Fixpoint take (n : nat) (s : string) : string :=
  match n, s with
  | S n', String c s' => String c (take n' s')
  | _, _ => EmptyString
  end.

(** [s.slice(n)] for [n >= 0]. *)
Fixpoint drop (n : nat) (s : string) : string :=
  match n, s with
  | S n', String _ s' => drop n' s'
  | _, _ => s
  end.

(** [s.replace(/--+/g, '-')]: every run of two or more dashes becomes one. *)
Fixpoint collapseDashes (s : string) : string :=
  match s with
  | EmptyString => EmptyString
  | String c s' =>
      if Ascii.eqb c "-" then
        match s' with
        | String c' _ => if Ascii.eqb c' "-" then collapseDashes s'
                         else String c (collapseDashes s')
        | EmptyString => String c EmptyString
        end
      else String c (collapseDashes s')
  end.

(** [c] occurs in [s]. *)
Fixpoint hasChar (c : ascii) (s : string) : bool :=
  match s with
  | EmptyString => false
  | String a s' => Ascii.eqb a c || hasChar c s'
  end.

(** The character classes of the regular expressions of the scripts. *)
Definition isLowerAlnum (c : ascii) : bool :=
  let n := N_of_ascii c in
  (((97 <=? n) && (n <=? 122)) || ((48 <=? n) && (n <=? 57)))%N.

(** [[a-z0-9.-]] *)
Definition isHostChar (c : ascii) : bool :=
  isLowerAlnum c || Ascii.eqb c "." || Ascii.eqb c "-".

(** [[a-z0-9-]] *)
Definition isLabelChar (c : ascii) : bool :=
  isLowerAlnum c || Ascii.eqb c "-".

Fixpoint allChars (p : ascii -> bool) (s : string) : bool :=
  match s with
  | EmptyString => true
  | String c s' => p c && allChars p s'
  end.

(** [/^[class]+$/.test(s)] *)
Definition matchesClassPlus (p : ascii -> bool) (s : string) : bool :=
  match s with
  | EmptyString => false
  | _ => allChars p s
  end.

(** [String(n)] for an integer [n]. *)
Definition ofZ (n : Z) : string := NilZero.string_of_int (Z.to_int n).

Definition ofNat (n : nat) : string := ofZ (Z.of_nat n).

End Js.

(** ** JavaScript values *)

Inductive jsval : Type :=
| JUndefined
| JNull
| JBool (b : bool)
| JNum (n : Z)
| JStr (s : string)
| JArr (elems : list jsval)
| JObj (props : list (string * jsval)).

Fixpoint assoc (k : string) (props : list (string * jsval)) : jsval :=
  match props with
  | [] => JUndefined
  | (k', v) :: rest => if String.eqb k k' then v else assoc k rest
  end.

(** [String(v)], also the conversion of a template literal. *)
Fixpoint toString (v : jsval) : string :=
  match v with
  | JUndefined => "undefined"
  | JNull => "null"
  | JBool true => "true"
  | JBool false => "false"
  | JNum n => Js.ofZ n
  | JStr s => s
  | JArr elems =>
      Js.join ","
        (List.map (fun e => match e with
                            | JUndefined | JNull => EmptyString
                            | _ => toString e
                            end) elems)
  | JObj _ => "[object Object]"
  end.

(** [Boolean(v)], the truthiness of [v]. *)
Definition toBoolean (v : jsval) : bool :=
  match v with
  | JUndefined | JNull => false
  | JBool b => b
  | JNum n => negb (n =? 0)
  | JStr s => negb (String.eqb s EmptyString)
  | JArr _ | JObj _ => true
  end.

(** [v?.k], for the property names the scripts read: none of them is a
    built-in property of a string, a number, a boolean or an array. *)
Definition getOpt (v : jsval) (k : string) : jsval :=
  match v with
  | JObj props => assoc k props
  | _ => JUndefined
  end.

(** [v?.[0]] *)
Definition index0 (v : jsval) : jsval :=
  match v with
  | JArr (x :: _) => x
  | JStr (String c _) => JStr (String c EmptyString)
  | JObj props => assoc "0" props
  | _ => JUndefined
  end.

(** [a ?? b] *)
Definition nullish (a b : jsval) : jsval :=
  match a with
  | JUndefined | JNull => b
  | _ => a
  end.

(** [v === s] for a string [s]. *)
Definition strictEqStr (v : jsval) (s : string) : bool :=
  match v with
  | JStr s' => String.eqb s' s
  | _ => false
  end.

(** [Array.isArray(v) ? v : []] *)
Definition arrayOrEmpty (v : jsval) : list jsval :=
  match v with
  | JArr l => l
  | _ => []
  end.

(** [l.find(p)] *)
Definition jsFind (p : jsval -> bool) (l : list jsval) : jsval :=
  match List.find p l with
  | Some x => x
  | None => JUndefined
  end.

(** ** Completions and exceptions *)

Inductive exn : Type :=
| Error (message : string)
| TypeError (message : string)
| CloudflareApiError (message : string) (status : Z) (url : string)
                     (errors : jsval) (bodyText : string).

(** How a call ends: normally, by a [throw], by [process.exit], or, for the
    one recursive function of the scripts, with its recursion budget spent. *)
Inductive completion (A : Type) : Type :=
| Normal (a : A)
| Throw (e : exn)
| Exit (code : Z)
| OutOfFuel.

Arguments Normal {A} a.
Arguments Throw {A} e.
Arguments Exit {A} code.
Arguments OutOfFuel {A}.

Definition bindC {A B : Type} (c : completion A) (k : A -> completion B) : completion B :=
  match c with
  | Normal a => k a
  | Throw e => Throw e
  | Exit n => Exit n
  | OutOfFuel => OutOfFuel
  end.

(** [v.k] where the script does not guard against [null]. *)
Definition getStrict (v : jsval) (k : string) : completion jsval :=
  match v with
  | JUndefined | JNull =>
      Throw (TypeError ("Cannot read properties of " +:+ toString v +:+ " (reading '" +:+ k +:+ "')"))
  | _ => Normal (getOpt v k)
  end.

(** ** The platform *)

(** The fields of a [URL] object that the scripts read. *)
Record URL : Type := mkURL {
  protocol : string;
  hostname : string;
  pathname : string;
  search : string;
  hash : string
}.

(** The call [fetch(url, {method, headers, body})]. The URL object is
    recorded by what the script makes it from, the text given to [new URL]
    ([req_url]) and the parameters set on its [searchParams] ([req_query]),
    and by what the platform makes of them, [url.toString()] ([req_href]):
    the constructor resolves dot segments and encodes characters, so the
    address fetched is [req_href], not the text [req_url]. *)
Record Request : Type := mkRequest {
  req_method : string;
  req_url : string;
  req_query : list (string * string);
  req_headers : list (string * string);
  req_body : option string;
  req_href : string
}.

(** What [cf] reads of a [Response]: [resp.status] and [await resp.text()]. *)
Record Response : Type := mkResponse {
  resp_status : Z;
  resp_text : string
}.

(** [resp.ok] *)
Definition resp_ok (r : Response) : bool :=
  (200 <=? resp_status r) && (resp_status r <=? 299).

Class Platform : Type := {
  (** the state of what is outside the process: the remote service and the
      file system *)
  World : Type;
  (** [fetch]: the answer of the service and its next state; [None] when the
      promise rejects (no HTTP response) *)
  fetch : World -> Request -> World * option Response;
  (** [JSON.parse]; [None] when it throws *)
  JSON_parse : string -> option jsval;
  JSON_stringify : jsval -> string;
  (** [new URL(s)]; [None] when it throws *)
  URL_parse : string -> option URL;
  (** [url.toString()] of the request URL built from the API base, a path
      and the query parameters set on it *)
  URL_href : string -> list (string * string) -> string;
  (** [fs.appendFileSync(file, text)] for the text that sets the step output
      [key] to [value] (its delimiter is drawn by the platform): the next
      state, and [Some message] when the call throws an [Error] (a missing
      directory, a file that may not be written, a full disk) *)
  appendFile : World -> string -> string -> string -> World * option string
}.

(** The state a run acts on: the remote service, the requests sent to it so
    far, the two output streams and the step outputs appended to the file
    named by [GITHUB_OUTPUT]. *)
Record Proc `{Platform} : Type := mkProc {
  world : World;
  requests : list Request;
  stdout : list string;
  stderr : list string;
  outputs : list (string * string)
}.

Definition M `{Platform} (A : Type) : Type := Proc -> Proc * completion A.

Definition ret `{Platform} {A : Type} (a : A) : M A := fun p => (p, Normal a).

Definition bind `{Platform} {A B : Type} (m : M A) (k : A -> M B) : M B :=
  fun p =>
    match m p with
    | (p', Normal a) => k a p'
    | (p', Throw e) => (p', Throw e)
    | (p', Exit n) => (p', Exit n)
    | (p', OutOfFuel) => (p', OutOfFuel)
    end.

Definition lift `{Platform} {A : Type} (c : completion A) : M A := fun p => (p, c).

Definition throw `{Platform} {A : Type} (e : exn) : M A := lift (Throw e).

Notation "'let*' x ':=' m 'in' k" := (bind m (fun x => k))
  (at level 10, x name, m at level 100, k at level 200).
Notation "'do*' m 'in' k" := (bind m (fun _ => k))
  (at level 10, m at level 100, k at level 200).

Definition nl : string := String "010"%char EmptyString.
Definition dquote : string := String (ascii_of_nat 34) EmptyString.

(** [process.stdout.write(s)] and [process.stderr.write(s)] *)
Definition writeOut `{Platform} (s : string) : M unit :=
  fun p => (mkProc _ (world p) (requests p) (stdout p ++ [s]) (stderr p) (outputs p), Normal tt).

Definition writeErr `{Platform} (s : string) : M unit :=
  fun p => (mkProc _ (world p) (requests p) (stdout p) (stderr p ++ [s]) (outputs p), Normal tt).

(** [process.exit(n)] *)
Definition exit `{Platform} {A : Type} (n : Z) : M A := lift (Exit n).

(** [process.env.NAME] *)
Definition envVar (env : gmap string string) (name : string) : jsval :=
  match env !! name with
  | Some s => JStr s
  | None => JUndefined
  end.

(** [args.key] for the object built by [parseArgs]. The keys the scripts read
    are never [__proto__] or a property of [Object.prototype]. *)
Definition arg (args : gmap string jsval) (key : string) : jsval :=
  match args !! key with
  | Some v => v
  | None => JUndefined
  end.

(** ** deploy/cf-api.mjs *)

Module CfApi.

(** [out._.push(arg)] *)
Definition pushPositional (out : gmap string jsval) (a : string) : completion (gmap string jsval) :=
  match out !! "_" with
  | Some (JArr l) => Normal (<["_" := JArr (l ++ [JStr a])]> out)
  | _ => Throw (TypeError "out._.push is not a function")
  end.

Fixpoint parseArgs_loop (argv : list string) (out : gmap string jsval)
  : completion (gmap string jsval) :=
  match argv with
  | [] => Normal out
  | a :: rest =>
      if negb (Js.startsWith a "--") then
        bindC (pushPositional out a) (parseArgs_loop rest)
      else
        let key := Js.drop 2 a in
        match rest with
        | next :: rest' =>
            if negb (Js.startsWith next "--")
            then parseArgs_loop rest' (<[key := JStr next]> out)
            else parseArgs_loop rest (<[key := JBool true]> out)
        | [] => parseArgs_loop rest (<[key := JBool true]> out)
        end
  end.

Definition parseArgs (argv : list string) : completion (gmap string jsval) :=
  parseArgs_loop argv {["_" := JArr []]}.

Section WithPlatform.
Context `{Platform}.

(** The file is written by the platform, which draws the delimiter; the
    pair written is recorded when the write succeeds, and the error of
    [fs.appendFileSync] is thrown when it does not. *)
Definition githubOutput (env : gmap string string) (key : string) (value : jsval) : M unit :=
  fun p =>
    if negb (toBoolean (envVar env "GITHUB_OUTPUT")) then (p, Normal tt)
    else
      let outFile := toString (envVar env "GITHUB_OUTPUT") in
      let str := toString (nullish value (JStr EmptyString)) in
      match appendFile (world p) outFile key str with
      | (w', None) =>
          (mkProc _ w' (requests p) (stdout p) (stderr p) (outputs p ++ [(key, str)]),
           Normal tt)
      | (w', Some message) =>
          (mkProc _ w' (requests p) (stdout p) (stderr p) (outputs p), Throw (Error message))
      end.

Fixpoint normalizeDomain (fuel : nat) (raw : jsval) : completion string :=
  match fuel with
  | O => OutOfFuel
  | S fuel' =>
      if negb (toBoolean raw) then Throw (Error "DOMAIN is required") else
      let input := Js.trim (toString raw) in
      if String.eqb input EmptyString then Throw (Error "DOMAIN is required") else
      if Js.includes input "://" then
        match URL_parse input with
        | None => Throw (TypeError "Invalid URL")
        | Some url =>
            if negb (String.eqb (protocol url) "http:")
               && negb (String.eqb (protocol url) "https:")
            then Throw (Error "DOMAIN must be a hostname or a http(s) URL")
            else if negb (String.eqb (pathname url) "/")
                    || negb (String.eqb (search url) EmptyString)
                    || negb (String.eqb (hash url) EmptyString)
            then Throw (Error "DOMAIN URL must not include path/query/hash")
            else normalizeDomain fuel' (JStr (hostname url))
        end
      else
      if Js.includes input "/" || Js.includes input "?" || Js.includes input "#"
      then Throw (Error "DOMAIN must not include path/query/hash") else
      if Js.includes input ":"
      then Throw (Error "DOMAIN must not include a port") else
      let domain := Js.toLowerCase (Js.stripTrailing "." input) in
      if negb (Js.includes domain ".")
      then Throw (Error "DOMAIN must contain at least one dot, e.g. notes.example.com")
      else Normal domain
  end.

Definition getToken (args : gmap string jsval) (env : gmap string string) : completion string :=
  let token :=
    Js.trim (toString (nullish (arg args "token")
                         (nullish (envVar env "CLOUDFLARE_API_TOKEN") (JStr EmptyString)))) in
  if String.eqb token EmptyString
  then Throw (Error "Missing CLOUDFLARE_API_TOKEN (or --token)")
  else Normal token.

(** [data?.success === false] *)
Definition successIsFalse (data : jsval) : bool :=
  match getOpt data "success" with
  | JBool false => true
  | _ => false
  end.

Definition cfErrorMessage (data : jsval) (status : Z) : string :=
  toString
    (nullish (getOpt (index0 (getOpt data "errors")) "message")
       (nullish (getOpt (index0 (getOpt data "messages")) "message")
          (JStr ("Cloudflare API request failed (" +:+ Js.ofZ status +:+ ")")))).

Definition cfRequest (token method path : string) (query : list (string * string))
    (body : option jsval) : Request :=
  {| req_method := method;
     req_url := "https://api.cloudflare.com/client/v4" +:+ path;
     req_query := query;
     req_headers := [("Authorization", "Bearer " +:+ token);
                     ("Content-Type", "application/json");
                     ("User-Agent", "inkrypt-deploy/1.0")];
     req_body := JSON_stringify <$> body;
     req_href := URL_href ("https://api.cloudflare.com/client/v4" +:+ path) query |}.

(** The part of [cf] that follows [await resp.text()]. *)
Definition cfResult (url : string) (resp : Response) : completion jsval :=
  let bodyText := resp_text resp in
  match (if String.eqb bodyText EmptyString then Some JNull else JSON_parse bodyText) with
  | None =>
      Throw (CloudflareApiError
               ("Cloudflare API returned non-JSON response (" +:+ Js.ofZ (resp_status resp) +:+ ")")
               (resp_status resp) url JUndefined bodyText)
  | Some data =>
      if negb (resp_ok resp) || successIsFalse data then
        Throw (CloudflareApiError (cfErrorMessage data (resp_status resp))
                 (resp_status resp) url (getOpt data "errors") bodyText)
      else Normal (getOpt data "result")
  end.

Definition cf (token method path : string) (query : list (string * string))
    (body : option jsval) : M jsval :=
  fun p =>
    let req := cfRequest token method path query body in
    let url := URL_href (req_url req) query in
    let '(w', answer) := fetch (world p) req in
    let p' := mkProc _ w' (requests p ++ [req]) (stdout p) (stderr p) (outputs p) in
    match answer with
    | None => (p', Throw (TypeError "fetch failed"))
    | Some resp => (p', cfResult url resp)
    end.

Record Zone : Type := mkZone {
  zone_id : jsval;
  zone_name : jsval;
  account_id : jsval
}.

Definition zoneQuery (name : string) : list (string * string) :=
  [("name", name); ("status", "active"); ("per_page", "50"); ("page", "1")].

(** [Array.isArray(result) && result.find((z) => z?.name === name)] *)
Definition findZone (name : string) (result : jsval) : jsval :=
  match result with
  | JArr l => jsFind (fun z => strictEqStr (getOpt z "name") name) l
  | _ => JBool false
  end.

Definition zoneNotFound (normalized : string) : exn :=
  Error ("No active Cloudflare zone found for DOMAIN=" +:+ normalized +:+
         ". Is it added to Cloudflare and does the token have Zone:Read?").

Fixpoint resolveZone_loop (token normalized : string) (candidates : list string) : M Zone :=
  match candidates with
  | [] => throw (zoneNotFound normalized)
  | name :: rest =>
      let* result := cf token "GET" "/zones" (zoneQuery name) None in
      let zone := findZone name result in
      if negb (toBoolean zone) then resolveZone_loop token normalized rest
      else ret {| zone_id := getOpt zone "id";
                  zone_name := getOpt zone "name";
                  account_id := getOpt (getOpt zone "account") "id" |}
  end.

(** The candidate names: [labels.slice(i).join('.')] for
    [i = 0 .. labels.length - 2]. *)
Definition candidates (labels : list string) : list string :=
  List.map (fun i => Js.join "." (List.skipn i labels))
           (List.seq 0 (List.length labels - 1)).

Definition resolveZone (fuel : nat) (token : string) (domain : jsval) : M Zone :=
  let* normalized := lift (normalizeDomain fuel domain) in
  let labels := Js.split "." normalized in
  if (List.length labels <? 2)%nat
  then throw (Error "DOMAIN must contain at least one dot")
  else resolveZone_loop token normalized (candidates labels).

Record DnsOutcome : Type := mkDnsOutcome {
  action : string;
  id : jsval
}.

Definition dnsRecordsPath (zoneId : string) : string :=
  "/zones/" +:+ zoneId +:+ "/dns_records".

Definition dnsQuery (recordName : string) : list (string * string) :=
  [("name", recordName); ("per_page", "100"); ("page", "1")].

(** [proxied] is [None] when the caller leaves it [undefined]. *)
Definition desiredRecord (recordName ip : string) (proxied : option bool) : jsval :=
  JObj [("type", JStr "A");
        ("name", JStr recordName);
        ("content", JStr ip);
        ("ttl", JNum 1);
        ("proxied", JBool (default true proxied))].

(** [matches]: the record against [desired.type], [desired.name],
    [desired.content] and [desired.proxied]. *)
Definition recordMatches (record : jsval) (recordName ip : string) (proxied : option bool)
    : bool :=
  strictEqStr (getOpt record "type") "A"
  && String.eqb (Js.toLowerCase (toString (getOpt record "name")))
                (Js.toLowerCase recordName)
  && String.eqb (toString (getOpt record "content")) ip
  && Bool.eqb (toBoolean (getOpt record "proxied")) (default true proxied).

Definition ambiguousRecord (recordName : string) : exn :=
  Error ("Multiple DNS records exist for " +:+ recordName +:+ ". Refusing to continue.").

Definition dnsConflict (recordName ip : string) : exn :=
  Error ("DNS record for " +:+ recordName +:+ " exists but does not match expected A -> "
         +:+ ip +:+ ". Set FORCE_TAKEOVER_DNS=true to override.").

Definition ensureDnsA (token zoneId recordName ip : string) (proxied : option bool)
    (force : bool) : M DnsOutcome :=
  let* records := cf token "GET" (dnsRecordsPath zoneId) (dnsQuery recordName) None in
  let existing := arrayOrEmpty records in
  if (1 <? List.length existing)%nat then throw (ambiguousRecord recordName) else
  let desired := desiredRecord recordName ip proxied in
  match existing with
  | [] =>
      let* created := cf token "POST" (dnsRecordsPath zoneId) [] (Some desired) in
      ret {| action := "created"; id := getOpt created "id" |}
  | record :: _ =>
      if recordMatches record recordName ip proxied then
        let* rid := lift (getStrict record "id") in
        ret {| action := "unchanged"; id := rid |}
      else if negb force then throw (dnsConflict recordName ip)
      else
        let* rid := lift (getStrict record "id") in
        let* updated := cf token "PUT" (dnsRecordsPath zoneId +:+ "/" +:+ toString rid) []
                          (Some desired) in
        ret {| action := "updated"; id := nullish (getOpt updated "id") rid |}
  end.

Definition routesPath (zoneId : string) : string :=
  "/zones/" +:+ zoneId +:+ "/workers/routes".

Definition routeBody (pattern workerName : string) : jsval :=
  JObj [("pattern", JStr pattern); ("script", JStr workerName)].

(** [list.find((r) => String(r?.pattern).toLowerCase() === String(pattern).toLowerCase())] *)
Definition findRoute (pattern : string) (routes : list jsval) : jsval :=
  jsFind (fun r => String.eqb (Js.toLowerCase (toString (getOpt r "pattern")))
                              (Js.toLowerCase pattern)) routes.

Definition routeConflict (pattern : string) (existing : jsval) : exn :=
  Error ("Worker route " +:+ pattern +:+ " is already bound to "
         +:+ toString (getOpt existing "script")
         +:+ ". Set FORCE_TAKEOVER_ROUTES=true to override.").

Fixpoint ensureWorkerRoutes_loop (token zoneId workerName : string) (routes : list jsval)
    (force : bool) (patterns : list string) : M unit :=
  match patterns with
  | [] => ret tt
  | pattern :: rest =>
      let existing := findRoute pattern routes in
      if negb (toBoolean existing) then
        do* cf token "POST" (routesPath zoneId) [] (Some (routeBody pattern workerName)) in
        ensureWorkerRoutes_loop token zoneId workerName routes force rest
      else if strictEqStr (getOpt existing "script") workerName then
        ensureWorkerRoutes_loop token zoneId workerName routes force rest
      else if negb force then throw (routeConflict pattern existing)
      else
        do* cf token "PUT" (routesPath zoneId +:+ "/" +:+ toString (getOpt existing "id")) []
              (Some (routeBody pattern workerName)) in
        ensureWorkerRoutes_loop token zoneId workerName routes force rest
  end.

Definition ensureWorkerRoutes (token zoneId workerName : string) (patterns : list string)
    (force : bool) : M unit :=
  let* routes := cf token "GET" (routesPath zoneId) [] None in
  ensureWorkerRoutes_loop token zoneId workerName (arrayOrEmpty routes) force patterns.

Definition truthyWords : list string := ["1"; "true"; "yes"; "y"; "on"].

Definition parseBool (v : jsval) : bool :=
  match v with
  | JBool b => b
  | JUndefined => false
  | _ =>
      let s := Js.toLowerCase (Js.trim (toString v)) in
      if String.eqb s EmptyString then false
      else existsb (String.eqb s) truthyWords
  end.

Definition usage : string :=
  "Usage:" +:+ nl +:+
  "  node deploy/cf-api.mjs resolve-zone --domain <domain>" +:+ nl +:+
  "  node deploy/cf-api.mjs ensure-dns-a --zone-id <id> --name <fqdn> [--ip 192.0.2.1] [--proxied true|false] [--force]" +:+ nl +:+
  "  node deploy/cf-api.mjs ensure-worker-routes --zone-id <id> --worker-name <name> --route <pattern> [--route <pattern> ...] [--force]" +:+ nl +:+
  nl +:+
  "Auth:" +:+ nl +:+
  "  Set env CLOUDFLARE_API_TOKEN or pass --token <token>".

(** The domain argument of [resolve-zone]. *)
Definition domainArg (args : gmap string jsval) (env : gmap string string) : jsval :=
  nullish (arg args "domain") (nullish (envVar env "DOMAIN") (envVar env "INKRYPT_DOMAIN")).

Definition resolveZoneCommand (fuel : nat) (args : gmap string jsval)
    (env : gmap string string) (token : string) : M unit :=
  let* domain := lift (normalizeDomain fuel (domainArg args env)) in
  let* zone := resolveZone fuel token (JStr domain) in
  do* githubOutput env "zone_id" (zone_id zone) in
  do* githubOutput env "zone_name" (zone_name zone) in
  do* githubOutput env "account_id" (account_id zone) in
  do* writeOut ("Resolved zone for " +:+ domain +:+ ": " +:+
                JSON_stringify (JObj [("zone_id", zone_id zone);
                                      ("zone_name", zone_name zone);
                                      ("account_id", account_id zone)]) +:+ nl) in
  exit 0.

(** [args.proxied === undefined ? true : parseBool(args.proxied)] *)
Definition proxiedFlag (args : gmap string jsval) : bool :=
  match arg args "proxied" with
  | JUndefined => true
  | v => parseBool v
  end.

(** [parseBool(args.force ?? process.env.NAME)] *)
Definition forceFlag (args : gmap string jsval) (env : gmap string string)
    (envName : string) : bool :=
  parseBool (nullish (arg args "force") (envVar env envName)).

Definition ensureDnsACommand (fuel : nat) (args : gmap string jsval)
    (env : gmap string string) (token : string) : M unit :=
  let zoneId := Js.trim (toString (nullish (arg args "zone-id") (JStr EmptyString))) in
  let* name := lift (normalizeDomain fuel
                       (nullish (arg args "name") (domainArg args env))) in
  let ip0 := Js.trim (toString (nullish (arg args "ip") (JStr "192.0.2.1"))) in
  let ip := if String.eqb ip0 EmptyString then "192.0.2.1" else ip0 in
  let proxied := proxiedFlag args in
  let force := forceFlag args env "FORCE_TAKEOVER_DNS" in
  if String.eqb zoneId EmptyString then throw (Error "--zone-id is required") else
  if String.eqb name EmptyString then throw (Error "--name is required") else
  let* dns := ensureDnsA token zoneId name ip (Some proxied) force in
  do* writeOut ("DNS A " +:+ name +:+ " -> " +:+ ip +:+ ": " +:+ action dns +:+ nl) in
  exit 0.

(** [k === 'route' && typeof v === 'string'] *)
Definition routeEntry (kv : string * jsval) : option string :=
  match kv with
  | (k, JStr v) => if String.eqb k "route" then Some v else None
  | _ => None
  end.

(** The loop over [Object.entries(args)] that fills [rawRoutes]. *)
Definition rawRoutesOf (args : gmap string jsval) : list string :=
  omap routeEntry (map_to_list args).

(** The patterns of [ensure-worker-routes]. *)
Definition collectPatterns (args : gmap string jsval) : list string :=
  let rawRoutes := rawRoutesOf args in
  let rawRoutes :=
    match rawRoutes, arg args "route" with
    | [], JStr v => [v]
    | _, _ => rawRoutes
    end in
  List.filter (fun s => negb (String.eqb s EmptyString))
    (List.map Js.trim (List.flat_map (Js.split ",") rawRoutes)).

Definition ensureWorkerRoutesCommand (args : gmap string jsval)
    (env : gmap string string) (token : string) : M unit :=
  let zoneId := Js.trim (toString (nullish (arg args "zone-id") (JStr EmptyString))) in
  let workerName := Js.trim (toString (nullish (arg args "worker-name") (JStr EmptyString))) in
  if String.eqb zoneId EmptyString then throw (Error "--zone-id is required") else
  if String.eqb workerName EmptyString then throw (Error "--worker-name is required") else
  let patterns := collectPatterns args in
  match patterns with
  | [] => throw (Error "At least one --route <pattern> is required")
  | _ =>
      let force := forceFlag args env "FORCE_TAKEOVER_ROUTES" in
      do* ensureWorkerRoutes token zoneId workerName patterns force in
      do* writeOut ("Worker routes ensured (" +:+ Js.ofNat (List.length patterns) +:+ ")" +:+ nl) in
      exit 0
  end.

(** [args._[0]] *)
Definition command (args : gmap string jsval) : jsval := index0 (arg args "_").

(** The top level of the script; [argv] is [process.argv.slice(2)]. *)
Definition main (fuel : nat) (argv : list string) (env : gmap string string) : M unit :=
  let* args := lift (parseArgs argv) in
  let cmd := command args in
  if negb (toBoolean cmd) then
    do* writeErr (usage +:+ nl) in
    exit 2
  else
  let* token := lift (getToken args env) in
  if strictEqStr cmd "resolve-zone" then resolveZoneCommand fuel args env token
  else if strictEqStr cmd "ensure-dns-a" then ensureDnsACommand fuel args env token
  else if strictEqStr cmd "ensure-worker-routes" then ensureWorkerRoutesCommand args env token
  else
    do* writeErr (usage +:+ nl) in
    do* writeErr ("Unknown command: " +:+ toString cmd +:+ nl) in
    exit 2.

(** What Node prints for an uncaught exception begins with the name and
    the message of the error. *)
Definition uncaughtReport (e : exn) : string :=
  match e with
  | Error m => "Error: " +:+ m
  | TypeError m => "TypeError: " +:+ m
  | CloudflareApiError m _ _ _ _ => "CloudflareApiError: " +:+ m
  end.

(** The process: an uncaught exception of the top level ends it with exit
    code 1 and the report on the error stream; the result is [None] only
    when the recursion budget [fuel] was too small. *)
Definition runProcess (fuel : nat) (argv : list string) (env : gmap string string)
    (p : Proc) : Proc * option Z :=
  match main fuel argv env p with
  | (p', Exit n) => (p', Some n)
  | (p', Normal _) => (p', Some 0)
  | (p', Throw e) =>
      (mkProc _ (world p') (requests p') (stdout p') (stderr p' ++ [uncaughtReport e])
         (outputs p'), Some 1)
  | (p', OutOfFuel) => (p', None)
  end.

End WithPlatform.

End CfApi.

(** ** The configuration resolver (second script) *)

Module ResolveConfig.

(** The four checks of the loop over [labels]. *)
Definition checkLabel (label : string) : completion unit :=
  if String.eqb label EmptyString then Throw (Error "DOMAIN contains an empty label") else
  if (63 <? String.length label)%nat then Throw (Error "DOMAIN label is too long") else
  if negb (Js.matchesClassPlus Js.isLabelChar label)
  then Throw (Error "DOMAIN label contains invalid characters") else
  if Js.startsWith label "-" || Js.endsWith label "-"
  then Throw (Error ("DOMAIN label must not start or end with " +:+ dquote +:+ "-" +:+ dquote))
  else Normal tt.

Fixpoint checkLabels (labels : list string) : completion unit :=
  match labels with
  | [] => Normal tt
  | label :: rest => bindC (checkLabel label) (fun _ => checkLabels rest)
  end.

Section WithPlatform.
Context `{Platform}.

Fixpoint normalizeDomain (fuel : nat) (raw : jsval) : completion string :=
  match fuel with
  | O => OutOfFuel
  | S fuel' =>
      if negb (toBoolean raw) then Throw (Error "DOMAIN is required") else
      let input := Js.trim (toString raw) in
      if String.eqb input EmptyString then Throw (Error "DOMAIN is required") else
      if Js.includes input "://" then
        match URL_parse input with
        | None => Throw (TypeError "Invalid URL")
        | Some url =>
            if negb (String.eqb (protocol url) "http:")
               && negb (String.eqb (protocol url) "https:")
            then Throw (Error "DOMAIN must be a hostname or a http(s) URL")
            else if negb (String.eqb (pathname url) "/")
                    || negb (String.eqb (search url) EmptyString)
                    || negb (String.eqb (hash url) EmptyString)
            then Throw (Error "DOMAIN URL must not include path/query/hash")
            else normalizeDomain fuel' (JStr (hostname url))
        end
      else
      if Js.includes input "/" || Js.includes input "?" || Js.includes input "#"
      then Throw (Error "DOMAIN must not include path/query/hash") else
      if Js.includes input ":"
      then Throw (Error "DOMAIN must not include a port") else
      let domain := Js.toLowerCase (Js.stripTrailing "." input) in
      if String.eqb domain EmptyString then Throw (Error "DOMAIN is required") else
      if negb (Js.matchesClassPlus Js.isHostChar domain)
      then Throw (Error "DOMAIN must be an ASCII hostname (use punycode for IDN)") else
      if negb (Js.includes domain ".")
      then Throw (Error "DOMAIN must contain at least one dot, e.g. notes.example.com") else
      if (253 <? String.length domain)%nat then Throw (Error "DOMAIN is too long") else
      bindC (checkLabels (Js.split "." domain)) (fun _ => Normal domain)
  end.

End WithPlatform.

(** [maxLen] defaults to 63. *)
Definition buildName (prefix slug hash : string) (maxLen : Z) : string :=
  let fixed := prefix +:+ "--" +:+ hash in
  let availableSlugLen := maxLen - Z.of_nat (String.length fixed) in
  let trimmedSlug :=
    Js.stripTrailing "-" (Js.take (Z.to_nat (Z.max 1 availableSlugLen)) slug) in
  Js.collapseDashes (prefix +:+ "-" +:+ trimmedSlug +:+ "-" +:+ hash).

(** What the specification asks of a label of a normalised domain. *)
Definition goodLabel (label : string) : Prop :=
  label <> EmptyString
  /\ (String.length label <= 63)%nat
  /\ Js.allChars Js.isLabelChar label = true
  /\ Js.startsWith label "-" = false
  /\ Js.endsWith label "-" = false.

(** [NormalizedDomain] of the specification: characters of [[a-z0-9.-]], at
    least one dot, at most 253 characters, every label good. *)
Definition NormalizedDomain (d : string) : Prop :=
  Js.allChars Js.isHostChar d = true
  /\ Js.hasChar "." d = true
  /\ (String.length d <= 253)%nat
  /\ Forall goodLabel (Js.split "." d).

End ResolveConfig.

(** ** A platform to run the scripts on

    The remote service answers from a queue of prepared responses; the
    parsers know the texts that occur in the examples below. *)

Module Demo.

Definition q (s : string) : string := dquote +:+ s +:+ dquote.

Fixpoint lookupText {A : Type} (table : list (string * A)) (s : string) : option A :=
  match table with
  | [] => None
  | (k, v) :: rest => if String.eqb k s then Some v else lookupText rest s
  end.

Definition emptyListText : string :=
  "{" +:+ q "success" +:+ ":true," +:+ q "result" +:+ ":[]}".

Definition createdText : string :=
  "{" +:+ q "success" +:+ ":true," +:+ q "result" +:+ ":{" +:+ q "id" +:+ ":" +:+ q "r1" +:+ "}}".

Definition failureText : string :=
  "{" +:+ q "success" +:+ ":false," +:+ q "errors" +:+ ":[{" +:+ q "code" +:+ ":10000,"
  +:+ q "message" +:+ ":" +:+ q "Authentication error" +:+ "}]}".

Definition failureValue : jsval :=
  JObj [("success", JBool false);
        ("errors", JArr [JObj [("code", JNum 10000); ("message", JStr "Authentication error")]])].

(** One route, bound to another script. *)
Definition routesText : string :=
  "{" +:+ q "success" +:+ ":true," +:+ q "result" +:+ ":[{" +:+ q "id" +:+ ":" +:+ q "rt1"
  +:+ "," +:+ q "pattern" +:+ ":" +:+ q "Notes.Example.com/*"
  +:+ "," +:+ q "script" +:+ ":" +:+ q "other-worker" +:+ "}]}".

Definition routeValue : jsval :=
  JObj [("id", JStr "rt1"); ("pattern", JStr "Notes.Example.com/*");
        ("script", JStr "other-worker")].

(** The zone [example.com]. *)
Definition zonesText : string :=
  "{" +:+ q "success" +:+ ":true," +:+ q "result" +:+ ":[{" +:+ q "id" +:+ ":" +:+ q "z9"
  +:+ "," +:+ q "name" +:+ ":" +:+ q "example.com"
  +:+ "," +:+ q "account" +:+ ":{" +:+ q "id" +:+ ":" +:+ q "acc1" +:+ "}}]}".

Definition zoneValue : jsval :=
  JObj [("id", JStr "z9"); ("name", JStr "example.com");
        ("account", JObj [("id", JStr "acc1")])].

Definition jsonTable : list (string * jsval) :=
  [(emptyListText, JObj [("success", JBool true); ("result", JArr [])]);
   (createdText, JObj [("success", JBool true); ("result", JObj [("id", JStr "r1")])]);
   (failureText, failureValue);
   (routesText, JObj [("success", JBool true); ("result", JArr [routeValue])]);
   (zonesText, JObj [("success", JBool true); ("result", JArr [zoneValue])])].

Definition urlTable : list (string * URL) :=
  [("https://example.com:8080", mkURL "https:" "example.com" "/" EmptyString EmptyString);
   ("HTTPS://Notes.Example.com/", mkURL "https:" "notes.example.com" "/" EmptyString EmptyString);
   ("ftp://example.com", mkURL "ftp:" "example.com" "/" EmptyString EmptyString);
   ("https://example.com/x", mkURL "https:" "example.com" "/x" EmptyString EmptyString)].

(** A rendering of a value that is enough to tell request bodies apart. *)
Fixpoint render (v : jsval) : string :=
  match v with
  | JUndefined => "undefined"
  | JNull => "null"
  | JBool true => "true"
  | JBool false => "false"
  | JNum n => Js.ofZ n
  | JStr s => q s
  | JArr elems => "[" +:+ Js.join "," (List.map render elems) +:+ "]"
  | JObj props =>
      "{" +:+ Js.join "," (List.map (fun kv => q (fst kv) +:+ ":" +:+ render (snd kv)) props) +:+ "}"
  end.

Definition href (url : string) (query : list (string * string)) : string :=
  match query with
  | [] => url
  | _ => url +:+ "?" +:+ Js.join "&" (List.map (fun kv => fst kv +:+ "=" +:+ snd kv) query)
  end.

Definition platform : Platform := {|
  World := list (option Response);
  fetch := fun w _ => match w with
                      | answer :: w' => (w', answer)
                      | [] => ([], None)
                      end;
  JSON_parse := lookupText jsonTable;
  JSON_stringify := render;
  URL_parse := lookupText urlTable;
  URL_href := href;
  appendFile := fun w _ _ _ => (w, None)
|}.

(** The same platform with a file of step outputs that cannot be written. *)
Definition readOnly : Platform := {|
  World := list (option Response);
  fetch := fun w _ => match w with
                      | answer :: w' => (w', answer)
                      | [] => ([], None)
                      end;
  JSON_parse := lookupText jsonTable;
  JSON_stringify := render;
  URL_parse := lookupText urlTable;
  URL_href := href;
  appendFile := fun w _ _ _ => (w, Some "EACCES: permission denied")
|}.

(** A process that has done nothing yet, facing the given answers. *)
Definition start (answers : list (option Response)) : Proc :=
  @mkProc platform answers [] [] [] [].

Definition ok (text : string) : option Response := Some (mkResponse 200 text).

(** [--route] given twice, the second time with two patterns. *)
Definition routeArgv : list string :=
  ["ensure-worker-routes"; "--zone-id"; "z1"; "--worker-name"; "inkrypt-api";
   "--route"; "a.example.com/*"; "--route"; "b.example.com/*, c.example.com/*"; "--force"].

Definition routeArgs : gmap string jsval :=
  <["force" := JBool true]>
    (<["route" := JStr "b.example.com/*, c.example.com/*"]>
       (<["route" := JStr "a.example.com/*"]>
          (<["worker-name" := JStr "inkrypt-api"]>
             (<["zone-id" := JStr "z1"]>
                {["_" := JArr [JStr "ensure-worker-routes"]]})))).

Definition tokenEnv : gmap string string := {["CLOUDFLARE_API_TOKEN" := "tok"]}.

Definition longPrefix : string :=
  "inkrypt-api-preview-environment-for-feature-branch-deployments".

(** A digest function with the shape of a SHA-256 digest in hexadecimal. *)
Definition digest (input : string) : string :=
  "0123abcd4567ef890123abcd4567ef890123abcd4567ef890123abcd4567ef89".

(** The arguments of a zone lookup. *)
Definition zoneArgv : list string := ["resolve-zone"; "--domain"; "notes.example.com"].

End Demo.

(** [InvalidDomain] of the specification: the scripts throw a plain [Error]
    whose message names the rule. *)
Definition InvalidDomain (c : completion string) : Prop :=
  exists message, c = Throw (Error message).

(** ** The contract of the control-plane client, in the words of the
    specification *)

Module Contract.
Section WithPlatform.
Context `{Platform}.

(** The HTTP status is not 2xx. *)
Definition non2xx (resp : Response) : Prop :=
  ~ (200 <= resp_status resp <= 299).

(** The body is not empty and is not valid JSON. *)
Definition notJson (resp : Response) : Prop :=
  resp_text resp <> EmptyString /\ JSON_parse (resp_text resp) = None.

(** The body is an envelope whose success flag is [false]. *)
Definition envelopeFailed (resp : Response) : Prop :=
  exists data, resp_text resp <> EmptyString
               /\ JSON_parse (resp_text resp) = Some data
               /\ getOpt data "success" = JBool false.

(** The envelope of a response: the parsed body, [null] for an empty body. *)
Definition envelope (resp : Response) : jsval :=
  if String.eqb (resp_text resp) EmptyString then JNull
  else default JNull (JSON_parse (resp_text resp)).

End WithPlatform.
End Contract.

(** ** The reconciliation of routes and the zone search, in the words of
    the specification *)


Module Plan.
Section WithPlatform.
Context `{Platform}.

(** A call of the Cloudflare API: the method, the URL that [new URL] makes
    of the API base followed by [path] with the [query] parameters set on
    it, the bearer token and the two other headers, and the body as JSON. *)
Definition call (token method path : string) (query : list (string * string))
    (body : option jsval) : Request :=
  {| req_method := method;
     req_url := "https://api.cloudflare.com/client/v4" +:+ path;
     req_query := query;
     req_headers := [("Authorization", "Bearer " +:+ token);
                     ("Content-Type", "application/json");
                     ("User-Agent", "inkrypt-deploy/1.0")];
     req_body := option_map JSON_stringify body;
     req_href := URL_href ("https://api.cloudflare.com/client/v4" +:+ path) query |}.




(** The query for the active zones of a name. *)
Definition activeZones (name : string) : list (string * string) :=
  [("name", name); ("status", "active"); ("per_page", "50"); ("page", "1")].









(** The candidate zone names of a list of labels: its suffixes of two
    labels or more, the longest first. *)
Fixpoint suffixNames (labels : list string) : list string :=
  match labels with
  | _ :: (_ :: _) as rest => Js.join "." labels :: suffixNames rest
  | _ => []
  end.

(** The patterns of one [--route] value: its comma-separated pieces,
    trimmed, the empty ones dropped. *)
Definition patternsOf (v : string) : list string :=
  List.filter (fun s => negb (String.eqb s EmptyString))
    (List.map Js.trim (Js.split "," v)).

Definition zoneRequest (token name : string) : Request :=
  call token "GET" "/zones" (activeZones name) None.

(** The answer [result] to the query for [name] lists no zone of exactly
    that name. *)
Definition noZoneNamed (name : string) (result : jsval) : Prop :=
  forall zones, result = JArr zones ->
  forall z, In z zones -> getOpt z "name" <> JStr name.

(** Queried one after the other from state [p], none of [names] has a
    zone; [p'] is the state after the queries. *)
Fixpoint zoneMisses (token : string) (names : list string) (p p' : Proc) : Prop :=
  match names with
  | [] => p' = p
  | name :: rest =>
      exists p1 result,
        CfApi.cf token "GET" "/zones" (activeZones name) None p = (p1, Normal result)
        /\ noZoneNamed name result
        /\ zoneMisses token rest p1 p'
  end.

End WithPlatform.
End Plan.

(** ** How a computation may end *)

Module Ends.
Section WithPlatform.
Context `{Platform}.

(** The two ways to end that are neither a result nor a throw. *)
Inductive abruptKind : Type :=
| ByExit
| ByFuel.

Definition endsBy {A : Type} (k : abruptKind) (c : completion A) : Prop :=
  match k, c with
  | ByExit, Exit _ => True
  | ByFuel, OutOfFuel => True
  | _, _ => False
  end.

(** [m] never ends that way: it never calls [process.exit], or it never
    runs out of fuel. *)
Definition never {A : Type} (k : abruptKind) (m : M A) : Prop :=
  forall p, ~ endsBy k (m p).2.






(** The usage text goes to the error stream, followed by [extra], and
    the script exits with 2. *)
Definition usageEnd (p : Proc) (extra : list string) : Proc * completion unit :=
  (mkProc _ (world p) (requests p) (stdout p)
     (stderr p ++ (CfApi.usage +:+ nl) :: extra) (outputs p), Exit 2).


End WithPlatform.
End Ends.

(** ** The rest of the configuration resolver *)

Module Resolver.

(** [s.replace(/re/g, '-')] for a class of single characters: every
    character of the class becomes a dash. *)
Fixpoint dashWhere (inClass : ascii -> bool) (s : string) : string :=
  match s with
  | EmptyString => EmptyString
  | String c s' => String (if inClass c then "-"%char else c) (dashWhere inClass s')
  end.

(** [s.replace(/^-+/, '')] *)
Fixpoint stripLeadingDashes (s : string) : string :=
  match s with
  | EmptyString => EmptyString
  | String c s' => if Ascii.eqb c "-" then stripLeadingDashes s' else s
  end.

(** [slugifyDomain]. Replacing every run of one or more dashes by one dash
    ([/-+/g]) is the function [Js.collapseDashes]; [/^-+|-+$/g] removes the
    leading and the trailing run. *)
Definition slugifyDomain (domain : string) : string :=
  let slug :=
    Js.stripTrailing "-"
      (stripLeadingDashes
         (Js.collapseDashes
            (dashWhere (fun c => Ascii.eqb c ".")
               (dashWhere (fun c => negb (Js.isHostChar c))
                  (Js.toLowerCase domain))))) in
  if String.eqb slug EmptyString then "site" else slug.

(** [a || b] on strings *)
Definition orElse (a b : string) : string :=
  if String.eqb a EmptyString then b else a.

(** [String(args[key] ?? process.env[envName] ?? fallback).trim()] *)
Definition setting (args : gmap string jsval) (env : gmap string string)
    (key envName fallback : string) : string :=
  Js.trim (toString (nullish (arg args key) (nullish (envVar env envName) (JStr fallback)))).

Section WithPlatform.
Context `{Platform}.

(** [crypto.createHash('sha256').update(s).digest('hex')] and
    [JSON.stringify(v, null, 2)], which the script only calls. *)
Variable sha256hex : string -> string.
Variable JSON_pretty : jsval -> string.

Definition shortHash (input : string) : string := Js.take 8 (sha256hex input).

(** The [outputs] object, as its entries in insertion order. *)
Definition resolveOutputs (args : gmap string jsval) (env : gmap string string)
    (domain : string) : list (string * string) :=
  let origin := "https://" +:+ domain in
  let rpId := domain in
  let rpName := orElse (setting args env "rp-name" "INKRYPT_RP_NAME" "Inkrypt") "Inkrypt" in
  let cookieSameSite :=
    orElse (setting args env "cookie-samesite" "INKRYPT_COOKIE_SAMESITE" "Lax") "Lax" in
  let corsOriginRaw := setting args env "cors-origin" "INKRYPT_CORS_ORIGIN" EmptyString in
  let corsOrigin := orElse corsOriginRaw origin in
  let slug := slugifyDomain domain in
  let hash := shortHash domain in
  let workerNameOverride := setting args env "worker-name" "INKRYPT_WORKER_NAME" EmptyString in
  let d1NameOverride := setting args env "d1-name" "INKRYPT_D1_NAME" EmptyString in
  let workerName := orElse workerNameOverride (ResolveConfig.buildName "inkrypt-api" slug hash 63) in
  let d1Name := orElse d1NameOverride (ResolveConfig.buildName "inkrypt" slug hash 63) in
  [("domain", domain);
   ("origin", origin);
   ("rp_id", rpId);
   ("rp_name", rpName);
   ("cors_origin", corsOrigin);
   ("cookie_samesite", cookieSameSite);
   ("worker_name", workerName);
   ("d1_name", d1Name)].

(** [for (const [k, v] of Object.entries(outputs)) githubOutput(k, v)] *)
Fixpoint emitAll (env : gmap string string) (entries : list (string * string)) : M unit :=
  match entries with
  | [] => ret tt
  | (k, v) :: rest => do* CfApi.githubOutput env k (JStr v) in emitAll env rest
  end.

Definition outputsObject (entries : list (string * string)) : jsval :=
  JObj (List.map (fun kv => (fst kv, JStr (snd kv))) entries).

(** The top level of the script; [parseArgs] and [githubOutput] are the
    functions of the same text in cf-api.mjs. *)
Definition main (fuel : nat) (argv : list string) (env : gmap string string) : M unit :=
  let* args := lift (CfApi.parseArgs argv) in
  let* domain := lift (ResolveConfig.normalizeDomain fuel (CfApi.domainArg args env)) in
  let entries := resolveOutputs args env domain in
  do* emitAll env entries in
  if negb (toBoolean (envVar env "GITHUB_OUTPUT"))
  then writeOut (JSON_pretty (outputsObject entries) +:+ nl)
  else writeOut ("Resolved deploy config:" +:+ nl +:+ JSON_pretty (outputsObject entries) +:+ nl).

(** The process: as for cf-api.mjs, an uncaught exception ends it with
    exit code 1 and its report on the error stream; the script has no
    [process.exit] of its own and ends with exit code 0 otherwise. *)
Definition runProcess (fuel : nat) (argv : list string) (env : gmap string string)
    (p : Proc) : Proc * option Z :=
  match main fuel argv env p with
  | (p', Normal _) => (p', Some 0)
  | (p', Exit n) => (p', Some n)
  | (p', Throw e) =>
      (mkProc _ (world p') (requests p') (stdout p') (stderr p' ++ [CfApi.uncaughtReport e])
         (outputs p'), Some 1)
  | (p', OutOfFuel) => (p', None)
  end.

End WithPlatform.

End Resolver.

(** ** Further notions of the specification side *)

Module Shape.

(** The tokens of [argv] that are neither a flag nor the value of a flag:
    those that do not start with two dashes and do not follow a token that
    does. [afterFlag] tells whether the token before is a flag. *)
Fixpoint positionalsAfter (afterFlag : bool) (argv : list string) : list string :=
  match argv with
  | [] => []
  | a :: rest =>
      let isFlag := Js.startsWith a "--" in
      (if negb isFlag && negb afterFlag then [a] else [])
      ++ positionalsAfter isFlag rest
  end.

Definition positionals (argv : list string) : list string := positionalsAfter false argv.

(** A name made of lower-case letters, digits and single dashes, with no
    dash at either end. *)
Definition dashedName (s : string) : Prop :=
  s <> EmptyString
  /\ Js.allChars Js.isLabelChar s = true
  /\ Js.startsWith s "-" = false
  /\ Js.endsWith s "-" = false
  /\ Js.includes s "--" = false.

(** A derived name: the prefix, the slug cut to [room] characters without
    the dashes the cut leaves at its end, and the hash, joined by dashes; a
    slug of at most [room] characters is kept whole. The name is valid and
    has at most 63 characters. *)
Definition derivedName (prefix slug hash : string) (room : nat) (name : string) : Prop :=
  name = prefix +:+ "-" +:+ Js.stripTrailing "-" (Js.take room slug) +:+ "-" +:+ hash
  /\ ((String.length slug <= room)%nat -> name = prefix +:+ "-" +:+ slug +:+ "-" +:+ hash)
  /\ dashedName name
  /\ (String.length name <= 63)%nat.

(** [0-9a-f] *)
Definition isHexChar (c : ascii) : bool :=
  let n := N_of_ascii c in
  (((48 <=? n) && (n <=? 57)) || ((97 <=? n) && (n <=? 102)))%N.

(** The string does not begin with white space. *)
Definition noLeadingSpace (s : string) : Prop :=
  match s with
  | String c _ => Js.isWhiteSpace c = false
  | EmptyString => True
  end.

(** The characters that [normalizeDomain] refuses outside a URL. *)
Definition separators : list ascii := ["/"; "?"; "#"; ":"]%char.

Section WithPlatform.
Context `{Platform}.

(** The request is a read of the zone list. *)
Definition zoneRead (call : Request) : Prop :=
  req_method call = "GET"
  /\ req_url call = "https://api.cloudflare.com/client/v4/zones"
  /\ req_body call = None.

(** [p'] differs from [p] by requests sent and answers received only. *)
Definition sameStreams (p p' : Proc) : Prop :=
  stdout p' = stdout p /\ stderr p' = stderr p /\ outputs p' = outputs p.

(** A write of the A record: a POST of [{type: 'A', name, content: ip,
    ttl: 1, proxied}] whose URL is made from the record collection of the
    zone, or, only with [force], a PUT of the same body whose URL is made
    from the collection followed by a slash and an identifier. *)
Definition dnsWrite (token zoneId recordName ip : string) (proxied : option bool)
    (force : bool) (request : Request) : Prop :=
  let collection := "/zones/" +:+ zoneId +:+ "/dns_records" in
  let desired := JObj [("type", JStr "A");
                       ("name", JStr recordName);
                       ("content", JStr ip);
                       ("ttl", JNum 1);
                       ("proxied", JBool (default true proxied))] in
  request = Plan.call token "POST" collection [] (Some desired)
  \/ (force = true
      /\ exists rid, request = Plan.call token "PUT" (collection +:+ "/" +:+ rid) []
                                 (Some desired)).

(** A write of a route: a POST of [{pattern, script: workerName}], for one
    of the patterns, whose URL is made from the route collection of the
    zone, or, only with [force], a PUT of such a body whose URL is made
    from the collection followed by a slash and an identifier. *)
Definition routeWrite (token zoneId workerName : string) (patterns : list string)
    (force : bool) (request : Request) : Prop :=
  let collection := "/zones/" +:+ zoneId +:+ "/workers/routes" in
  exists pattern,
    In pattern patterns
    /\ let body := JObj [("pattern", JStr pattern); ("script", JStr workerName)] in
       (request = Plan.call token "POST" collection [] (Some body)
        \/ (force = true
            /\ exists rid, request = Plan.call token "PUT" (collection +:+ "/" +:+ rid) []
                                       (Some body))).

(** The URL of the call is what [new URL] makes of a text that starts with
    the zone endpoints of the Cloudflare API and of the parameters set on
    it, and the call carries [token], in the three headers [cf] sets. The
    text may hold dot segments (a zone identifier is taken as it is given),
    so nothing is said of the path of the address fetched. *)
Definition apiCall (token : string) (call : Request) : Prop :=
  Js.startsWith (req_url call) "https://api.cloudflare.com/client/v4/zones" = true
  /\ req_href call = URL_href (req_url call) (req_query call)
  /\ req_headers call = [("Authorization", "Bearer " +:+ token);
                         ("Content-Type", "application/json");
                         ("User-Agent", "inkrypt-deploy/1.0")].

(** [q] is [p] after some more requests, each of which satisfies [P]. *)
Definition adds (P : Request -> Prop) (p q : Proc) : Prop :=
  exists calls, requests q = requests p ++ calls /\ Forall P calls.

(** Every run of [m] relates the state before to the state after by [R]. *)
Definition keeps {A : Type} (R : Proc -> Proc -> Prop) (m : M A) : Prop :=
  forall p, R p (m p).1.

(** The run ended with a throw or out of fuel. *)
Definition failed {A : Type} (c : completion A) : Prop :=
  match c with
  | Throw _ | OutOfFuel => True
  | Normal _ | Exit _ => False
  end.

(** The three step outputs of a zone. *)
Definition zoneEntries (zone : CfApi.Zone) : list (string * string) :=
  [("zone_id", toString (nullish (CfApi.zone_id zone) (JStr EmptyString)));
   ("zone_name", toString (nullish (CfApi.zone_name zone) (JStr EmptyString)));
   ("account_id", toString (nullish (CfApi.account_id zone) (JStr EmptyString)))].

(** [entries] is the beginning of [whole] and not all of it. *)
Definition cutShort {A : Type} (whole entries : list A) : Prop :=
  exists rest, rest <> [] /\ whole = entries ++ rest.

(** The step outputs of a run that ends with exit code 0: none, or the
    three of a zone. *)
Definition zoneWritten (entries : list (string * string)) : Prop :=
  entries = [] \/ exists zone, entries = zoneEntries zone.

(** The step outputs of a run that fails: none, or the first or the first
    two of a zone, when the write that follows has failed. *)
Definition zoneCutShort (entries : list (string * string)) : Prop :=
  entries = [] \/ exists zone, cutShort (zoneEntries zone) entries.

(** What a sub-command does to the streams: it ends with [process.exit(0)]
    after one line on the output stream and the step outputs of a zone or
    none, or it fails, and has then written nothing to the streams and at
    most a part of the step outputs. *)
Definition reports (m : M unit) : Prop :=
  forall p,
    ((m p).2 = Exit 0
     /\ (exists line, stdout (m p).1 = stdout p ++ [line])
     /\ stderr (m p).1 = stderr p
     /\ exists entries, zoneWritten entries /\ outputs (m p).1 = outputs p ++ entries)
    \/ (failed (m p).2
        /\ stdout (m p).1 = stdout p
        /\ stderr (m p).1 = stderr p
        /\ exists entries, zoneCutShort entries /\ outputs (m p).1 = outputs p ++ entries).

(** One of the three sub-commands. *)
Definition knownCommand (cmd : jsval) : Prop :=
  cmd = JStr "resolve-zone" \/ cmd = JStr "ensure-dns-a" \/ cmd = JStr "ensure-worker-routes".

End WithPlatform.

End Shape.

(** * Properties *)

Section ClientFacts.
Context `{Platform}.

Lemma cf_unfold token method path query body p :
  CfApi.cf token method path query body p =
  let req := CfApi.cfRequest token method path query body in
  let p' := mkProc _ (fetch (world p) req).1 (requests p ++ [req])
              (stdout p) (stderr p) (outputs p) in
  match (fetch (world p) req).2 with
  | None => (p', Throw (TypeError "fetch failed"))
  | Some resp => (p', CfApi.cfResult (URL_href (req_url req) query) resp)
  end.
Proof.
  unfold CfApi.cf. cbv zeta.
  destruct (fetch (world p) (CfApi.cfRequest token method path query body)) as [w' [resp|]];
    reflexivity.
Qed.

(** A call of [cf] sends one request and touches nothing but the service. *)
Lemma cf_trace token method path query body p :
  let p' := (CfApi.cf token method path query body p).1 in
  requests p' = requests p ++ [CfApi.cfRequest token method path query body]
  /\ stdout p' = stdout p /\ stderr p' = stderr p /\ outputs p' = outputs p.
Proof.
  rewrite cf_unfold. cbv zeta.
  destruct (fetch _ _).2; simpl; auto.
Qed.

Lemma cf_result_kind url resp k : ~ Ends.endsBy k (CfApi.cfResult url resp).
Proof.
  unfold CfApi.cfResult.
  destruct (if String.eqb _ _ then _ else _); [|destruct k; exact id].
  destruct (_ || _); destruct k; exact id.
Qed.

Lemma resp_ok_spec resp : resp_ok resp = true <-> 200 <= resp_status resp <= 299.
Proof. unfold resp_ok. rewrite andb_true_iff, !Z.leb_le. tauto. Qed.

Lemma successIsFalse_spec data :
  CfApi.successIsFalse data = true <-> getOpt data "success" = JBool false.
Proof.
  unfold CfApi.successIsFalse.
  destruct (getOpt data "success") as [| |[]| | | |]; split; congruence.
Qed.

(** C6. For every request that the service answers, [cf] fails exactly
    when the status is not 2xx, or the envelope's success flag is false, or
    the body is not empty and is not valid JSON; the error is a
    [CloudflareApiError] that carries the status, the URL, the body text
    and the [errors] of the envelope ([undefined] when there is none);
    otherwise [cf] returns the [result] of the envelope. *)
Theorem cf_error_contract token method path query body p w' resp :
  fetch (world p) (CfApi.cfRequest token method path query body) = (w', Some resp) ->
  let outcome := (CfApi.cf token method path query body p).2 in
  let url := URL_href ("https://api.cloudflare.com/client/v4" +:+ path) query in
  let failing :=
    Contract.non2xx resp \/ Contract.envelopeFailed resp \/ Contract.notJson resp in
  (failing ->
     exists message,
       outcome = Throw (CloudflareApiError message (resp_status resp) url
                          (getOpt (Contract.envelope resp) "errors") (resp_text resp)))
  /\ (~ failing -> outcome = Normal (getOpt (Contract.envelope resp) "result"))
  /\ (failing \/ ~ failing).
Proof.
  intros Hfetch outcome url failing.
  assert (Hout : outcome = CfApi.cfResult url resp).
  { unfold outcome. rewrite cf_unfold. cbv zeta. rewrite Hfetch. reflexivity. }
  clearbody outcome. subst outcome.
  unfold failing, Contract.non2xx, Contract.envelopeFailed, Contract.notJson,
    Contract.envelope, CfApi.cfResult.
  destruct (String.eqb (resp_text resp) EmptyString) eqn:Hempty.
  - apply String.eqb_eq in Hempty.
    assert (Hsf : CfApi.successIsFalse JNull = false) by reflexivity.
    rewrite Hsf, orb_false_r.
    destruct (resp_ok resp) eqn:Hok; simpl.
    + apply resp_ok_spec in Hok.
      assert (Hnf : ~ (~ (200 <= resp_status resp <= 299)
                   \/ (exists data, resp_text resp <> EmptyString
                         /\ JSON_parse (resp_text resp) = Some data
                         /\ getOpt data "success" = JBool false)
                   \/ (resp_text resp <> EmptyString /\ JSON_parse (resp_text resp) = None))).
      { intros [Hn|[(data & Hne & _)|[Hne _]]]; [tauto|congruence|congruence]. }
      split; [|split]; [tauto | reflexivity | right; exact Hnf].
    + assert (Hnok : ~ (200 <= resp_status resp <= 299)).
      { intros Hr. apply resp_ok_spec in Hr. congruence. }
      split; [|split]; [eauto | tauto | left; left; exact Hnok].
  - apply String.eqb_neq in Hempty.
    destruct (JSON_parse (resp_text resp)) as [data|] eqn:Hparse.
    + simpl.
      destruct (negb (resp_ok resp) || CfApi.successIsFalse data) eqn:Hbad.
      * assert (Hf : ~ (200 <= resp_status resp <= 299)
                     \/ (exists data0, resp_text resp <> EmptyString
                           /\ Some data = Some data0 /\ getOpt data0 "success" = JBool false)
                     \/ (resp_text resp <> EmptyString /\ Some data = None)).
        { apply orb_true_iff in Hbad as [Hb|Hb].
          - left. intros Hr. apply resp_ok_spec in Hr. rewrite Hr in Hb. discriminate.
          - right. left. exists data. apply successIsFalse_spec in Hb. auto. }
        split; [|split]; [eauto | tauto | left; exact Hf].
      * apply orb_false_iff in Hbad as [Hb1 Hb2].
        apply negb_false_iff in Hb1. apply resp_ok_spec in Hb1.
        assert (Hnf : ~ (~ (200 <= resp_status resp <= 299)
                     \/ (exists data0, resp_text resp <> EmptyString
                           /\ Some data = Some data0 /\ getOpt data0 "success" = JBool false)
                     \/ (resp_text resp <> EmptyString /\ Some data = None))).
        { intros [Hn|[(d0 & _ & Hd & Hs)|[_ Hn]]]; [tauto| |discriminate].
          injection Hd as <-. apply successIsFalse_spec in Hs. congruence. }
        split; [|split]; [tauto | reflexivity | right; exact Hnf].
    + simpl. split; [|split]; [eauto | | left; right; right; auto].
      intros Hnf. exfalso. apply Hnf. right; right; auto.
Qed.




Lemma plan_activeZones name : Plan.activeZones name = CfApi.zoneQuery name.
Proof. reflexivity. Qed.


End ClientFacts.

(** ** Facts about the string built-ins *)

Section StringFacts.

Lemma length_append s t :
  String.length (s +:+ t) = (String.length s + String.length t)%nat.
Proof. induction s as [|c s IH]; simpl; [reflexivity | now rewrite IH]. Qed.

Lemma length_take n s : (String.length (Js.take n s) <= n)%nat.
Proof.
  revert s. induction n as [|n IH]; intros [|c s]; simpl; try lia.
  specialize (IH s). lia.
Qed.

Lemma length_stripTrailing c s :
  (String.length (Js.stripTrailing c s) <= String.length s)%nat.
Proof.
  induction s as [|a s IH]; simpl; [lia|].
  destruct (Js.stripTrailing c s) as [|b r].
  - destruct (Ascii.eqb a c); simpl; lia.
  - simpl in *. lia.
Qed.

Lemma collapseDashes_cons c s :
  Js.collapseDashes (String c s) =
  if Ascii.eqb c "-" then
    match s with
    | String c' _ => if Ascii.eqb c' "-" then Js.collapseDashes s
                     else String c (Js.collapseDashes s)
    | EmptyString => String c EmptyString
    end
  else String c (Js.collapseDashes s).
Proof. reflexivity. Qed.

Lemma length_collapseDashes s :
  (String.length (Js.collapseDashes s) <= String.length s)%nat.
Proof.
  induction s as [|c s IH]; [simpl; lia|].
  rewrite collapseDashes_cons.
  destruct (Ascii.eqb c "-").
  - destruct s as [|c' s']; [simpl; lia|].
    destruct (Ascii.eqb c' "-"); simpl String.length in *; lia.
  - simpl String.length in *. lia.
Qed.

Lemma includes_cons c s sub :
  Js.includes (String c s) sub = String.prefix sub (String c s) || Js.includes s sub.
Proof. reflexivity. Qed.

Lemma prefix_cons a s1 b s2 :
  String.prefix (String a s1) (String b s2) = Ascii.eqb a b && String.prefix s1 s2.
Proof.
  cbn [String.prefix]. destruct (ascii_dec a b) as [->|Hne].
  - now rewrite Ascii.eqb_refl.
  - apply Ascii.eqb_neq in Hne. now rewrite Hne.
Qed.

Lemma prefix_empty s : String.prefix EmptyString s = true.
Proof. destruct s; reflexivity. Qed.

Lemma prefix_dashes c s :
  String.prefix "--" (String c s) =
  Ascii.eqb c "-" && match s with
                     | String c' _ => Ascii.eqb c' "-"
                     | EmptyString => false
                     end.
Proof.
  rewrite prefix_cons, (Ascii.eqb_sym "-" c).
  destruct s as [|c' s']; [reflexivity|].
  now rewrite prefix_cons, prefix_empty, andb_true_r, (Ascii.eqb_sym "-" c').
Qed.

(** No run of dashes survives the collapse. *)
Lemma collapseDashes_no_run s :
  Js.includes (Js.collapseDashes s) "--" = false.
Proof.
  induction s as [|c s IH]; [reflexivity|].
  rewrite collapseDashes_cons.
  destruct (Ascii.eqb c "-") eqn:Hc.
  - destruct s as [|c' s']; [apply Ascii.eqb_eq in Hc; subst; reflexivity|].
    destruct (Ascii.eqb c' "-") eqn:Hc'; [exact IH|].
    rewrite includes_cons, IH, orb_false_r, prefix_dashes, Hc.
    rewrite collapseDashes_cons, Hc'. rewrite Hc'. reflexivity.
  - rewrite includes_cons, IH, orb_false_r, prefix_dashes, Hc. reflexivity.
Qed.

Lemma includes_char s c :
  Js.includes s (String c EmptyString) = Js.hasChar c s.
Proof.
  induction s as [|a s IH]; [reflexivity|].
  rewrite includes_cons, prefix_cons, prefix_empty, andb_true_r, IH.
  simpl. now rewrite (Ascii.eqb_sym c a).
Qed.

Lemma allChars_hasChar p s c :
  Js.allChars p s = true -> p c = false -> Js.hasChar c s = false.
Proof.
  intros Hall Hc. induction s as [|a s IH]; [reflexivity|].
  simpl in *. apply andb_true_iff in Hall as [Ha Hs].
  rewrite (IH Hs), orb_false_r. apply Ascii.eqb_neq. congruence.
Qed.

Lemma hasChar_includes_false s c t :
  Js.hasChar c s = false -> Js.includes s (String c t) = false.
Proof.
  induction s as [|a s IH]; intros Hc; [reflexivity|].
  simpl in Hc. apply orb_false_iff in Hc as [Ha Hs].
  rewrite includes_cons, prefix_cons, (Ascii.eqb_sym c a), Ha, (IH Hs). reflexivity.
Qed.

Lemma trimStart_id s :
  match s with
  | String c _ => Js.isWhiteSpace c = false
  | EmptyString => True
  end -> Js.trimStart s = s.
Proof. destruct s as [|c s]; simpl; [reflexivity|]. now intros ->. Qed.

Lemma trimEnd_id p s :
  (forall c, p c = true -> Js.isWhiteSpace c = false) ->
  Js.allChars p s = true -> Js.trimEnd s = s.
Proof.
  intros Hp. induction s as [|a s IH]; [reflexivity|].
  simpl. intros Hall. apply andb_true_iff in Hall as [Ha Hs].
  rewrite (IH Hs). destruct s; [|reflexivity]. now rewrite (Hp _ Ha).
Qed.

Lemma trim_id p s :
  (forall c, p c = true -> Js.isWhiteSpace c = false) ->
  Js.allChars p s = true -> Js.trim s = s.
Proof.
  intros Hp Hall. unfold Js.trim. rewrite trimStart_id.
  - now apply (trimEnd_id p).
  - destruct s as [|c s]; [exact I|]. simpl in Hall.
    apply andb_true_iff in Hall as [Ha _]. now apply Hp.
Qed.

Lemma isHostChar_not_space c : Js.isHostChar c = true -> Js.isWhiteSpace c = false.
Proof. destruct c as [[] [] [] [] [] [] [] []]; vm_compute; congruence. Qed.

Lemma isHostChar_lower c : Js.isHostChar c = true -> Js.lowerChar c = c.
Proof. destruct c as [[] [] [] [] [] [] [] []]; vm_compute; congruence. Qed.

Lemma lowerChar_is_dot c : Ascii.eqb (Js.lowerChar c) "." = Ascii.eqb c ".".
Proof. destruct c as [[] [] [] [] [] [] [] []]; vm_compute; congruence. Qed.

Lemma toLowerCase_id s : Js.allChars Js.isHostChar s = true -> Js.toLowerCase s = s.
Proof.
  induction s as [|a s IH]; [reflexivity|].
  simpl. intros Hall. apply andb_true_iff in Hall as [Ha Hs].
  now rewrite (isHostChar_lower _ Ha), (IH Hs).
Qed.

Lemma length_toLowerCase s : String.length (Js.toLowerCase s) = String.length s.
Proof. induction s as [|a s IH]; simpl; congruence. Qed.

Lemma hasChar_dot_toLowerCase s : Js.hasChar "." (Js.toLowerCase s) = Js.hasChar "." s.
Proof.
  induction s as [|a s IH]; [reflexivity|].
  simpl. now rewrite lowerChar_is_dot, IH.
Qed.

Lemma hasChar_stripTrailing c c' s :
  Js.hasChar c s = false -> Js.hasChar c (Js.stripTrailing c' s) = false.
Proof.
  induction s as [|a s IH]; [reflexivity|].
  simpl. intros Hc. apply orb_false_iff in Hc as [Ha Hs].
  specialize (IH Hs).
  destruct (Js.stripTrailing c' s) as [|b r].
  - destruct (Ascii.eqb a c'); simpl; [reflexivity|]. now rewrite Ha.
  - cbn [Js.hasChar]. cbn [Js.hasChar] in IH. now rewrite Ha, IH.
Qed.

Lemma split_nonempty c s : Js.split c s <> [].
Proof.
  destruct s as [|a s]; simpl; [congruence|].
  destruct (Ascii.eqb a c); [congruence|]. destruct (Js.split c s); congruence.
Qed.

Lemma split_toLowerCase s :
  Js.split "." (Js.toLowerCase s) = List.map Js.toLowerCase (Js.split "." s).
Proof.
  induction s as [|a s IH]; [reflexivity|].
  simpl. rewrite lowerChar_is_dot, IH.
  destruct (Ascii.eqb a "."); [reflexivity|].
  destruct (Js.split "." s) as [|h t] eqn:Hs; [now apply split_nonempty in Hs|].
  reflexivity.
Qed.

Lemma split_cons c a s :
  Js.split c (String a s) =
  if Ascii.eqb a c then EmptyString :: Js.split c s
  else match Js.split c s with
       | h :: t => String a h :: t
       | [] => [String a EmptyString]
       end.
Proof. reflexivity. Qed.

Lemma stripTrailing_cons c a s :
  Js.stripTrailing c (String a s) =
  match Js.stripTrailing c s with
  | EmptyString => if Ascii.eqb a c then EmptyString else String a EmptyString
  | r => String a r
  end.
Proof. reflexivity. Qed.

(** Stripping the trailing separators only removes trailing empty pieces. *)
Lemma split_stripTrailing c s :
  exists k, Js.split c s = Js.split c (Js.stripTrailing c s) ++ List.repeat EmptyString k.
Proof.
  induction s as [|a s [k IH]]; [exists O; reflexivity|].
  rewrite stripTrailing_cons.
  destruct (Js.stripTrailing c s) as [|b r] eqn:Hstrip.
  - simpl in IH. destruct (Ascii.eqb a c) eqn:Hac.
    + exists (S k). rewrite split_cons, Hac, IH. reflexivity.
    + exists k. rewrite !split_cons, Hac, IH. reflexivity.
  - remember (String b r) as t0 eqn:Ht0. exists k.
    rewrite !split_cons, IH. destruct (Ascii.eqb a c); [reflexivity|].
    destruct (Js.split c t0) as [|h t] eqn:Hs; [now apply split_nonempty in Hs|].
    reflexivity.
Qed.

Lemma split_stripTrailing_In c s l :
  In l (Js.split c s) -> l <> EmptyString -> In l (Js.split c (Js.stripTrailing c s)).
Proof.
  intros Hin Hne. destruct (split_stripTrailing c s) as [k Hk].
  rewrite Hk in Hin. apply in_app_or in Hin as [Hin|Hin]; [exact Hin|].
  apply repeat_spec in Hin. congruence.
Qed.

Lemma split_inj c s t : Js.split c s = Js.split c t -> s = t.
Proof.
  revert t. induction s as [|a s IH]; intros t Hk.
  - destruct t as [|b t]; [reflexivity|].
    rewrite split_cons in Hk. simpl in Hk.
    destruct (Ascii.eqb b c).
    + injection Hk as Hk. symmetry in Hk. now apply split_nonempty in Hk.
    + destruct (Js.split c t); discriminate.
  - destruct t as [|b t].
    + rewrite split_cons in Hk. simpl in Hk. destruct (Ascii.eqb a c).
      * injection Hk as Hk. now apply split_nonempty in Hk.
      * destruct (Js.split c s); discriminate.
    + rewrite !split_cons in Hk.
      destruct (Ascii.eqb a c) eqn:Hac, (Ascii.eqb b c) eqn:Hbc.
      * injection Hk as Hk. apply Ascii.eqb_eq in Hac, Hbc. subst.
        f_equal. now apply IH.
      * destruct (Js.split c t); discriminate.
      * destruct (Js.split c s); discriminate.
      * destruct (Js.split c s) as [|h1 t1] eqn:Hs1;
          [now apply split_nonempty in Hs1|].
        destruct (Js.split c t) as [|h2 t2] eqn:Hs2;
          [now apply split_nonempty in Hs2|].
        injection Hk as Ha Hh Ht. subst. f_equal. apply IH.
        now rewrite Hs2.
Qed.

(** A string whose last piece is not empty does not end with the separator. *)
Lemma stripTrailing_id c s :
  List.last (Js.split c s) EmptyString <> EmptyString -> Js.stripTrailing c s = s.
Proof.
  intros Hlast. destruct (split_stripTrailing c s) as [k Hk].
  destruct k as [|k].
  - rewrite app_nil_r in Hk. symmetry. now apply (split_inj c).
  - exfalso. apply Hlast. rewrite Hk.
    replace (List.repeat EmptyString (S k))
      with (List.repeat EmptyString k ++ [EmptyString]).
    + rewrite app_assoc. apply last_last.
    + clear. induction k; simpl; [reflexivity|]. f_equal. exact IHk.
Qed.

End StringFacts.

(** ** Name derivation *)

Section NameFacts.

(** C5, as the code has it. [buildName] truncates the slug to the budget
    left by [prefix], [--] and [hash], but to no less than one character,
    strips the dashes that end the truncated slug, composes
    [prefix-slug-hash] and collapses every run of dashes; it is a function
    of its arguments. The name is no longer than [maxLen] whenever the
    budget is at least one character. *)
Theorem buildName_bounded prefix slug hash maxLen :
  let budget := maxLen - Z.of_nat (String.length prefix + 2 + String.length hash) in
  1 <= budget ->
  ResolveConfig.buildName prefix slug hash maxLen =
    Js.collapseDashes
      (prefix +:+ "-"
       +:+ Js.stripTrailing "-" (Js.take (Z.to_nat budget) slug)
       +:+ "-" +:+ hash)
  /\ Js.includes (ResolveConfig.buildName prefix slug hash maxLen) "--" = false
  /\ Z.of_nat (String.length (ResolveConfig.buildName prefix slug hash maxLen)) <= maxLen.
Proof.
  intros budget Hb.
  assert (Hfixed : maxLen - Z.of_nat (String.length (prefix +:+ "--" +:+ hash)) = budget).
  { unfold budget. rewrite !length_append. simpl String.length. f_equal. lia. }
  assert (Heq : ResolveConfig.buildName prefix slug hash maxLen =
    Js.collapseDashes
      (prefix +:+ "-"
       +:+ Js.stripTrailing "-" (Js.take (Z.to_nat budget) slug)
       +:+ "-" +:+ hash)).
  { unfold ResolveConfig.buildName. cbv zeta. rewrite Hfixed.
    rewrite Z.max_r by lia. reflexivity. }
  split; [exact Heq|]. split.
  - rewrite Heq. apply collapseDashes_no_run.
  - rewrite Heq.
    pose proof (length_collapseDashes
      (prefix +:+ "-" +:+ Js.stripTrailing "-" (Js.take (Z.to_nat budget) slug)
       +:+ "-" +:+ hash)) as Hc.
    rewrite !length_append in Hc. simpl String.length in Hc.
    pose proof (length_stripTrailing "-" (Js.take (Z.to_nat budget) slug)) as Hs.
    pose proof (length_take (Z.to_nat budget) slug) as Ht.
    unfold budget in *. lia.
Qed.

End NameFacts.

(** ** Domain normalisation *)

Section DomainFacts.
Context `{Platform}.

Lemma checkLabel_ok label :
  ResolveConfig.checkLabel label = Normal tt <-> ResolveConfig.goodLabel label.
Proof.
  unfold ResolveConfig.checkLabel, ResolveConfig.goodLabel, Js.matchesClassPlus.
  destruct (String.eqb label EmptyString) eqn:He.
  { apply String.eqb_eq in He. split; [discriminate | tauto]. }
  apply String.eqb_neq in He.
  destruct (63 <? String.length label)%nat eqn:Hl.
  { apply Nat.ltb_lt in Hl. split; [discriminate | lia]. }
  apply Nat.ltb_ge in Hl.
  destruct label as [|c label]; [congruence|].
  destruct (Js.allChars Js.isLabelChar (String c label)) eqn:Ha; cbn [negb].
  2:{ split; [discriminate | intros (_ & _ & Hx & _); discriminate]. }
  destruct (Js.startsWith (String c label) "-") eqn:Hs; cbn [orb].
  { split; [discriminate | intros (_ & _ & _ & Hx & _); discriminate]. }
  destruct (Js.endsWith (String c label) "-") eqn:Hend.
  { split; [discriminate | intros (_ & _ & _ & _ & Hx); discriminate]. }
  split; auto.
Qed.

Lemma checkLabel_result label :
  ResolveConfig.checkLabel label = Normal tt
  \/ exists m, ResolveConfig.checkLabel label = Throw (Error m).
Proof.
  unfold ResolveConfig.checkLabel.
  repeat match goal with
         | |- context [if ?b then _ else _] => destruct b
         end; eauto.
Qed.

Lemma checkLabels_ok labels :
  ResolveConfig.checkLabels labels = Normal tt <-> Forall ResolveConfig.goodLabel labels.
Proof.
  induction labels as [|l ls IH]; simpl.
  - split; auto.
  - destruct (checkLabel_result l) as [Hl|[m Hl]]; rewrite Hl; simpl.
    + rewrite IH. apply checkLabel_ok in Hl. split.
      * intros Hls. now constructor.
      * intros Hf. now inversion Hf.
    + split; [discriminate|]. intros Hf. inversion Hf as [|? ? Hg _]; subst.
      apply checkLabel_ok in Hg. congruence.
Qed.

Lemma checkLabels_result labels :
  ResolveConfig.checkLabels labels = Normal tt
  \/ exists m, ResolveConfig.checkLabels labels = Throw (Error m).
Proof.
  induction labels as [|l ls IH]; simpl; [auto|].
  destruct (checkLabel_result l) as [Hl|[m Hl]]; rewrite Hl; simpl; eauto.
Qed.

Lemma hasChar_nonempty c s : Js.hasChar c s = true -> s <> EmptyString.
Proof. destruct s; simpl; congruence. Qed.

(** Whatever the resolver's [normalizeDomain] returns is a
    [NormalizedDomain]. *)
Lemma resolver_normalize_sound fuel raw d :
  ResolveConfig.normalizeDomain fuel raw = Normal d -> ResolveConfig.NormalizedDomain d.
Proof.
  revert raw. induction fuel as [|fuel IH]; intros raw; [discriminate|].
  cbn [ResolveConfig.normalizeDomain]. cbv zeta.
  destruct (negb (toBoolean raw)); [discriminate|].
  destruct (String.eqb (Js.trim (toString raw)) EmptyString); [discriminate|].
  destruct (Js.includes (Js.trim (toString raw)) "://").
  { destruct (URL_parse _) as [url|]; [|discriminate].
    destruct (_ && _); [discriminate|].
    destruct (_ || _); [discriminate|]. apply IH. }
  destruct (_ || _); [discriminate|].
  destruct (Js.includes _ ":"); [discriminate|].
  set (domain := Js.toLowerCase _).
  destruct (String.eqb domain EmptyString) eqn:He; [discriminate|].
  destruct (Js.matchesClassPlus Js.isHostChar domain) eqn:Hc; [|discriminate].
  destruct (Js.includes domain ".") eqn:Hdot; [|discriminate].
  destruct (253 <? String.length domain)%nat eqn:Hlen; [discriminate|].
  cbn [negb].
  destruct (checkLabels_result (Js.split "." domain)) as [Hl|[m Hl]];
    rewrite Hl; [|discriminate].
  simpl. intros [= <-].
  unfold ResolveConfig.NormalizedDomain. repeat split.
  - unfold Js.matchesClassPlus in Hc. destruct domain; [discriminate|exact Hc].
  - now rewrite <- includes_char.
  - now apply Nat.ltb_ge in Hlen.
  - now apply checkLabels_ok.
Qed.

Lemma last_Forall {A : Type} (P : A -> Prop) (l : list A) (d : A) :
  l <> [] -> Forall P l -> P (List.last l d).
Proof.
  induction l as [|x l IH]; [congruence|].
  intros _ Hf. inversion Hf as [|? ? Hx Hl]; subst.
  destruct l as [|y l]; [exact Hx|]. apply IH; [congruence|exact Hl].
Qed.

(** The resolver's [normalizeDomain] returns a [NormalizedDomain] as it is. *)
Lemma resolver_normalize_fixpoint fuel d :
  ResolveConfig.NormalizedDomain d ->
  ResolveConfig.normalizeDomain (S fuel) (JStr d) = Normal d.
Proof.
  intros (Hchars & Hdot & Hlen & Hlabels).
  pose proof (hasChar_nonempty _ _ Hdot) as Hne.
  cbn [ResolveConfig.normalizeDomain toString toBoolean]. cbv zeta.
  rewrite (trim_id Js.isHostChar d isHostChar_not_space Hchars).
  assert (He : String.eqb d EmptyString = false) by now apply String.eqb_neq.
  rewrite He. cbn [negb].
  rewrite (hasChar_includes_false d ":" "//")
    by (apply (allChars_hasChar Js.isHostChar); [exact Hchars|reflexivity]).
  rewrite !includes_char.
  rewrite (allChars_hasChar Js.isHostChar d "/" Hchars eq_refl).
  rewrite (allChars_hasChar Js.isHostChar d "?" Hchars eq_refl).
  rewrite (allChars_hasChar Js.isHostChar d "#" Hchars eq_refl).
  rewrite (allChars_hasChar Js.isHostChar d ":" Hchars eq_refl).
  cbn [orb].
  rewrite (stripTrailing_id "." d).
  2:{ pose proof (last_Forall _ _ EmptyString (split_nonempty "." d) Hlabels) as Hl.
      apply Hl. }
  rewrite (toLowerCase_id d Hchars), He.
  assert (Hm : Js.matchesClassPlus Js.isHostChar d = true).
  { unfold Js.matchesClassPlus. destruct d; [congruence|exact Hchars]. }
  rewrite Hm, Hdot. cbn [negb].
  apply Nat.ltb_ge in Hlen. rewrite Hlen.
  apply checkLabels_ok in Hlabels. rewrite Hlabels. reflexivity.
Qed.

(** The resolver's normalisation is idempotent. *)
Lemma resolver_normalize_idempotent fuel fuel' raw d :
  ResolveConfig.normalizeDomain fuel raw = Normal d ->
  ResolveConfig.normalizeDomain (S fuel') (JStr d) = Normal d.
Proof.
  intros Hd. apply resolver_normalize_fixpoint.
  now apply (resolver_normalize_sound fuel raw).
Qed.

Lemma trim_nonempty s : Js.trim s <> EmptyString -> s <> EmptyString.
Proof. intros Ht ->. now apply Ht. Qed.

(** [normalizeDomain] of cf-api.mjs on an input that is not a URL. *)
Lemma cfapi_normalize_bare fuel s :
  Js.includes (Js.trim s) "://" = false -> Js.trim s <> EmptyString ->
  CfApi.normalizeDomain (S fuel) (JStr s) =
  let input := Js.trim s in
  if Js.hasChar "/" input || Js.hasChar "?" input || Js.hasChar "#" input
  then Throw (Error "DOMAIN must not include path/query/hash") else
  if Js.hasChar ":" input then Throw (Error "DOMAIN must not include a port") else
  let domain := Js.toLowerCase (Js.stripTrailing "." input) in
  if negb (Js.hasChar "." domain)
  then Throw (Error "DOMAIN must contain at least one dot, e.g. notes.example.com")
  else Normal domain.
Proof.
  intros Hurl Hne. pose proof (trim_nonempty s Hne) as Hs.
  cbn [CfApi.normalizeDomain toString toBoolean]. cbv zeta.
  apply String.eqb_neq in Hs, Hne. rewrite Hs, Hne, Hurl. cbn [negb].
  now rewrite !includes_char.
Qed.

(** The resolver's [normalizeDomain] on an input that is not a URL. *)
Lemma resolver_normalize_bare fuel s :
  Js.includes (Js.trim s) "://" = false -> Js.trim s <> EmptyString ->
  ResolveConfig.normalizeDomain (S fuel) (JStr s) =
  let input := Js.trim s in
  if Js.hasChar "/" input || Js.hasChar "?" input || Js.hasChar "#" input
  then Throw (Error "DOMAIN must not include path/query/hash") else
  if Js.hasChar ":" input then Throw (Error "DOMAIN must not include a port") else
  let domain := Js.toLowerCase (Js.stripTrailing "." input) in
  if String.eqb domain EmptyString then Throw (Error "DOMAIN is required") else
  if negb (Js.matchesClassPlus Js.isHostChar domain)
  then Throw (Error "DOMAIN must be an ASCII hostname (use punycode for IDN)") else
  if negb (Js.hasChar "." domain)
  then Throw (Error "DOMAIN must contain at least one dot, e.g. notes.example.com") else
  if (253 <? String.length domain)%nat then Throw (Error "DOMAIN is too long") else
  bindC (ResolveConfig.checkLabels (Js.split "." domain)) (fun _ => Normal domain).
Proof.
  intros Hurl Hne. pose proof (trim_nonempty s Hne) as Hs.
  cbn [ResolveConfig.normalizeDomain toString toBoolean]. cbv zeta.
  apply String.eqb_neq in Hs, Hne. rewrite Hs, Hne, Hurl. cbn [negb].
  now rewrite !includes_char.
Qed.

Lemma normalize_empty_input fuel s :
  Js.trim s = EmptyString ->
  CfApi.normalizeDomain (S fuel) (JStr s) = Throw (Error "DOMAIN is required")
  /\ ResolveConfig.normalizeDomain (S fuel) (JStr s) = Throw (Error "DOMAIN is required").
Proof.
  intros Ht. cbn [CfApi.normalizeDomain ResolveConfig.normalizeDomain toString toBoolean].
  cbv zeta. rewrite Ht. destruct (String.eqb s EmptyString); split; reflexivity.
Qed.

(** On an input that is not a URL the resolver returns or throws an [Error]. *)
Lemma resolver_normalize_bare_result fuel s :
  Js.includes (Js.trim s) "://" = false ->
  ResolveConfig.normalizeDomain (S fuel) (JStr s)
    = Normal (Js.toLowerCase (Js.stripTrailing "." (Js.trim s)))
  \/ InvalidDomain (ResolveConfig.normalizeDomain (S fuel) (JStr s)).
Proof.
  intros Hurl. destruct (string_dec (Js.trim s) EmptyString) as [He|Hne].
  { right. destruct (normalize_empty_input fuel s He) as [_ ->]. eexists; reflexivity. }
  rewrite (resolver_normalize_bare fuel s Hurl Hne). cbv zeta.
  repeat match goal with
         | |- context [if ?b then _ else _] =>
             destruct b; [try (right; eexists; reflexivity)|]
         end; try (right; eexists; reflexivity).
  destruct (checkLabels_result
              (Js.split "." (Js.toLowerCase (Js.stripTrailing "." (Js.trim s)))))
    as [Hl|[m Hl]]; rewrite Hl; simpl; [left; reflexivity | right; eexists; reflexivity].
Qed.

(** cf-api.mjs returns only names that contain a dot. *)
Lemma cfapi_normalize_has_dot fuel raw d :
  CfApi.normalizeDomain fuel raw = Normal d -> Js.hasChar "." d = true.
Proof.
  revert raw. induction fuel as [|fuel IH]; intros raw; [discriminate|].
  cbn [CfApi.normalizeDomain]. cbv zeta.
  destruct (negb (toBoolean raw)); [discriminate|].
  destruct (String.eqb (Js.trim (toString raw)) EmptyString); [discriminate|].
  destruct (Js.includes (Js.trim (toString raw)) "://").
  { destruct (URL_parse _) as [url|]; [|discriminate].
    destruct (_ && _); [discriminate|].
    destruct (_ || _); [discriminate|]. apply IH. }
  destruct (_ || _); [discriminate|].
  destruct (Js.includes _ ":"); [discriminate|].
  destruct (Js.includes _ ".") eqn:Hdot; [|discriminate].
  cbn [negb]. intros [= <-]. now rewrite <- includes_char.
Qed.

(** C3, as the code has it. Both copies of [normalizeDomain] throw an
    [Error], without a request being sent, for every input outside the URL
    form that contains a colon (a port), a slash (a path) or no dot (a
    single label), and for every URL input whose scheme is not http(s) or
    whose path is not [/]; the resolver's copy also for every input outside
    the URL form with a label of more than 63 characters, and it returns no
    name with such a label. Neither copy returns a name without a dot. *)
Theorem normalizeDomain_rejections fuel s :
  let input := Js.trim s in
  let cfapi := CfApi.normalizeDomain (S fuel) (JStr s) in
  let resolver := ResolveConfig.normalizeDomain (S fuel) (JStr s) in
  (Js.includes input "://" = false ->
     (Js.hasChar ":" input = true -> InvalidDomain cfapi /\ InvalidDomain resolver)
     /\ (Js.hasChar "/" input = true ->
           cfapi = Throw (Error "DOMAIN must not include path/query/hash")
           /\ resolver = Throw (Error "DOMAIN must not include path/query/hash"))
     /\ (Js.hasChar "." input = false -> InvalidDomain cfapi /\ InvalidDomain resolver)
     /\ (forall label, In label (Js.split "." input) ->
           (63 < String.length label)%nat -> InvalidDomain resolver))
  /\ (Js.includes input "://" = true ->
      forall url, URL_parse input = Some url ->
        (protocol url <> "http:" -> protocol url <> "https:" ->
           cfapi = Throw (Error "DOMAIN must be a hostname or a http(s) URL")
           /\ resolver = Throw (Error "DOMAIN must be a hostname or a http(s) URL"))
        /\ (pathname url <> "/" -> InvalidDomain cfapi /\ InvalidDomain resolver))
  /\ (forall raw d, ResolveConfig.normalizeDomain fuel raw = Normal d ->
        Js.hasChar "." d = true
        /\ Forall (fun label => (String.length label <= 63)%nat) (Js.split "." d))
  /\ (forall raw d, CfApi.normalizeDomain fuel raw = Normal d -> Js.hasChar "." d = true)
  /\ (forall token raw e p,
        CfApi.normalizeDomain fuel raw = Throw e ->
        CfApi.resolveZone fuel token raw p = (p, Throw e)).
Proof.
  intros input cfapi resolver.
  split; [|split; [|split; [|split]]].
  - intros Hurl.
    assert (Hbare : input <> EmptyString ->
              cfapi = _ /\ resolver = _)
      by (intros Hne; split;
          [apply (cfapi_normalize_bare fuel s Hurl Hne)
          |apply (resolver_normalize_bare fuel s Hurl Hne)]).
    cbv zeta in Hbare. fold input in Hbare.
    split; [|split; [|split]].
    + intros Hc. destruct (Hbare (hasChar_nonempty _ _ Hc)) as [-> ->].
      rewrite Hc. destruct (_ || _); split; eexists; reflexivity.
    + intros Hc. destruct (Hbare (hasChar_nonempty _ _ Hc)) as [-> ->].
      rewrite Hc. split; reflexivity.
    + intros Hc. destruct (string_dec input EmptyString) as [He|Hne].
      { destruct (normalize_empty_input fuel s He) as [H1 H2].
        unfold cfapi, resolver. rewrite H1, H2. split; eexists; reflexivity. }
      destruct (Hbare Hne) as [-> ->].
      assert (Hd : Js.hasChar "." (Js.toLowerCase (Js.stripTrailing "." input)) = false).
      { rewrite hasChar_dot_toLowerCase. now apply hasChar_stripTrailing. }
      rewrite Hd. cbn [negb].
      split.
      * repeat match goal with
               | |- context [if ?b then _ else _] => destruct b
               end; eexists; reflexivity.
      * repeat match goal with
               | |- context [if ?b then _ else _] => destruct b
               end; eexists; reflexivity.
    + intros label Hin Hlen.
      destruct (resolver_normalize_bare_result fuel s Hurl) as [Hok|Hbad]; [|exact Hbad].
      exfalso. apply resolver_normalize_sound in Hok.
      destruct Hok as (_ & _ & _ & Hlabels).
      rewrite split_toLowerCase in Hlabels.
      rewrite Forall_forall in Hlabels.
      assert (Hne : label <> EmptyString) by (intros ->; simpl in Hlen; lia).
      pose proof (split_stripTrailing_In "." (Js.trim s) label Hin Hne) as Hin'.
      apply (in_map Js.toLowerCase) in Hin'.
      apply list_elem_of_In in Hin'.
      destruct (Hlabels _ Hin') as (_ & Hl & _).
      rewrite length_toLowerCase in Hl. lia.
  - intros Hurl url Hparse. split.
    + intros Hp1 Hp2. apply String.eqb_neq in Hp1, Hp2.
      assert (Hne : String.eqb input EmptyString = false).
      { apply String.eqb_neq. intros He. rewrite He in Hurl. discriminate. }
      assert (Hs : String.eqb s EmptyString = false).
      { apply String.eqb_neq. intros ->. unfold input in Hne. discriminate. }
      unfold cfapi, resolver.
      cbn [CfApi.normalizeDomain ResolveConfig.normalizeDomain toString toBoolean].
      cbv zeta. fold input. rewrite Hs, Hne, Hurl, Hparse, Hp1, Hp2.
      split; reflexivity.
    + intros Hpath. apply String.eqb_neq in Hpath.
      assert (Hne : String.eqb input EmptyString = false).
      { apply String.eqb_neq. intros He. rewrite He in Hurl. discriminate. }
      assert (Hs : String.eqb s EmptyString = false).
      { apply String.eqb_neq. intros ->. unfold input in Hne. discriminate. }
      unfold cfapi, resolver.
      cbn [CfApi.normalizeDomain ResolveConfig.normalizeDomain toString toBoolean].
      cbv zeta. fold input. rewrite Hs, Hne, Hurl, Hparse, Hpath.
      cbn [negb orb]. destruct (_ && _); split; eexists; reflexivity.
  - intros raw d Hd. apply resolver_normalize_sound in Hd.
    destruct Hd as (_ & Hdot & _ & Hlabels). split; [exact Hdot|].
    eapply Forall_impl; [exact Hlabels|]. intros l (_ & Hl & _). exact Hl.
  - intros raw d. apply cfapi_normalize_has_dot.
  - intros token raw e p He. unfold CfApi.resolveZone, bind, lift. now rewrite He.
Qed.

(** C8 on cf-api.mjs: the name returned for [a.b .] ends with a space, and
    normalising that name returns another one. The copy of the function in
    cf-api.mjs has none of the character checks of the resolver's copy. *)
Theorem cfapi_normalize_not_idempotent fuel :
  CfApi.normalizeDomain (S fuel) (JStr "a.b .") = Normal "a.b "
  /\ CfApi.normalizeDomain (S fuel) (JStr "a.b ") = Normal "a.b"
  /\ ResolveConfig.normalizeDomain (S fuel) (JStr "a.b .")
     = Throw (Error "DOMAIN must be an ASCII hostname (use punycode for IDN)").
Proof. repeat split; reflexivity. Qed.

End DomainFacts.

(** ** DNS record convergence *)

Section DnsFacts.
Context `{Platform}.




End DnsFacts.

(** ** Route convergence *)

Section RouteFacts.
Context `{Platform}.









End RouteFacts.

(** ** Zone resolution *)

Section ZoneFacts.
Context `{Platform}.

Lemma suffixNames_cons a b rest :
  Plan.suffixNames (a :: b :: rest)
  = Js.join "." (a :: b :: rest) :: Plan.suffixNames (b :: rest).
Proof. reflexivity. Qed.

Lemma candidates_suffixes labels : CfApi.candidates labels = Plan.suffixNames labels.
Proof.
  unfold CfApi.candidates.
  induction labels as [|a rest IH]; [reflexivity|].
  destruct rest as [|b rest]; [reflexivity|].
  rewrite suffixNames_cons, <- IH.
  replace (List.length (a :: b :: rest) - 1)%nat
    with (S (List.length (b :: rest) - 1))%nat by (simpl; lia).
  cbn [List.seq List.map]. f_equal.
  rewrite <- List.seq_shift, List.map_map. reflexivity.
Qed.

Lemma split_has_two c s : Js.hasChar c s = true -> (2 <= List.length (Js.split c s))%nat.
Proof.
  induction s as [|a s IH]; [discriminate|].
  rewrite split_cons. simpl. destruct (Ascii.eqb a c) eqn:Hac.
  - intros _. pose proof (split_nonempty c s).
    destruct (Js.split c s); [congruence|]. simpl. lia.
  - simpl. intros Hc. specialize (IH Hc).
    destruct (Js.split c s); simpl in *; lia.
Qed.

Lemma noZoneNamed_miss name result :
  Plan.noZoneNamed name result -> toBoolean (CfApi.findZone name result) = false.
Proof.
  unfold Plan.noZoneNamed, CfApi.findZone, jsFind. intros Hno.
  destruct result; try reflexivity.
  destruct (List.find _ elems) as [z|] eqn:Hfind; [|reflexivity].
  apply find_some in Hfind as [Hin Hz].
  exfalso. apply (Hno elems eq_refl z Hin).
  unfold strictEqStr in Hz. destruct (getOpt z "name"); try discriminate.
  apply String.eqb_eq in Hz. now subst.
Qed.

Lemma findZone_hit name before zone after :
  (forall z, In z before -> getOpt z "name" <> JStr name) ->
  getOpt zone "name" = JStr name ->
  CfApi.findZone name (JArr (before ++ zone :: after)) = zone
  /\ toBoolean zone = true.
Proof.
  intros Hbefore Hzone. split.
  - unfold CfApi.findZone, jsFind.
    induction before as [|z before IH]; cbn [app List.find].
    + unfold strictEqStr at 1. rewrite Hzone, String.eqb_refl. reflexivity.
    + destruct (strictEqStr (getOpt z "name") name) eqn:Hz.
      * exfalso. apply (Hbefore z); [now left|].
        unfold strictEqStr in Hz. destruct (getOpt z "name"); try discriminate.
        apply String.eqb_eq in Hz. now subst.
      * apply IH. intros z' Hin. apply Hbefore. now right.
  - destruct zone; try discriminate. reflexivity.
Qed.

(** Candidates without a zone are queried in turn and passed over. *)
Lemma resolveZone_loop_misses token normalized names rest p p' :
  Plan.zoneMisses token names p p' ->
  CfApi.resolveZone_loop token normalized (names ++ rest) p
    = CfApi.resolveZone_loop token normalized rest p'
  /\ requests p' = requests p ++ List.map (Plan.zoneRequest token) names.
Proof.
  revert p. induction names as [|name names IH]; intros p Hmiss.
  - simpl in Hmiss. subst. simpl. now rewrite app_nil_r.
  - cbn [Plan.zoneMisses] in Hmiss.
    destruct Hmiss as (p1 & result & Hcf & Hno & Hrest).
    destruct (IH p1 Hrest) as (Hloop & Hreq).
    change (Plan.activeZones name) with (CfApi.zoneQuery name) in Hcf.
    cbn [app CfApi.resolveZone_loop List.map]. cbv zeta. unfold bind at 1.
    rewrite Hcf, (noZoneNamed_miss _ _ Hno). cbn [negb]. split; [exact Hloop|].
    pose proof (cf_trace token "GET" "/zones" (CfApi.zoneQuery name) None p) as Ht.
    cbv zeta in Ht. rewrite Hcf in Ht. destruct Ht as (Ht & _). cbn [fst] in Ht.
    rewrite Hreq, Ht, <- app_assoc. reflexivity.
Qed.

(** C4. For a domain that normalises to [normalized], which has two labels
    or more, [resolveZone] queries the zones by name and status [active]
    (a GET of [/zones] with the parameters [name], [status=active],
    [per_page=50], [page=1]) for the suffixes of at least two labels, the
    longest first; it returns the identifiers of the first zone of exactly
    the name queried in the first answer that has one, having sent the
    queries up to that one and no other; when no answer has such a zone it
    throws the [ZoneNotFound] error, which names the normalised domain. *)
Theorem resolveZone_first_match fuel token domain normalized p :
  CfApi.normalizeDomain fuel domain = Normal normalized ->
  let labels := Js.split "." normalized in
  let names := Plan.suffixNames labels in
  let query name :=
    Plan.call token "GET" "/zones"
      [("name", name); ("status", "active"); ("per_page", "50"); ("page", "1")] None in
  (2 <= List.length labels)%nat
  /\ (forall before name after p1 p2 zones1 zone zones2,
        names = before ++ name :: after ->
        Plan.zoneMisses token before p p1 ->
        CfApi.cf token "GET" "/zones"
          [("name", name); ("status", "active"); ("per_page", "50"); ("page", "1")] None p1
          = (p2, Normal (JArr (zones1 ++ zone :: zones2))) ->
        (forall z, In z zones1 -> getOpt z "name" <> JStr name) ->
        getOpt zone "name" = JStr name ->
        CfApi.resolveZone fuel token domain p
          = (p2, Normal {| CfApi.zone_id := getOpt zone "id";
                           CfApi.zone_name := JStr name;
                           CfApi.account_id := getOpt (getOpt zone "account") "id" |})
        /\ requests p2 = requests p ++ List.map query (before ++ [name]))
  /\ (forall p1,
        Plan.zoneMisses token names p p1 ->
        CfApi.resolveZone fuel token domain p
          = (p1, Throw (Error ("No active Cloudflare zone found for DOMAIN=" +:+ normalized
                               +:+ ". Is it added to Cloudflare and does the token have Zone:Read?")))
        /\ requests p1 = requests p ++ List.map query names).
Proof.
  intros Hnorm labels names query.
  change query with (Plan.zoneRequest token). clear query.
  pose proof (split_has_two "." normalized (cfapi_normalize_has_dot _ _ _ Hnorm)) as Hlen.
  assert (Hrun : CfApi.resolveZone fuel token domain p
                 = CfApi.resolveZone_loop token normalized names p).
  { unfold CfApi.resolveZone, bind, lift. rewrite Hnorm.
    fold labels. apply Nat.ltb_ge in Hlen. fold labels in Hlen. rewrite Hlen.
    now rewrite candidates_suffixes. }
  split; [exact Hlen|]. split.
  - intros before name after p1 p2 zones1 zone zones2 Hnames Hmiss Hcf Hfirst Hzone.
    change [("name", name); ("status", "active"); ("per_page", "50"); ("page", "1")]
      with (CfApi.zoneQuery name) in Hcf.
    destruct (resolveZone_loop_misses token normalized before (name :: after) p p1 Hmiss)
      as (Hloop & Hreq).
    destruct (findZone_hit name zones1 zone zones2 Hfirst Hzone) as (Hfind & Htrue).
    split.
    + rewrite Hrun, Hnames, Hloop.
      cbn [CfApi.resolveZone_loop]. cbv zeta. unfold bind at 1.
      rewrite Hcf, Hfind, Htrue. cbn [negb]. unfold ret. now rewrite Hzone.
    + pose proof (cf_trace token "GET" "/zones" (CfApi.zoneQuery name) None p1) as Ht.
      cbv zeta in Ht. rewrite Hcf in Ht. destruct Ht as (Ht & _). cbn [fst] in Ht.
      rewrite Ht, Hreq, List.map_app, <- app_assoc. reflexivity.
  - intros p1 Hmiss.
    destruct (resolveZone_loop_misses token normalized names [] p p1 Hmiss)
      as (Hloop & Hreq).
    rewrite app_nil_r in Hloop. split; [|exact Hreq].
    rewrite Hrun, Hloop. reflexivity.
Qed.

End ZoneFacts.

(** ** Command-line arguments *)

Section ArgumentFacts.
Context `{Platform}.

Lemma bindC_assoc {A B C : Type} (c : completion A) (f : A -> completion B)
    (g : B -> completion C) :
  bindC (bindC c f) g = bindC c (fun a => bindC (f a) g).
Proof. destruct c; reflexivity. Qed.

Lemma parseArgs_loop_cons a rest out :
  CfApi.parseArgs_loop (a :: rest) out =
  if negb (Js.startsWith a "--") then
    bindC (CfApi.pushPositional out a) (CfApi.parseArgs_loop rest)
  else
    match rest with
    | next :: rest' =>
        if negb (Js.startsWith next "--")
        then CfApi.parseArgs_loop rest' (<[Js.drop 2 a := JStr next]> out)
        else CfApi.parseArgs_loop rest (<[Js.drop 2 a := JBool true]> out)
    | [] => CfApi.parseArgs_loop rest (<[Js.drop 2 a := JBool true]> out)
    end.
Proof. reflexivity. Qed.

(** A token that starts with two dashes is never taken as a value, so the
    parse of a list splits before it. *)
Lemma parseArgs_loop_app n : forall pre flag rest out,
  (List.length pre <= n)%nat ->
  Js.startsWith flag "--" = true ->
  CfApi.parseArgs_loop (pre ++ flag :: rest) out
  = bindC (CfApi.parseArgs_loop pre out) (CfApi.parseArgs_loop (flag :: rest)).
Proof.
  induction n as [|n IH]; intros pre flag rest out Hlen Hflag.
  - destruct pre; [reflexivity | simpl in Hlen; lia].
  - destruct pre as [|a pre]; [reflexivity|].
    simpl in Hlen.
    remember (flag :: rest) as tail eqn:Htail.
    change ((a :: pre) ++ tail) with (a :: (pre ++ tail)).
    rewrite (parseArgs_loop_cons a (pre ++ tail)), (parseArgs_loop_cons a pre).
    destruct (negb (Js.startsWith a "--")).
    + rewrite bindC_assoc. destruct (CfApi.pushPositional out a); try reflexivity.
      cbn [bindC]. subst tail. apply IH; [lia|exact Hflag].
    + destruct pre as [|next pre].
      * cbn [app]. subst tail. rewrite Hflag. reflexivity.
      * change ((next :: pre) ++ tail) with (next :: (pre ++ tail)). cbv beta iota.
        destruct (negb (Js.startsWith next "--")).
        -- subst tail. apply IH; [simpl in Hlen; lia|exact Hflag].
        -- subst tail. apply (IH (next :: pre)); [simpl in *; lia|exact Hflag].
Qed.

Lemma startsWith_dashes a :
  Js.startsWith a "--" = true -> a = "--" +:+ Js.drop 2 a.
Proof.
  unfold Js.startsWith. destruct a as [|c1 [|c2 a]]; try discriminate.
  - rewrite prefix_cons. rewrite andb_false_r. discriminate.
  - rewrite !prefix_cons, prefix_empty, andb_true_r.
    intros Hp. apply andb_true_iff in Hp as [H1 H2].
    apply Ascii.eqb_eq in H1, H2. subst. reflexivity.
Qed.

Lemma flag_key_route a :
  Js.startsWith a "--" = true -> a <> "--route" -> Js.drop 2 a <> "route".
Proof.
  intros Hs Hne Hk. apply Hne. rewrite (startsWith_dashes a Hs), Hk. reflexivity.
Qed.

Lemma pushPositional_route out a out' :
  CfApi.pushPositional out a = Normal out' -> out' !! "route" = out !! "route".
Proof.
  unfold CfApi.pushPositional.
  destruct (out !! "_") as [[]|]; try discriminate.
  intros [= <-]. now rewrite lookup_insert_ne.
Qed.

(** Arguments without a [--route] leave the [route] key as it is. *)
Lemma parseArgs_loop_keeps_route n : forall argv out out',
  (List.length argv <= n)%nat ->
  ~ In "--route" argv ->
  CfApi.parseArgs_loop argv out = Normal out' ->
  out' !! "route" = out !! "route".
Proof.
  induction n as [|n IH]; intros argv out out' Hlen Hno Hrun.
  - destruct argv; [|simpl in Hlen; lia]. simpl in Hrun. congruence.
  - destruct argv as [|a argv]; [simpl in Hrun; congruence|].
    simpl in Hlen. rewrite parseArgs_loop_cons in Hrun.
    assert (Ha : a <> "--route") by (intros ->; apply Hno; now left).
    assert (Hargv : ~ In "--route" argv) by (intros Hin; apply Hno; now right).
    destruct (Js.startsWith a "--") eqn:Hs; cbn [negb] in Hrun.
    + pose proof (flag_key_route a Hs Ha) as Hkey.
      destruct argv as [|next argv].
      * simpl in Hrun. injection Hrun as <-. now rewrite lookup_insert_ne.
      * destruct (negb (Js.startsWith next "--")).
        -- apply IH in Hrun; [|simpl in Hlen; lia|intros Hin; apply Hargv; now right].
           rewrite Hrun. now rewrite lookup_insert_ne.
        -- apply IH in Hrun; [|simpl in *; lia|exact Hargv].
           rewrite Hrun. now rewrite lookup_insert_ne.
    + destruct (CfApi.pushPositional out a) as [out1| | |] eqn:Hpush; try discriminate.
      cbn [bindC] in Hrun.
      apply IH in Hrun; [|lia|exact Hargv]. rewrite Hrun.
      now apply (pushPositional_route out a).
Qed.

(** The value kept for [route] is the one of the last [--route]. *)
Lemma parseArgs_last_route pre v post args :
  Js.startsWith v "--" = false ->
  ~ In "--route" post ->
  CfApi.parseArgs (pre ++ "--route" :: v :: post) = Normal args ->
  args !! "route" = Some (JStr v).
Proof.
  intros Hv Hpost. unfold CfApi.parseArgs.
  rewrite (parseArgs_loop_app (List.length pre) pre "--route" (v :: post))
    by (try reflexivity; lia).
  destruct (CfApi.parseArgs_loop pre _) as [out1| | |]; try discriminate.
  cbn [bindC CfApi.parseArgs_loop]. rewrite Hv.
  replace (negb (Js.startsWith "--route" "--")) with false by reflexivity.
  cbn [negb]. intros Hrun.
  rewrite (parseArgs_loop_keeps_route (List.length post) post _ args (le_n _) Hpost Hrun).
  replace (Js.drop 2 "--route") with "route" by reflexivity.
  apply lookup_insert_eq.
Qed.

Lemma omap_none {A B : Type} (f : A -> option B) (l : list A) :
  (forall x, In x l -> f x = None) -> omap f l = [].
Proof.
  induction l as [|x l IH]; intros Hf; [reflexivity|].
  cbn [omap list_omap]. rewrite (Hf x) by now left.
  apply IH. intros y Hy. apply Hf. now right.
Qed.

Lemma rawRoutesOf_spec (args : gmap string jsval) :
  CfApi.rawRoutesOf args =
  match args !! "route" with
  | Some (JStr v) => [v]
  | _ => []
  end.
Proof.
  unfold CfApi.rawRoutesOf.
  destruct (args !! "route") as [x|] eqn:Hroute.
  - assert (Hrest : omap CfApi.routeEntry (map_to_list (delete "route" args)) = []).
    { apply omap_none. intros [k y] Hin. apply list_elem_of_In in Hin.
      apply elem_of_map_to_list in Hin. unfold CfApi.routeEntry.
      destruct y; try reflexivity.
      destruct (String.eqb k "route") eqn:Hk; [|reflexivity].
      apply String.eqb_eq in Hk. subst. rewrite lookup_delete_eq in Hin. discriminate. }
    pose proof (map_to_list_delete args "route" x Hroute) as Hperm.
    apply (omap_Permutation CfApi.routeEntry) in Hperm.
    cbn [omap list_omap] in Hperm.
    rewrite Hrest in Hperm.
    destruct x; cbn [CfApi.routeEntry] in Hperm;
      try (symmetry in Hperm; apply Permutation_nil_r in Hperm; exact Hperm).
    replace (String.eqb "route" "route") with true in Hperm by reflexivity.
    symmetry in Hperm. now apply Permutation_singleton_r in Hperm.
  - apply omap_none. intros [k y] Hin. apply list_elem_of_In in Hin.
    apply elem_of_map_to_list in Hin. unfold CfApi.routeEntry.
    destruct y; try reflexivity.
    destruct (String.eqb k "route") eqn:Hk; [|reflexivity].
    apply String.eqb_eq in Hk. subst. congruence.
Qed.

Lemma collectPatterns_spec (args : gmap string jsval) :
  CfApi.collectPatterns args =
  match args !! "route" with
  | Some (JStr v) => Plan.patternsOf v
  | _ => []
  end.
Proof.
  unfold CfApi.collectPatterns. rewrite rawRoutesOf_spec. unfold arg, Plan.patternsOf.
  destruct (args !! "route") as [[]|]; try reflexivity.
  cbn [List.flat_map]. now rewrite app_nil_r.
Qed.

(** C10. When [--route] is given more than once only the value of its last
    occurrence is kept, whatever came before; the patterns are the pieces
    of that value between commas, trimmed, the empty ones dropped; and the
    command throws when no pattern is left. *)
Theorem last_route_flag_wins pre v post args :
  Js.startsWith v "--" = false ->
  ~ In "--route" post ->
  CfApi.parseArgs (pre ++ "--route" :: v :: post) = Normal args ->
  args !! "route" = Some (JStr v)
  /\ CfApi.collectPatterns args = Plan.patternsOf v
  /\ (forall env token p,
        Js.trim (toString (nullish (arg args "zone-id") (JStr EmptyString))) <> EmptyString ->
        Js.trim (toString (nullish (arg args "worker-name") (JStr EmptyString))) <> EmptyString ->
        Plan.patternsOf v = [] ->
        CfApi.ensureWorkerRoutesCommand args env token p
        = (p, Throw (Error "At least one --route <pattern> is required"))).
Proof.
  intros Hv Hpost Hparse.
  pose proof (parseArgs_last_route pre v post args Hv Hpost Hparse) as Hroute.
  assert (Hpat : CfApi.collectPatterns args = Plan.patternsOf v)
    by now rewrite collectPatterns_spec, Hroute.
  split; [exact Hroute|]. split; [exact Hpat|].
  intros env token p Hzone Hworker Hnone.
  unfold CfApi.ensureWorkerRoutesCommand. cbv zeta.
  apply String.eqb_neq in Hzone, Hworker.
  rewrite Hzone, Hworker, Hpat, Hnone. reflexivity.
Qed.




End ArgumentFacts.

(** ** Exit codes *)

Section ExitFacts.
Context `{Platform}.

Lemma never_bind {A B : Type} k (m : M A) (f : A -> M B) :
  Ends.never k m -> (forall a, Ends.never k (f a)) -> Ends.never k (bind m f).
Proof.
  intros Hm Hf p. unfold bind. specialize (Hm p).
  destruct (m p) as [p1 [a|e|c|]]; cbn [snd] in *.
  - apply Hf.
  - destruct k; exact id.
  - exact Hm.
  - exact Hm.
Qed.

Lemma never_ret {A : Type} k (a : A) : Ends.never k (ret a).
Proof. intros p. destruct k; exact id. Qed.

Lemma never_throw {A : Type} k (e : exn) : Ends.never k (throw (A:=A) e).
Proof. intros p. destruct k; exact id. Qed.

Lemma never_lift {A : Type} k (c : completion A) :
  ~ Ends.endsBy k c -> Ends.never k (lift c).
Proof. intros Hc p. exact Hc. Qed.

Lemma never_cf k token method path query body :
  Ends.never k (CfApi.cf token method path query body).
Proof.
  intros p. rewrite cf_unfold. cbv zeta.
  destruct (fetch _ _).2 as [resp|]; cbn [snd].
  - apply cf_result_kind.
  - destruct k; exact id.
Qed.

Lemma getStrict_kind v key k : ~ Ends.endsBy k (getStrict v key).
Proof. destruct v, k; exact id. Qed.

Lemma cfapi_normalize_never_exits fuel raw :
  ~ Ends.endsBy Ends.ByExit (CfApi.normalizeDomain fuel raw).
Proof.
  revert raw. induction fuel as [|fuel IH]; intros raw; [exact id|].
  cbn [CfApi.normalizeDomain]. cbv zeta.
  repeat match goal with
         | |- context [if ?b then _ else _] => destruct b; try exact id
         | |- context [match URL_parse ?s with _ => _ end] =>
             destruct (URL_parse s); try exact id
         end.
  apply IH.
Qed.



Lemma never_resolveZone_loop k token normalized names :
  Ends.never k (CfApi.resolveZone_loop token normalized names).
Proof.
  induction names as [|name names IH]; cbn [CfApi.resolveZone_loop].
  - apply never_throw.
  - apply never_bind; [apply never_cf|]. intros result. cbv zeta.
    destruct (negb _); [exact IH|apply never_ret].
Qed.

Lemma never_resolveZone k fuel token domain :
  ~ Ends.endsBy k (CfApi.normalizeDomain fuel domain) ->
  Ends.never k (CfApi.resolveZone fuel token domain).
Proof.
  intros Hnorm. unfold CfApi.resolveZone. apply never_bind.
  - apply never_lift. exact Hnorm.
  - intros normalized. cbv zeta. destruct (_ <? _)%nat.
    + apply never_throw.
    + apply never_resolveZone_loop.
Qed.

Lemma never_ensureDnsA k token zoneId recordName ip proxied force :
  Ends.never k (CfApi.ensureDnsA token zoneId recordName ip proxied force).
Proof.
  unfold CfApi.ensureDnsA. apply never_bind; [apply never_cf|].
  intros records. cbv zeta.
  destruct (_ <? _)%nat; [apply never_throw|].
  destruct (arrayOrEmpty records) as [|record rest].
  - apply never_bind; [apply never_cf|]. intros; apply never_ret.
  - destruct (CfApi.recordMatches _ _ _ _).
    + apply never_bind; [|intros; apply never_ret].
      apply never_lift. apply getStrict_kind.
    + destruct (negb force); [apply never_throw|].
      apply never_bind.
      * apply never_lift. apply getStrict_kind.
      * intros rid. apply never_bind; [apply never_cf|].
        intros; apply never_ret.
Qed.

Lemma never_routes_loop k token zoneId workerName routes force patterns :
  Ends.never k
    (CfApi.ensureWorkerRoutes_loop token zoneId workerName routes force patterns).
Proof.
  induction patterns as [|pattern rest IH]; cbn [CfApi.ensureWorkerRoutes_loop].
  - apply never_ret.
  - cbv zeta. destruct (negb (toBoolean _)).
    + apply never_bind; [apply never_cf|]. intros _. exact IH.
    + destruct (strictEqStr _ _); [exact IH|].
      destruct (negb force); [apply never_throw|].
      apply never_bind; [apply never_cf|]. intros _. exact IH.
Qed.

Lemma never_ensureWorkerRoutes k token zoneId workerName patterns force :
  Ends.never k (CfApi.ensureWorkerRoutes token zoneId workerName patterns force).
Proof.
  unfold CfApi.ensureWorkerRoutes. apply never_bind; [apply never_cf|].
  intros routes. apply never_routes_loop.
Qed.













Lemma pushPositional_result out a :
  (exists out', CfApi.pushPositional out a = Normal out')
  \/ (exists e, CfApi.pushPositional out a = Throw e).
Proof.
  unfold CfApi.pushPositional. destruct (out !! "_") as [[]|]; eauto.
Qed.

Lemma parseArgs_loop_result n : forall argv out,
  (List.length argv <= n)%nat ->
  (exists out', CfApi.parseArgs_loop argv out = Normal out')
  \/ (exists e, CfApi.parseArgs_loop argv out = Throw e).
Proof.
  induction n as [|n IH]; intros argv out Hlen.
  - destruct argv; [left; eexists; reflexivity | simpl in Hlen; lia].
  - destruct argv as [|a argv]; [left; eexists; reflexivity|].
    simpl in Hlen. rewrite parseArgs_loop_cons.
    destruct (negb (Js.startsWith a "--")).
    + destruct (pushPositional_result out a) as [[out' ->]|[e ->]]; cbn [bindC].
      * apply IH. lia.
      * right. eexists; reflexivity.
    + destruct argv as [|next argv]; [left; eexists; reflexivity|].
      destruct (negb (Js.startsWith next "--")); apply IH; simpl in *; lia.
Qed.

Lemma parseArgs_result argv :
  (exists args, CfApi.parseArgs argv = Normal args)
  \/ (exists e, CfApi.parseArgs argv = Throw e).
Proof. apply (parseArgs_loop_result (List.length argv)). lia. Qed.

Lemma getToken_result args env :
  (exists token, CfApi.getToken args env = Normal token)
  \/ CfApi.getToken args env = Throw (Error "Missing CLOUDFLARE_API_TOKEN (or --token)").
Proof. unfold CfApi.getToken. cbv zeta. destruct (String.eqb _ _); eauto. Qed.

Lemma strictEqStr_true v s : strictEqStr v s = true -> v = JStr s.
Proof.
  destruct v; try discriminate. simpl. intros Hs. apply String.eqb_eq in Hs. now subst.
Qed.

Lemma main_dispatch fuel argv env p :
  CfApi.main fuel argv env p =
  match CfApi.parseArgs argv with
  | Normal args =>
      let cmd := CfApi.command args in
      if negb (toBoolean cmd) then Ends.usageEnd p []
      else
        match CfApi.getToken args env with
        | Normal token =>
            if strictEqStr cmd "resolve-zone"
            then CfApi.resolveZoneCommand fuel args env token p
            else if strictEqStr cmd "ensure-dns-a"
            then CfApi.ensureDnsACommand fuel args env token p
            else if strictEqStr cmd "ensure-worker-routes"
            then CfApi.ensureWorkerRoutesCommand args env token p
            else Ends.usageEnd p ["Unknown command: " +:+ toString cmd +:+ nl]
        | Throw e => (p, Throw e)
        | Exit n => (p, Exit n)
        | OutOfFuel => (p, OutOfFuel)
        end
  | Throw e => (p, Throw e)
  | Exit n => (p, Exit n)
  | OutOfFuel => (p, OutOfFuel)
  end.
Proof.
  unfold CfApi.main, bind at 1, lift at 1.
  destruct (CfApi.parseArgs argv) as [args| | |]; try reflexivity.
  cbv zeta. destruct (negb (toBoolean (CfApi.command args))).
  - unfold Ends.usageEnd, bind, writeErr, exit, lift. simpl. reflexivity.
  - unfold bind at 1, lift at 1.
    destruct (CfApi.getToken args env) as [token| | |]; try reflexivity.
    destruct (strictEqStr _ "resolve-zone"); [reflexivity|].
    destruct (strictEqStr _ "ensure-dns-a"); [reflexivity|].
    destruct (strictEqStr _ "ensure-worker-routes"); [reflexivity|].
    unfold Ends.usageEnd, bind, writeErr, exit, lift. simpl.
    now rewrite <- app_assoc.
Qed.






End ExitFacts.

(** ** The scripts at work *)

Section Examples.
#[local] Existing Instance Demo.platform.

Example trim_and_split :
  Js.trim " a, b ,,c " = "a, b ,,c"
  /\ Js.split "," "a, b ,,c" = ["a"; " b "; EmptyString; "c"]
  /\ Js.split "." EmptyString = [EmptyString]
  /\ Js.stripTrailing "." "Notes.Example.COM.." = "Notes.Example.COM"
  /\ Js.toLowerCase "Notes.Example.COM" = "notes.example.com"
  /\ Js.collapseDashes "a---b-c--" = "a-b-c-".
Proof. repeat split; reflexivity. Qed.

(** The acceptance example of the specification. *)
Example normalize_url :
  CfApi.normalizeDomain 2 (JStr "HTTPS://Notes.Example.com/") = Normal "notes.example.com"
  /\ ResolveConfig.normalizeDomain 2 (JStr "HTTPS://Notes.Example.com/")
     = Normal "notes.example.com".
Proof. split; reflexivity. Qed.

Example derived_names :
  ResolveConfig.buildName "inkrypt-api" "notes-example-com" "0123abcd" 63
    = "inkrypt-api-notes-example-com-0123abcd"
  /\ ResolveConfig.buildName "inkrypt" "a-very-long-sub-domain-label-that-goes-on-and-on-example-com"
       "0123abcd" 63
     = "inkrypt-a-very-long-sub-domain-label-that-goes-on-and-0123abcd".
Proof. split; reflexivity. Qed.

(** The two error messages of [cf]: the first error of the envelope, and
    the report of a body that is not JSON. *)
Example cf_messages :
  CfApi.cfResult "u" (mkResponse 403 Demo.failureText)
  = Throw (CloudflareApiError "Authentication error" 403 "u"
             (JArr [JObj [("code", JNum 10000); ("message", JStr "Authentication error")]])
             Demo.failureText)
  /\ CfApi.cfResult "u" (mkResponse 502 "<html>Bad gateway</html>")
     = Throw (CloudflareApiError "Cloudflare API returned non-JSON response (502)" 502 "u"
                JUndefined "<html>Bad gateway</html>")
  /\ CfApi.cfResult "u" (mkResponse 204 EmptyString) = Normal JUndefined.
Proof. repeat split; reflexivity. Qed.

(** An answer with status 403 and [success: false] is reported as a
    [CloudflareApiError] with the status, the URL, the errors and the body. *)
Lemma cf_error_contract_witness :
  let p := Demo.start [Some (mkResponse 403 Demo.failureText)] in
  fetch (world p) (CfApi.cfRequest "tok" "GET" "/zones" [] None)
    = ([], Some (mkResponse 403 Demo.failureText))
  /\ exists message,
       (CfApi.cf "tok" "GET" "/zones" [] None p).2
       = Throw (CloudflareApiError message 403
                  "https://api.cloudflare.com/client/v4/zones"
                  (JArr [JObj [("code", JNum 10000);
                               ("message", JStr "Authentication error")]])
                  Demo.failureText).
Proof.
  split; [reflexivity|].
  destruct (cf_error_contract "tok" "GET" "/zones" [] None
              (Demo.start [Some (mkResponse 403 Demo.failureText)])
              [] (mkResponse 403 Demo.failureText) eq_refl) as (Hfail & _ & _).
  destruct Hfail as [message Hm].
  - left. unfold Contract.non2xx. simpl. lia.
  - exists message. exact Hm.
Defined.



(** A URL with a port is accepted: the port is dropped with the rest of
    the URL, by both copies of [normalizeDomain]. *)
Lemma url_with_port_is_accepted :
  ResolveConfig.normalizeDomain 2 (JStr "https://example.com:8080") = Normal "example.com"
  /\ CfApi.normalizeDomain 2 (JStr "https://example.com:8080") = Normal "example.com"
  /\ ~ InvalidDomain (ResolveConfig.normalizeDomain 2 (JStr "https://example.com:8080"))
  /\ ~ InvalidDomain (CfApi.normalizeDomain 2 (JStr "https://example.com:8080")).
Proof.
  split; [reflexivity|]. split; [reflexivity|].
  split; intros [message Hm]; discriminate Hm.
Qed.

(** [example.com:8080] is rejected by both copies. *)
Lemma normalizeDomain_rejections_witness :
  Js.includes (Js.trim "example.com:8080") "://" = false
  /\ Js.hasChar ":" (Js.trim "example.com:8080") = true
  /\ InvalidDomain (CfApi.normalizeDomain 1 (JStr "example.com:8080"))
  /\ InvalidDomain (ResolveConfig.normalizeDomain 1 (JStr "example.com:8080")).
Proof.
  split; [reflexivity|]. split; [reflexivity|].
  destruct (normalizeDomain_rejections 0 "example.com:8080") as (Hbare & _).
  destruct (Hbare eq_refl) as (Hport & _).
  exact (Hport eq_refl).
Defined.

(** [a.notes.example.com]: the zone is found at the third candidate. *)
Lemma resolveZone_first_match_witness :
  let p := Demo.start [Demo.ok Demo.emptyListText; Demo.ok Demo.emptyListText;
                       Demo.ok Demo.zonesText] in
  let query name :=
    Plan.call "tok" "GET" "/zones"
      [("name", name); ("status", "active"); ("per_page", "50"); ("page", "1")] None in
  CfApi.normalizeDomain 1 (JStr "a.notes.example.com") = Normal "a.notes.example.com"
  /\ (CfApi.resolveZone 1 "tok" (JStr "a.notes.example.com") p).2
     = Normal {| CfApi.zone_id := JStr "z9";
                 CfApi.zone_name := JStr "example.com";
                 CfApi.account_id := JStr "acc1" |}
  /\ requests (CfApi.resolveZone 1 "tok" (JStr "a.notes.example.com") p).1
     = [query "a.notes.example.com"; query "notes.example.com"; query "example.com"].
Proof.
  assert (Hnorm : CfApi.normalizeDomain 1 (JStr "a.notes.example.com")
                  = Normal "a.notes.example.com") by reflexivity.
  split; [exact Hnorm|].
  destruct (resolveZone_first_match 1 "tok" (JStr "a.notes.example.com")
              "a.notes.example.com"
              (Demo.start [Demo.ok Demo.emptyListText; Demo.ok Demo.emptyListText;
                           Demo.ok Demo.zonesText]) Hnorm) as (_ & Hhit & _).
  set (p0 := Demo.start [Demo.ok Demo.emptyListText; Demo.ok Demo.emptyListText;
                         Demo.ok Demo.zonesText]) in *.
  set (pa := (CfApi.cf "tok" "GET" "/zones" (Plan.activeZones "a.notes.example.com") None p0).1).
  set (pb := (CfApi.cf "tok" "GET" "/zones" (Plan.activeZones "notes.example.com") None pa).1).
  set (pc := (CfApi.cf "tok" "GET" "/zones" (Plan.activeZones "example.com") None pb).1).
  destruct (Hhit ["a.notes.example.com"; "notes.example.com"] "example.com" []
              pb pc [] Demo.zoneValue [] eq_refl) as (Hrun & Hreq).
  - cbn [Plan.zoneMisses]. exists pa, (JArr []). split; [reflexivity|]. split.
    { intros zones Hz z Hin. injection Hz as <-. destruct Hin. }
    exists pb, (JArr []). split; [reflexivity|]. split.
    { intros zones Hz z Hin. injection Hz as <-. destruct Hin. }
    reflexivity.
  - reflexivity.
  - intros z [].
  - reflexivity.
  - rewrite Hrun. split; [reflexivity|exact Hreq].
Defined.

(** cf-api.mjs does not look at the length of a label. *)
Example cfapi_accepts_long_label :
  CfApi.normalizeDomain 1
    (JStr "aaaaaaaaaaaaaaaaaaaaaaaaaaaaaaaaaaaaaaaaaaaaaaaaaaaaaaaaaaaaaaaa.example.com")
  = Normal "aaaaaaaaaaaaaaaaaaaaaaaaaaaaaaaaaaaaaaaaaaaaaaaaaaaaaaaaaaaaaaaa.example.com"
  /\ ResolveConfig.normalizeDomain 1
       (JStr "aaaaaaaaaaaaaaaaaaaaaaaaaaaaaaaaaaaaaaaaaaaaaaaaaaaaaaaaaaaaaaaa.example.com")
     = Throw (Error "DOMAIN label is too long").
Proof. split; reflexivity. Qed.

(** A prefix that leaves no room for the slug: the name is longer than
    [maxLen]. *)
Lemma buildName_exceeds_maxLen :
  ResolveConfig.buildName Demo.longPrefix "notes-example-com" "0123abcd" 63
    = "inkrypt-api-preview-environment-for-feature-branch-deployments-n-0123abcd"
  /\ 63 < Z.of_nat (String.length
                      (ResolveConfig.buildName Demo.longPrefix "notes-example-com"
                         "0123abcd" 63)).
Proof. split; [reflexivity | vm_compute; reflexivity]. Qed.

Lemma buildName_bounded_witness :
  1 <= 63 - Z.of_nat (String.length "inkrypt-api" + 2 + String.length "0123abcd")
  /\ Z.of_nat (String.length
                 (ResolveConfig.buildName "inkrypt-api" "notes-example-com" "0123abcd" 63))
     <= 63.
Proof.
  split; [vm_compute; discriminate|].
  apply (buildName_bounded "inkrypt-api" "notes-example-com" "0123abcd" 63).
  vm_compute. discriminate.
Defined.






(** The first [--route] is lost, the second one yields two patterns. *)
Lemma last_route_flag_wins_witness :
  Js.startsWith "b.example.com/*, c.example.com/*" "--" = false
  /\ ~ In "--route" ["--force"]
  /\ CfApi.parseArgs Demo.routeArgv = Normal Demo.routeArgs
  /\ Demo.routeArgs !! "route" = Some (JStr "b.example.com/*, c.example.com/*")
  /\ CfApi.collectPatterns Demo.routeArgs = ["b.example.com/*"; "c.example.com/*"].
Proof.
  assert (Hpost : ~ In "--route" ["--force"])
    by (intros [Heq|[]]; discriminate Heq).
  assert (Hparse : CfApi.parseArgs Demo.routeArgv = Normal Demo.routeArgs)
    by reflexivity.
  split; [reflexivity|]. split; [exact Hpost|]. split; [exact Hparse|].
  destruct (last_route_flag_wins
              ["ensure-worker-routes"; "--zone-id"; "z1"; "--worker-name"; "inkrypt-api";
               "--route"; "a.example.com/*"]
              "b.example.com/*, c.example.com/*" ["--force"] Demo.routeArgs
              eq_refl Hpost Hparse) as (Hroute & Hpatterns & _).
  split; [exact Hroute|]. rewrite Hpatterns. reflexivity.
Defined.

End Examples.

(** ** More on the command line *)

Section MoreArgumentFacts.
Context `{Platform}.

Lemma startsWith_dashes_app k : Js.startsWith ("--" +:+ k) "--" = true.
Proof.
  unfold Js.startsWith. change ("--" +:+ k) with (String "-" (String "-" k)).
  now rewrite !prefix_cons, prefix_empty.
Qed.

Lemma flag_key a k :
  Js.startsWith a "--" = true -> a <> "--" +:+ k -> Js.drop 2 a <> k.
Proof.
  intros Hs Hne Hk. apply Hne. rewrite (startsWith_dashes a Hs), Hk. reflexivity.
Qed.

Lemma pushPositional_key out a out' k :
  k <> "_" -> CfApi.pushPositional out a = Normal out' -> out' !! k = out !! k.
Proof.
  intros Hk. unfold CfApi.pushPositional.
  destruct (out !! "_") as [[]|]; try discriminate.
  intros [= <-]. rewrite lookup_insert_ne; [reflexivity|congruence].
Qed.

(** Arguments without the flag [--k] leave the key [k] as it is. *)
Lemma parseArgs_loop_keeps_key n k : forall argv out out',
  (List.length argv <= n)%nat ->
  k <> "_" ->
  ~ In ("--" +:+ k) argv ->
  CfApi.parseArgs_loop argv out = Normal out' ->
  out' !! k = out !! k.
Proof.
  induction n as [|n IH]; intros argv out out' Hlen Hk Hno Hrun.
  - destruct argv; [|simpl in Hlen; lia]. simpl in Hrun. congruence.
  - destruct argv as [|a argv]; [simpl in Hrun; congruence|].
    simpl in Hlen. rewrite parseArgs_loop_cons in Hrun.
    assert (Ha : a <> "--" +:+ k) by (intros ->; apply Hno; now left).
    assert (Hargv : ~ In ("--" +:+ k) argv) by (intros Hin; apply Hno; now right).
    destruct (Js.startsWith a "--") eqn:Hs; cbn [negb] in Hrun.
    + pose proof (flag_key a k Hs Ha) as Hkey.
      destruct argv as [|next argv].
      * simpl in Hrun. injection Hrun as <-. now rewrite lookup_insert_ne.
      * destruct (negb (Js.startsWith next "--")).
        -- apply IH in Hrun; [|simpl in Hlen; lia|exact Hk|intros Hin; apply Hargv; now right].
           rewrite Hrun. now rewrite lookup_insert_ne.
        -- apply IH in Hrun; [|simpl in *; lia|exact Hk|exact Hargv].
           rewrite Hrun. now rewrite lookup_insert_ne.
    + destruct (CfApi.pushPositional out a) as [out1| | |] eqn:Hpush; try discriminate.
      cbn [bindC] in Hrun.
      apply IH in Hrun; [|lia|exact Hk|exact Hargv]. rewrite Hrun.
      now apply (pushPositional_key out a).
Qed.

Lemma positionalsAfter_flag next rest :
  Js.startsWith next "--" = true ->
  Shape.positionalsAfter true (next :: rest) = Shape.positionalsAfter false (next :: rest).
Proof. intros Hs. cbn [Shape.positionalsAfter]. now rewrite Hs. Qed.

Lemma parseArgs_loop_positionals n : forall argv out l,
  (List.length argv <= n)%nat ->
  out !! "_" = Some (JArr l) ->
  ~ In "--_" argv ->
  exists out',
    CfApi.parseArgs_loop argv out = Normal out'
    /\ out' !! "_" = Some (JArr (l ++ List.map JStr (Shape.positionalsAfter false argv))).
Proof.
  induction n as [|n IH]; intros argv out l Hlen Hout Hno.
  - destruct argv; [|simpl in Hlen; lia]. exists out. simpl. now rewrite app_nil_r.
  - destruct argv as [|a argv]; [exists out; simpl; now rewrite app_nil_r|].
    simpl in Hlen. rewrite parseArgs_loop_cons.
    assert (Ha : a <> "--" +:+ "_") by (intros ->; apply Hno; now left).
    assert (Hargv : ~ In "--_" argv) by (intros Hin; apply Hno; now right).
    cbn [Shape.positionalsAfter]. cbv zeta.
    destruct (Js.startsWith a "--") eqn:Hs; cbn [negb andb app].
    + pose proof (flag_key a "_" Hs Ha) as Hkey.
      destruct argv as [|next argv].
      * eexists. split; [reflexivity|]. cbn [Shape.positionalsAfter List.map].
        now rewrite lookup_insert_ne, app_nil_r.
      * destruct (Js.startsWith next "--") eqn:Hnext; cbn [negb].
        -- rewrite (positionalsAfter_flag next argv Hnext).
           apply IH; [simpl in *; lia| now rewrite lookup_insert_ne |exact Hargv].
        -- cbn [Shape.positionalsAfter]. rewrite Hnext. cbn [negb andb app].
           apply IH; [simpl in *; lia| now rewrite lookup_insert_ne |].
           intros Hin. apply Hargv. now right.
    + unfold CfApi.pushPositional. rewrite Hout. cbn [bindC].
      destruct (IH argv (<["_" := JArr (l ++ [JStr a])]> out) (l ++ [JStr a]))
        as (out' & Hrun & Hlookup); [lia|apply lookup_insert_eq|exact Hargv|].
      exists out'. split; [exact Hrun|].
      rewrite Hlookup, <- app_assoc. reflexivity.
Qed.

(** X1. Unless the flag [--_] is given, [parseArgs] does not throw, and
    [args._] holds, in their order, the tokens that neither start with two
    dashes nor follow a token that does; the sub-command is the first of
    them, [undefined] when there is none. *)
Theorem parseArgs_positionals argv :
  ~ In "--_" argv ->
  exists args,
    CfApi.parseArgs argv = Normal args
    /\ args !! "_" = Some (JArr (List.map JStr (Shape.positionals argv)))
    /\ CfApi.command args = match Shape.positionals argv with
                            | a :: _ => JStr a
                            | [] => JUndefined
                            end.
Proof.
  intros Hno.
  destruct (parseArgs_loop_positionals (List.length argv) argv {["_" := JArr []]} []
              (le_n _) (lookup_singleton_eq _ _) Hno) as (args & Hrun & Hlookup).
  exists args. split; [exact Hrun|]. split; [exact Hlookup|].
  unfold CfApi.command, arg. rewrite Hlookup. unfold Shape.positionals.
  destruct (Shape.positionalsAfter false argv); reflexivity.
Qed.

(** X2. For a key [k] other than [_] (and other than [__proto__], which an
    assignment does not store as a property): without a token [--k] the key
    is missing from the result; otherwise its value is the one of the last
    [--k], the token that follows it when that does not start with two
    dashes, and [true] when it does or when [--k] comes last. *)
Theorem parseArgs_flag_value k argv args :
  k <> "_" -> k <> "__proto__" ->
  CfApi.parseArgs argv = Normal args ->
  (~ In ("--" +:+ k) argv -> args !! k = None)
  /\ (forall pre v post,
        argv = pre ++ ("--" +:+ k) :: v :: post ->
        Js.startsWith v "--" = false ->
        ~ In ("--" +:+ k) post ->
        args !! k = Some (JStr v))
  /\ (forall pre post,
        argv = pre ++ ("--" +:+ k) :: post ->
        match post with
        | [] => True
        | next :: _ => Js.startsWith next "--" = true
        end ->
        ~ In ("--" +:+ k) post ->
        args !! k = Some (JBool true)).
Proof.
  intros Hk _ Hparse. unfold CfApi.parseArgs in Hparse.
  assert (Hdrop : Js.drop 2 ("--" +:+ k) = k) by reflexivity.
  split; [|split].
  - intros Hno.
    rewrite (parseArgs_loop_keeps_key (List.length argv) k argv _ args (le_n _) Hk Hno Hparse).
    rewrite lookup_singleton_ne; [reflexivity|congruence].
  - intros pre v post -> Hv Hpost.
    rewrite (parseArgs_loop_app (List.length pre) pre ("--" +:+ k) (v :: post)) in Hparse
      by (try apply startsWith_dashes_app; lia).
    destruct (CfApi.parseArgs_loop pre _) as [out1| | |]; try discriminate.
    cbn [bindC] in Hparse. rewrite parseArgs_loop_cons in Hparse.
    rewrite startsWith_dashes_app, Hv, Hdrop in Hparse. cbn [negb] in Hparse.
    rewrite (parseArgs_loop_keeps_key (List.length post) k post _ args (le_n _) Hk Hpost Hparse).
    apply lookup_insert_eq.
  - intros pre post -> Hnext Hpost.
    rewrite (parseArgs_loop_app (List.length pre) pre ("--" +:+ k) post) in Hparse
      by (try apply startsWith_dashes_app; lia).
    destruct (CfApi.parseArgs_loop pre _) as [out1| | |]; try discriminate.
    cbn [bindC] in Hparse. rewrite parseArgs_loop_cons in Hparse.
    rewrite startsWith_dashes_app, Hdrop in Hparse. cbn [negb] in Hparse.
    destruct post as [|next rest].
    + simpl in Hparse. injection Hparse as <-. apply lookup_insert_eq.
    + rewrite Hnext in Hparse. cbn [negb] in Hparse.
      rewrite (parseArgs_loop_keeps_key (List.length (next :: rest)) k (next :: rest) _ args
                 (le_n _) Hk Hpost Hparse).
      apply lookup_insert_eq.
Qed.

End MoreArgumentFacts.

(** ** What the reconciler sends *)

Section TrafficFacts.
Context `{Platform}.

(** X3. A non-blank [--token] wins over the environment, the variable
    [CLOUDFLARE_API_TOKEN] is used when the flag is absent, and the token is
    never empty; with a sub-command but no token the script throws before
    anything is sent or written. *)
Theorem token_resolution (args : gmap string jsval) (env : gmap string string) :
  (forall t, args !! "token" = Some (JStr t) -> Js.trim t <> EmptyString ->
             CfApi.getToken args env = Normal (Js.trim t))
  /\ (forall t, args !! "token" = None -> env !! "CLOUDFLARE_API_TOKEN" = Some t ->
                Js.trim t <> EmptyString ->
                CfApi.getToken args env = Normal (Js.trim t))
  /\ (forall token, CfApi.getToken args env = Normal token -> token <> EmptyString)
  /\ (forall fuel argv p,
        CfApi.parseArgs argv = Normal args ->
        toBoolean (CfApi.command args) = true ->
        (forall token, CfApi.getToken args env <> Normal token) ->
        CfApi.main fuel argv env p
        = (p, Throw (Error "Missing CLOUDFLARE_API_TOKEN (or --token)"))).
Proof.
  split; [|split; [|split]].
  - intros t Harg Ht. unfold CfApi.getToken, arg. rewrite Harg. cbn [nullish toString].
    apply String.eqb_neq in Ht. now rewrite Ht.
  - intros t Harg Henv Ht. unfold CfApi.getToken, arg, envVar. rewrite Harg, Henv.
    cbn [nullish toString]. apply String.eqb_neq in Ht. now rewrite Ht.
  - intros token. unfold CfApi.getToken. cbv zeta.
    destruct (String.eqb _ EmptyString) eqn:He; [discriminate|].
    intros [= <-]. now apply String.eqb_neq.
  - intros fuel argv p Hparse Hcmd Hnone.
    rewrite main_dispatch, Hparse. cbv zeta. rewrite Hcmd. cbn [negb].
    destruct (getToken_result args env) as [[token Ht]|Ht].
    + exfalso. exact (Hnone token Ht).
    + now rewrite Ht.
Qed.

Lemma bind_run {A B : Type} (m : M A) (k : A -> M B) p :
  bind m k p = match m p with
               | (p', Normal a) => k a p'
               | (p', Throw e) => (p', Throw e)
               | (p', Exit n) => (p', Exit n)
               | (p', OutOfFuel) => (p', OutOfFuel)
               end.
Proof. reflexivity. Qed.

Lemma lift_run {A : Type} (c : completion A) p : lift c p = (p, c).
Proof. reflexivity. Qed.

Lemma cf_step token method path query body p :
  exists p1 r,
    CfApi.cf token method path query body p = (p1, r)
    /\ requests p1 = requests p ++ [CfApi.cfRequest token method path query body]
    /\ Shape.sameStreams p p1.
Proof.
  pose proof (cf_trace token method path query body p) as Ht. cbv zeta in Ht.
  destruct (CfApi.cf token method path query body p) as [p1 r].
  exists p1, r. split; [reflexivity|]. unfold Shape.sameStreams. tauto.
Qed.

Lemma sameStreams_trans p1 p2 p3 :
  Shape.sameStreams p1 p2 -> Shape.sameStreams p2 p3 -> Shape.sameStreams p1 p3.
Proof. unfold Shape.sameStreams. intros (? & ? & ?) (? & ? & ?). repeat split; congruence. Qed.

Lemma sameStreams_refl p : Shape.sameStreams p p.
Proof. unfold Shape.sameStreams. auto. Qed.

(** X4. Whatever the service answers, [ensureDnsA] sends the listing (a GET
    made from the record collection of the zone with the parameters [name],
    [per_page=100], [page=1]) and at most one call more, which is a write
    of the A record: a POST of [{type: 'A', name, content: ip, ttl: 1,
    proxied}] made from the collection or, only when [force] is set, a PUT
    of the same body made from the collection and an identifier. The
    address fetched is what [new URL] makes of these texts. [ensureDnsA]
    writes to no stream. *)
Theorem ensureDnsA_traffic token zoneId recordName ip proxied force p :
  let run := CfApi.ensureDnsA token zoneId recordName ip proxied force p in
  let listing :=
    Plan.call token "GET" ("/zones/" +:+ zoneId +:+ "/dns_records")
      [("name", recordName); ("per_page", "100"); ("page", "1")] None in
  exists writes,
    requests run.1 = requests p ++ listing :: writes
    /\ (List.length writes <= 1)%nat
    /\ Forall (Shape.dnsWrite token zoneId recordName ip proxied force) writes
    /\ Shape.sameStreams p run.1.
Proof.
  cbv zeta.
  set (listing := Plan.call token "GET" _ _ None).
  set (ok := fun q : Proc =>
               exists writes,
                 requests q = requests p ++ listing :: writes
                 /\ (List.length writes <= 1)%nat
                 /\ Forall (Shape.dnsWrite token zoneId recordName ip proxied force) writes
                 /\ Shape.sameStreams p q).
  enough (Hok : ok (CfApi.ensureDnsA token zoneId recordName ip proxied force p).1)
    by exact Hok.
  unfold CfApi.ensureDnsA. rewrite bind_run.
  destruct (cf_step token "GET" (CfApi.dnsRecordsPath zoneId) (CfApi.dnsQuery recordName)
              None p) as (p1 & r1 & Hcf & Hreq & Hsame).
  rewrite Hcf.
  assert (Hstop : forall q : Proc * completion CfApi.DnsOutcome, q.1 = p1 -> ok q.1).
  { intros q ->. exists []. split; [exact Hreq|]. split; [simpl; lia|].
    split; [constructor|exact Hsame]. }
  destruct r1 as [records|e|n|]; try (apply Hstop; reflexivity).
  cbv zeta. destruct (_ <? _)%nat; [apply Hstop; reflexivity|].
  assert (Hwrite : forall method path (k : jsval -> M CfApi.DnsOutcome),
            (forall v q, k v q = (q, (k v q).2)) ->
            Shape.dnsWrite token zoneId recordName ip proxied force
              (CfApi.cfRequest token method path []
                 (Some (CfApi.desiredRecord recordName ip proxied))) ->
            ok (bind (CfApi.cf token method path []
                        (Some (CfApi.desiredRecord recordName ip proxied))) k p1).1).
  { intros method path k Hk Hkind.
    destruct (cf_step token method path [] (Some (CfApi.desiredRecord recordName ip proxied)) p1)
      as (p2 & r2 & Hcf2 & Hreq2 & Hsame2).
    exists [CfApi.cfRequest token method path []
              (Some (CfApi.desiredRecord recordName ip proxied))].
    assert (Hend : (bind (CfApi.cf token method path []
                            (Some (CfApi.desiredRecord recordName ip proxied))) k p1).1 = p2).
    { unfold bind. rewrite Hcf2. destruct r2; try reflexivity. now rewrite Hk. }
    rewrite Hend. split; [rewrite Hreq2, Hreq, <- app_assoc; reflexivity|].
    split; [simpl; lia|]. split; [|exact (sameStreams_trans _ _ _ Hsame Hsame2)].
    constructor; [exact Hkind|constructor]. }
  destruct (arrayOrEmpty records) as [|record rest].
  - apply Hwrite; [reflexivity|left; reflexivity].
  - destruct (CfApi.recordMatches record recordName ip proxied).
    + unfold bind, lift, ret. destruct (getStrict record "id"); apply Hstop; reflexivity.
    + destruct force; cbn [negb]; [|apply Hstop; reflexivity].
      rewrite bind_run, lift_run. destruct (getStrict record "id") as [rid|e|n|];
        try (apply Hstop; reflexivity).
      apply Hwrite; [reflexivity|right; split; [reflexivity|]].
      exists (toString rid). reflexivity.
Qed.

Lemma routeWrite_more token zoneId workerName pattern rest force request :
  Shape.routeWrite token zoneId workerName rest force request ->
  Shape.routeWrite token zoneId workerName (pattern :: rest) force request.
Proof. intros (pat & Hin & Hkind). exists pat. split; [now right|exact Hkind]. Qed.

Lemma routes_loop_traffic token zoneId workerName routes force patterns : forall p,
  let run := CfApi.ensureWorkerRoutes_loop token zoneId workerName routes force patterns p in
  exists writes,
    requests run.1 = requests p ++ writes
    /\ (List.length writes <= List.length patterns)%nat
    /\ Forall (Shape.routeWrite token zoneId workerName patterns force) writes
    /\ Shape.sameStreams p run.1.
Proof.
  induction patterns as [|pattern rest IH]; intros p; cbv zeta.
  - exists []. simpl. rewrite app_nil_r. split; [reflexivity|]. split; [lia|].
    split; [constructor|apply sameStreams_refl].
  - set (ok := fun (p0 q : Proc) =>
                 exists writes,
                   requests q = requests p0 ++ writes
                   /\ (List.length writes <= List.length (pattern :: rest))%nat
                   /\ Forall (Shape.routeWrite token zoneId workerName (pattern :: rest) force)
                        writes
                   /\ Shape.sameStreams p0 q).
    enough (Hok : ok p (CfApi.ensureWorkerRoutes_loop token zoneId workerName routes force
                          (pattern :: rest) p).1) by exact Hok.
    assert (Hskip :
      ok p (CfApi.ensureWorkerRoutes_loop token zoneId workerName routes force rest p).1).
    { destruct (IH p) as (writes & Hreq & Hlen & Hall & Hsame).
      exists writes. split; [exact Hreq|]. split; [simpl; lia|]. split; [|exact Hsame].
      eapply Forall_impl; [exact Hall|]. intros call. apply routeWrite_more. }
    assert (Hwrite : forall method path,
      Shape.routeWrite token zoneId workerName (pattern :: rest) force
        (CfApi.cfRequest token method path [] (Some (CfApi.routeBody pattern workerName))) ->
      ok p (bind (CfApi.cf token method path []
                    (Some (CfApi.routeBody pattern workerName)))
              (fun _ => CfApi.ensureWorkerRoutes_loop token zoneId workerName routes
                          force rest) p).1).
    { intros method path Hkind.
      destruct (cf_step token method path [] (Some (CfApi.routeBody pattern workerName)) p)
        as (p1 & r1 & Hcf & Hreq1 & Hsame1).
      unfold bind. rewrite Hcf.
      destruct r1 as [v|e|n|];
        try (eexists [_]; cbn [fst]; split; [exact Hreq1|]; split; [simpl; lia|];
             split; [constructor; [exact Hkind|constructor]|exact Hsame1]).
      destruct (IH p1) as (writes & Hreq & Hlen & Hall & Hsame).
      exists (CfApi.cfRequest token method path []
                (Some (CfApi.routeBody pattern workerName)) :: writes).
      split; [rewrite Hreq, Hreq1, <- app_assoc; reflexivity|].
      split; [simpl; lia|]. split; [|exact (sameStreams_trans _ _ _ Hsame1 Hsame)].
      constructor; [exact Hkind|].
      eapply Forall_impl; [exact Hall|]. intros call. apply routeWrite_more. }
    cbn [CfApi.ensureWorkerRoutes_loop]. cbv zeta.
    destruct (negb (toBoolean _)).
    { apply Hwrite. exists pattern. split; [now left|]. left. reflexivity. }
    destruct (strictEqStr _ _); [exact Hskip|].
    destruct force; cbn [negb].
    + apply Hwrite. exists pattern. split; [now left|]. right. split; [reflexivity|].
      eexists. reflexivity.
    + exists []. unfold throw, lift. cbn [fst]. rewrite app_nil_r.
      split; [reflexivity|]. split; [simpl; lia|].
      split; [constructor|apply sameStreams_refl].
Qed.

(** X5. Whatever the service answers, [ensureWorkerRoutes] sends the listing
    (a GET made from the route collection of the zone) and then at most one
    call for each pattern, each a write of a route: a POST of
    [{pattern, script: workerName}], for one of the patterns, made from the
    collection or, only when [force] is set, a PUT of such a body made from
    the collection and an identifier. The address fetched is what
    [new URL] makes of these texts. [ensureWorkerRoutes] writes to no
    stream. *)
Theorem ensureWorkerRoutes_traffic token zoneId workerName patterns force p :
  let run := CfApi.ensureWorkerRoutes token zoneId workerName patterns force p in
  exists writes,
    requests run.1 =
      requests p
      ++ Plan.call token "GET" ("/zones/" +:+ zoneId +:+ "/workers/routes") [] None :: writes
    /\ (List.length writes <= List.length patterns)%nat
    /\ Forall (Shape.routeWrite token zoneId workerName patterns force) writes
    /\ Shape.sameStreams p run.1.
Proof.
  cbv zeta. unfold CfApi.ensureWorkerRoutes, bind.
  destruct (cf_step token "GET" (CfApi.routesPath zoneId) [] None p)
    as (p1 & r1 & Hcf & Hreq & Hsame).
  rewrite Hcf.
  destruct r1 as [listed|e|n|];
    try (exists []; cbn [fst]; split; [exact Hreq|]; split; [simpl; lia|];
         split; [constructor|exact Hsame]).
  destruct (routes_loop_traffic token zoneId workerName (arrayOrEmpty listed) force patterns p1)
    as (writes & Hreq2 & Hlen & Hall & Hsame2).
  exists writes. split; [rewrite Hreq2, Hreq, <- app_assoc; reflexivity|].
  split; [exact Hlen|]. split; [exact Hall|].
  exact (sameStreams_trans _ _ _ Hsame Hsame2).
Qed.

Lemma zone_loop_traffic token normalized names : forall p,
  let run := CfApi.resolveZone_loop token normalized names p in
  exists reads,
    requests run.1 = requests p ++ reads
    /\ (List.length reads <= List.length names)%nat
    /\ Forall Shape.zoneRead reads
    /\ Shape.sameStreams p run.1.
Proof.
  induction names as [|name rest IH]; intros p; cbv zeta.
  - exists []. simpl. rewrite app_nil_r. split; [reflexivity|]. split; [lia|].
    split; [constructor|apply sameStreams_refl].
  - cbn [CfApi.resolveZone_loop]. cbv zeta. unfold bind.
    destruct (cf_step token "GET" "/zones" (CfApi.zoneQuery name) None p)
      as (p1 & r1 & Hcf & Hreq & Hsame).
    rewrite Hcf.
    assert (Hread : Shape.zoneRead
                      (CfApi.cfRequest token "GET" "/zones" (CfApi.zoneQuery name) None))
      by (repeat split; reflexivity).
    destruct r1 as [result|e|n|];
      try (eexists [_]; cbn [fst]; split; [exact Hreq|]; split; [simpl; lia|];
           split; [constructor; [exact Hread|constructor]|exact Hsame]).
    destruct (negb (toBoolean _)).
    + destruct (IH p1) as (reads & Hreq2 & Hlen & Hall & Hsame2).
      exists (CfApi.cfRequest token "GET" "/zones" (CfApi.zoneQuery name) None :: reads).
      split; [rewrite Hreq2, Hreq, <- app_assoc; reflexivity|].
      split; [simpl; lia|]. split; [constructor; assumption|].
      exact (sameStreams_trans _ _ _ Hsame Hsame2).
    + eexists [_]. unfold ret. cbn [fst]. split; [exact Hreq|]. split; [simpl; lia|].
      split; [constructor; [exact Hread|constructor]|exact Hsame].
Qed.

(** X6. Whatever the service answers, [resolveZone] only reads: every call
    it sends is a GET of the zone list without a body, there is none when
    the domain is rejected, and no stream is written. *)
Theorem resolveZone_only_reads fuel token domain p :
  let run := CfApi.resolveZone fuel token domain p in
  exists reads,
    requests run.1 = requests p ++ reads
    /\ Forall Shape.zoneRead reads
    /\ Shape.sameStreams p run.1
    /\ match CfApi.normalizeDomain fuel domain with
       | Normal normalized =>
           (List.length reads < List.length (Js.split "." normalized))%nat
       | _ => reads = []
       end.
Proof.
  cbv zeta. unfold CfApi.resolveZone. rewrite bind_run, lift_run.
  destruct (CfApi.normalizeDomain fuel domain) as [normalized|e|n|] eqn:Hnorm;
    try (exists []; cbn [fst]; rewrite app_nil_r; split; [reflexivity|];
         split; [constructor|]; split; [apply sameStreams_refl|reflexivity]).
  cbv zeta.
  pose proof (split_has_two "." normalized (cfapi_normalize_has_dot _ _ _ Hnorm)) as Hlen.
  destruct (_ <? _)%nat eqn:Hlt; [apply Nat.ltb_lt in Hlt; lia|].
  destruct (zone_loop_traffic token normalized (CfApi.candidates (Js.split "." normalized)) p)
    as (reads & Hreq & Hbound & Hall & Hsame).
  exists reads. split; [exact Hreq|]. split; [exact Hall|]. split; [exact Hsame|].
  unfold CfApi.candidates in Hbound. rewrite List.length_map, List.length_seq in Hbound. lia.
Qed.

End TrafficFacts.

(** ** The two copies of [normalizeDomain] *)

Section MoreDomainFacts.
Context `{Platform}.

Lemma lowerChar_separator c x :
  In x Shape.separators -> Ascii.eqb (Js.lowerChar c) x = Ascii.eqb c x.
Proof.
  intros [<-|[<-|[<-|[<-|[]]]]];
    destruct c as [[] [] [] [] [] [] [] []]; vm_compute; reflexivity.
Qed.

Lemma hasChar_toLowerCase x s :
  In x Shape.separators -> Js.hasChar x (Js.toLowerCase s) = Js.hasChar x s.
Proof.
  intros Hx. induction s as [|a s IH]; [reflexivity|].
  cbn [Js.toLowerCase Js.hasChar]. now rewrite (lowerChar_separator a x Hx), IH.
Qed.

Lemma lowerChar_idem c : Js.lowerChar (Js.lowerChar c) = Js.lowerChar c.
Proof. destruct c as [[] [] [] [] [] [] [] []]; vm_compute; reflexivity. Qed.

Lemma toLowerCase_idem s : Js.toLowerCase (Js.toLowerCase s) = Js.toLowerCase s.
Proof.
  induction s as [|a s IH]; [reflexivity|].
  cbn [Js.toLowerCase]. now rewrite lowerChar_idem, IH.
Qed.

Lemma isWhiteSpace_lowerChar c : Js.isWhiteSpace (Js.lowerChar c) = Js.isWhiteSpace c.
Proof. destruct c as [[] [] [] [] [] [] [] []]; vm_compute; reflexivity. Qed.

Lemma stripTrailing_idem c s :
  Js.stripTrailing c (Js.stripTrailing c s) = Js.stripTrailing c s.
Proof.
  induction s as [|a s IH]; [reflexivity|].
  rewrite stripTrailing_cons.
  destruct (Js.stripTrailing c s) as [|b r] eqn:Hs.
  - destruct (Ascii.eqb a c) eqn:Hac; [reflexivity|].
    rewrite stripTrailing_cons. cbn [Js.stripTrailing]. now rewrite Hac.
  - rewrite stripTrailing_cons, IH. reflexivity.
Qed.

Lemma stripTrailing_toLowerCase s :
  Js.stripTrailing "." (Js.toLowerCase s) = Js.toLowerCase (Js.stripTrailing "." s).
Proof.
  induction s as [|a s IH]; [reflexivity|].
  cbn [Js.toLowerCase]. rewrite !stripTrailing_cons, IH.
  destruct (Js.stripTrailing "." s) as [|b r].
  - cbn [Js.toLowerCase]. rewrite lowerChar_is_dot.
    destruct (Ascii.eqb a "."); reflexivity.
  - reflexivity.
Qed.

Lemma noLeadingSpace_trimStart s : Shape.noLeadingSpace (Js.trimStart s).
Proof.
  induction s as [|c s IH]; [exact I|].
  cbn [Js.trimStart]. destruct (Js.isWhiteSpace c) eqn:Hc; [exact IH|exact Hc].
Qed.

Lemma noLeadingSpace_trimEnd s : Shape.noLeadingSpace s -> Shape.noLeadingSpace (Js.trimEnd s).
Proof.
  destruct s as [|c s]; [trivial|].
  cbn [Js.trimEnd Shape.noLeadingSpace]. intros Hc.
  destruct (Js.trimEnd s); [rewrite Hc|]; exact Hc.
Qed.

Lemma noLeadingSpace_stripTrailing c s :
  Shape.noLeadingSpace s -> Shape.noLeadingSpace (Js.stripTrailing c s).
Proof.
  destruct s as [|a s]; [trivial|].
  rewrite stripTrailing_cons. cbn [Shape.noLeadingSpace]. intros Ha.
  destruct (Js.stripTrailing c s); [destruct (Ascii.eqb a c); [exact I|]|]; exact Ha.
Qed.

Lemma noLeadingSpace_toLowerCase s :
  Shape.noLeadingSpace s -> Shape.noLeadingSpace (Js.toLowerCase s).
Proof.
  destruct s as [|a s]; [trivial|].
  cbn [Js.toLowerCase Shape.noLeadingSpace]. now rewrite isWhiteSpace_lowerChar.
Qed.

(** What cf-api.mjs returns is the lower-cased input, trimmed and without
    its trailing dots, of a bare host name: the URL branch ends in one. *)
Lemma cfapi_normalize_origin fuel raw d :
  CfApi.normalizeDomain fuel raw = Normal d ->
  exists input,
    Shape.noLeadingSpace input
    /\ Forall (fun x => Js.hasChar x input = false) Shape.separators
    /\ d = Js.toLowerCase (Js.stripTrailing "." input)
    /\ Js.hasChar "." d = true.
Proof.
  revert raw. induction fuel as [|fuel IH]; intros raw; [discriminate|].
  cbn [CfApi.normalizeDomain]. cbv zeta.
  destruct (negb (toBoolean raw)); [discriminate|].
  destruct (String.eqb (Js.trim (toString raw)) EmptyString); [discriminate|].
  destruct (Js.includes (Js.trim (toString raw)) "://").
  { destruct (URL_parse _) as [url|]; [|discriminate].
    destruct (_ && _); [discriminate|].
    destruct (_ || _); [discriminate|]. apply IH. }
  rewrite !includes_char.
  destruct (Js.hasChar "/" _) eqn:H1; cbn [orb]; [discriminate|].
  destruct (Js.hasChar "?" _) eqn:H2; cbn [orb]; [discriminate|].
  destruct (Js.hasChar "#" _) eqn:H3; cbn [orb]; [discriminate|].
  destruct (Js.hasChar ":" _) eqn:H4; [discriminate|].
  destruct (Js.hasChar "." (Js.toLowerCase _)) eqn:Hdot; cbn [negb]; [|discriminate].
  intros [= <-].
  exists (Js.trim (toString raw)). split.
  { unfold Js.trim. apply noLeadingSpace_trimEnd, noLeadingSpace_trimStart. }
  split; [|split; [reflexivity|exact Hdot]].
  unfold Shape.separators. repeat constructor; assumption.
Qed.

Lemma resolver_implies_cfapi fuel raw d :
  ResolveConfig.normalizeDomain fuel raw = Normal d ->
  CfApi.normalizeDomain fuel raw = Normal d.
Proof.
  revert raw. induction fuel as [|fuel IH]; intros raw; [discriminate|].
  cbn [ResolveConfig.normalizeDomain CfApi.normalizeDomain]. cbv zeta.
  destruct (negb (toBoolean raw)); [discriminate|].
  destruct (String.eqb (Js.trim (toString raw)) EmptyString); [discriminate|].
  destruct (Js.includes (Js.trim (toString raw)) "://").
  { destruct (URL_parse _) as [url|]; [|discriminate].
    destruct (_ && _); [discriminate|].
    destruct (_ || _); [discriminate|]. apply IH. }
  destruct (_ || _); [discriminate|].
  destruct (Js.includes _ ":"); [discriminate|].
  set (domain := Js.toLowerCase _).
  destruct (String.eqb domain EmptyString); [discriminate|].
  destruct (negb (Js.matchesClassPlus Js.isHostChar domain)); [discriminate|].
  destruct (negb (Js.includes domain ".")); [discriminate|].
  destruct (253 <? String.length domain)%nat; [discriminate|].
  destruct (ResolveConfig.checkLabels _); [|discriminate..].
  simpl. exact id.
Qed.

Lemma cfapi_throw_resolver_throws fuel raw e :
  CfApi.normalizeDomain fuel raw = Throw e ->
  exists e', ResolveConfig.normalizeDomain fuel raw = Throw e'.
Proof.
  revert raw. induction fuel as [|fuel IH]; intros raw; [discriminate|].
  cbn [ResolveConfig.normalizeDomain CfApi.normalizeDomain]. cbv zeta.
  destruct (negb (toBoolean raw)); [eauto|].
  destruct (String.eqb (Js.trim (toString raw)) EmptyString); [eauto|].
  destruct (Js.includes (Js.trim (toString raw)) "://").
  { destruct (URL_parse _) as [url|]; [|eauto].
    destruct (_ && _); [eauto|].
    destruct (_ || _); [eauto|]. apply IH. }
  destruct (_ || _); [eauto|].
  destruct (Js.includes _ ":"); [eauto|].
  set (domain := Js.toLowerCase _).
  destruct (negb (Js.includes domain ".")); [|discriminate].
  intros _.
  destruct (String.eqb domain EmptyString); [eauto|].
  destruct (negb (Js.matchesClassPlus Js.isHostChar domain)); eauto.
Qed.

(** X7. The resolver's [normalizeDomain] is the stricter of the two copies:
    a name it returns is returned by the copy of cf-api.mjs for the same
    input, and an input that cf-api.mjs rejects is rejected by it. *)
Theorem resolver_stricter_than_cfapi fuel raw :
  (forall d, ResolveConfig.normalizeDomain fuel raw = Normal d ->
             CfApi.normalizeDomain fuel raw = Normal d)
  /\ (forall e, CfApi.normalizeDomain fuel raw = Throw e ->
                exists e', ResolveConfig.normalizeDomain fuel raw = Throw e').
Proof.
  split; [apply resolver_implies_cfapi|apply cfapi_throw_resolver_throws].
Qed.

(** X8. A name returned by the resolver's [normalizeDomain] is a normalised
    domain, and both copies of [normalizeDomain] return it unchanged: the
    name the resolver hands to the later steps is read by cf-api.mjs as it
    is. *)
Theorem resolver_result_is_canonical fuel fuel' raw d :
  ResolveConfig.normalizeDomain fuel raw = Normal d ->
  ResolveConfig.NormalizedDomain d
  /\ ResolveConfig.normalizeDomain (S fuel') (JStr d) = Normal d
  /\ CfApi.normalizeDomain (S fuel') (JStr d) = Normal d.
Proof.
  intros Hd. pose proof (resolver_normalize_sound fuel raw d Hd) as Hn.
  pose proof (resolver_normalize_fixpoint fuel' d Hn) as Hfix.
  split; [exact Hn|]. split; [exact Hfix|].
  now apply resolver_implies_cfapi.
Qed.

(** X9. A name returned by [normalizeDomain] of cf-api.mjs contains a dot
    and none of [/ ? # :], is in lower case, has no dot at its end and no
    (ASCII) white space at its start; when it has no white space at its end
    either, [normalizeDomain] returns it unchanged. *)
Theorem cfapi_normalize_shape fuel raw d :
  CfApi.normalizeDomain fuel raw = Normal d ->
  Js.hasChar "." d = true
  /\ Forall (fun x => Js.hasChar x d = false) Shape.separators
  /\ Js.toLowerCase d = d
  /\ Js.stripTrailing "." d = d
  /\ Js.trimStart d = d
  /\ (Js.trimEnd d = d ->
      forall fuel', CfApi.normalizeDomain (S fuel') (JStr d) = Normal d).
Proof.
  intros Hd.
  destruct (cfapi_normalize_origin fuel raw d Hd) as (input & Hhead & Hsep & -> & Hdot).
  set (d := Js.toLowerCase (Js.stripTrailing "." input)) in *.
  assert (Hseps : Forall (fun x => Js.hasChar x d = false) Shape.separators).
  { apply List.Forall_forall. intros x Hx. unfold d.
    rewrite (hasChar_toLowerCase x _ Hx). apply hasChar_stripTrailing.
    exact (proj1 (List.Forall_forall _ _) Hsep x Hx). }
  assert (Hlow : Js.toLowerCase d = d) by apply toLowerCase_idem.
  assert (Hstrip : Js.stripTrailing "." d = d).
  { unfold d. now rewrite stripTrailing_toLowerCase, stripTrailing_idem. }
  assert (Hstart : Js.trimStart d = d).
  { apply trimStart_id.
    exact (noLeadingSpace_toLowerCase _ (noLeadingSpace_stripTrailing _ _ Hhead)). }
  repeat (split; [assumption|]).
  intros Hend fuel'.
  assert (Htrim : Js.trim d = d) by (unfold Js.trim; now rewrite Hstart).
  assert (Hsep' : forall x, In x Shape.separators -> Js.hasChar x d = false)
    by exact (proj1 (List.Forall_forall _ _) Hseps).
  rewrite cfapi_normalize_bare; rewrite Htrim.
  - cbv zeta.
    rewrite (Hsep' "/"%char), (Hsep' "?"%char), (Hsep' "#"%char), (Hsep' ":"%char)
      by (unfold Shape.separators; simpl; tauto).
    cbn [orb]. now rewrite Hstrip, Hlow, Hdot.
  - apply hasChar_includes_false, Hsep'. unfold Shape.separators. simpl. tauto.
  - now apply hasChar_nonempty in Hdot.
Qed.

End MoreDomainFacts.

(** ** The names the resolver derives *)

Section MoreNameFacts.

Lemma app_cons c s t : String c s +:+ t = String c (s +:+ t).
Proof. reflexivity. Qed.

Lemma app_empty t : EmptyString +:+ t = t.
Proof. reflexivity. Qed.

Lemma slug_char c :
  Js.isLabelChar
    (if Ascii.eqb (if negb (Js.isHostChar (Js.lowerChar c)) then "-"%char
                   else Js.lowerChar c) "."
     then "-"%char
     else if negb (Js.isHostChar (Js.lowerChar c)) then "-"%char else Js.lowerChar c)
  = true.
Proof. destruct c as [[] [] [] [] [] [] [] []]; vm_compute; reflexivity. Qed.

Lemma allChars_dashed s :
  Js.allChars Js.isLabelChar
    (Resolver.dashWhere (fun c => Ascii.eqb c ".")
       (Resolver.dashWhere (fun c => negb (Js.isHostChar c)) (Js.toLowerCase s))) = true.
Proof.
  induction s as [|c s IH]; [reflexivity|].
  cbn [Js.toLowerCase Resolver.dashWhere Js.allChars].
  now rewrite slug_char, IH.
Qed.

Lemma allChars_cons p c s : Js.allChars p (String c s) = p c && Js.allChars p s.
Proof. reflexivity. Qed.

Lemma allChars_collapseDashes p s :
  Js.allChars p s = true -> Js.allChars p (Js.collapseDashes s) = true.
Proof.
  induction s as [|c s IH]; [reflexivity|].
  rewrite allChars_cons, collapseDashes_cons. intros Hall.
  apply andb_true_iff in Hall as [Hc Hs]. specialize (IH Hs).
  destruct (Ascii.eqb c "-").
  - destruct s as [|c' s']; [now rewrite allChars_cons, Hc|].
    destruct (Ascii.eqb c' "-"); [exact IH|]. now rewrite allChars_cons, Hc, IH.
  - now rewrite allChars_cons, Hc, IH.
Qed.

Lemma allChars_stripLeadingDashes p s :
  Js.allChars p s = true -> Js.allChars p (Resolver.stripLeadingDashes s) = true.
Proof.
  induction s as [|c s IH]; [reflexivity|].
  cbn [Resolver.stripLeadingDashes]. intros Hall.
  destruct (Ascii.eqb c "-"); [|exact Hall].
  rewrite allChars_cons in Hall. apply andb_true_iff in Hall as [_ Hs]. now apply IH.
Qed.

Lemma allChars_stripTrailing p c s :
  Js.allChars p s = true -> Js.allChars p (Js.stripTrailing c s) = true.
Proof.
  induction s as [|a s IH]; [reflexivity|].
  rewrite allChars_cons, stripTrailing_cons. intros Hall.
  apply andb_true_iff in Hall as [Ha Hs]. specialize (IH Hs).
  destruct (Js.stripTrailing c s) as [|b r].
  - destruct (Ascii.eqb a c); [reflexivity|]. now rewrite allChars_cons, Ha.
  - now rewrite allChars_cons, Ha, IH.
Qed.

Lemma allChars_app p s t :
  Js.allChars p (s +:+ t) = Js.allChars p s && Js.allChars p t.
Proof.
  induction s as [|c s IH]; [reflexivity|].
  rewrite app_cons. now rewrite !allChars_cons, IH, andb_assoc.
Qed.

Lemma allChars_take p n s :
  Js.allChars p s = true -> Js.allChars p (Js.take n s) = true.
Proof.
  revert s. induction n as [|n IH]; intros [|c s]; try reflexivity.
  cbn [Js.take]. rewrite !allChars_cons. intros Hall.
  apply andb_true_iff in Hall as [Hc Hs]. now rewrite Hc, IH.
Qed.

Lemma startsWith_dash s :
  Js.startsWith s "-" = match s with
                        | String c _ => Ascii.eqb c "-"
                        | EmptyString => false
                        end.
Proof.
  unfold Js.startsWith. destruct s as [|c s]; [reflexivity|].
  now rewrite prefix_cons, prefix_empty, andb_true_r, (Ascii.eqb_sym "-" c).
Qed.

Lemma stripLeadingDashes_head s :
  Js.startsWith (Resolver.stripLeadingDashes s) "-" = false.
Proof.
  induction s as [|c s IH]; [reflexivity|].
  cbn [Resolver.stripLeadingDashes]. destruct (Ascii.eqb c "-") eqn:Hc; [exact IH|].
  now rewrite startsWith_dash.
Qed.

Lemma stripTrailing_head c s b r :
  Js.stripTrailing c s = String b r -> exists s', s = String b s'.
Proof.
  destruct s as [|a s]; [discriminate|].
  rewrite stripTrailing_cons.
  destruct (Js.stripTrailing c s); [destruct (Ascii.eqb a c); [discriminate|]|];
    intros [= -> _]; eauto.
Qed.

Lemma startsWith_stripTrailing c s :
  Js.startsWith s "-" = false -> Js.startsWith (Js.stripTrailing c s) "-" = false.
Proof.
  rewrite !startsWith_dash. intros Hs.
  destruct (Js.stripTrailing c s) as [|b r] eqn:Hr; [reflexivity|].
  apply stripTrailing_head in Hr as [s' ->]. exact Hs.
Qed.

Lemma endsWith_cons a s p :
  Js.endsWith (String a s) p = String.eqb (String a s) p || Js.endsWith s p.
Proof. reflexivity. Qed.

Lemma eqb_two a b r c : String.eqb (String a (String b r)) (String c EmptyString) = false.
Proof. apply String.eqb_neq. congruence. Qed.

Lemma eqb_one a c :
  String.eqb (String a EmptyString) (String c EmptyString) = Ascii.eqb a c.
Proof.
  destruct (Ascii.eqb a c) eqn:Hac.
  - apply Ascii.eqb_eq in Hac. subst. apply String.eqb_refl.
  - apply String.eqb_neq. apply Ascii.eqb_neq in Hac. congruence.
Qed.

Lemma endsWith_stripTrailing c s :
  Js.endsWith (Js.stripTrailing c s) (String c EmptyString) = false.
Proof.
  induction s as [|a s IH]; [reflexivity|].
  rewrite stripTrailing_cons.
  destruct (Js.stripTrailing c s) as [|b r].
  - destruct (Ascii.eqb a c) eqn:Hac; [reflexivity|].
    rewrite endsWith_cons, eqb_one, Hac. reflexivity.
  - now rewrite endsWith_cons, eqb_two, IH.
Qed.

Lemma noRun_stripLeadingDashes s :
  Js.includes s "--" = false -> Js.includes (Resolver.stripLeadingDashes s) "--" = false.
Proof.
  induction s as [|c s IH]; [trivial|].
  cbn [Resolver.stripLeadingDashes]. intros Hs.
  destruct (Ascii.eqb c "-"); [|exact Hs].
  rewrite includes_cons in Hs. apply orb_false_iff in Hs as [_ Hs]. now apply IH.
Qed.

Lemma noRun_stripTrailing c s :
  Js.includes s "--" = false -> Js.includes (Js.stripTrailing c s) "--" = false.
Proof.
  induction s as [|a s IH]; [trivial|].
  rewrite includes_cons, stripTrailing_cons. intros Hs.
  apply orb_false_iff in Hs as [Hp Hs]. specialize (IH Hs).
  destruct (Js.stripTrailing c s) as [|b r] eqn:Hr.
  - destruct (Ascii.eqb a c); [reflexivity|].
    rewrite includes_cons, prefix_dashes, andb_false_r. reflexivity.
  - rewrite includes_cons, IH, orb_false_r.
    apply stripTrailing_head in Hr as [s' ->].
    rewrite prefix_dashes in *. exact Hp.
Qed.

Lemma noRun_take n s :
  Js.includes s "--" = false -> Js.includes (Js.take n s) "--" = false.
Proof.
  revert s. induction n as [|n IH]; intros [|a s]; try reflexivity.
  cbn [Js.take]. rewrite !includes_cons. intros Hs.
  apply orb_false_iff in Hs as [Hp Hs]. rewrite (IH s Hs), orb_false_r.
  rewrite prefix_dashes in *.
  destruct (Ascii.eqb a "-"); [|reflexivity]. cbn [andb] in *.
  destruct n as [|n]; destruct s as [|b s]; try reflexivity. exact Hp.
Qed.

Lemma noRun_app s t :
  Js.includes s "--" = false -> Js.includes t "--" = false ->
  Js.endsWith s "-" = false \/ Js.startsWith t "-" = false ->
  Js.includes (s +:+ t) "--" = false.
Proof.
  induction s as [|a s IH]; [trivial|].
  rewrite includes_cons, endsWith_cons. intros Hs Ht Hjoin.
  apply orb_false_iff in Hs as [Hp Hs].
  rewrite app_cons, includes_cons.
  rewrite IH; [|exact Hs|exact Ht|].
  2:{ destruct Hjoin as [He|Hst]; [left|right; exact Hst].
      now apply orb_false_iff in He as [_ He]. }
  rewrite orb_false_r. rewrite prefix_dashes in *.
  destruct (Ascii.eqb a "-") eqn:Ha; [|reflexivity]. cbn [andb] in *.
  destruct s as [|b s]; [|rewrite app_cons; exact Hp]. rewrite app_empty.
  destruct Hjoin as [He|Hst].
  - apply Ascii.eqb_eq in Ha. subst a. discriminate He.
  - rewrite startsWith_dash in Hst. exact Hst.
Qed.

Lemma collapseDashes_id s :
  Js.includes s "--" = false -> Js.collapseDashes s = s.
Proof.
  induction s as [|c s IH]; [reflexivity|].
  rewrite includes_cons, collapseDashes_cons, prefix_dashes. intros Hs.
  apply orb_false_iff in Hs as [Hp Hs]. rewrite (IH Hs).
  destruct (Ascii.eqb c "-"); [|reflexivity].
  destruct s as [|c' s']; [reflexivity|].
  cbn [andb] in Hp. now rewrite Hp.
Qed.

Lemma endsWith_app s t :
  t <> EmptyString -> Js.endsWith (s +:+ t) "-" = Js.endsWith t "-".
Proof.
  intros Ht. induction s as [|a s IH]; [reflexivity|].
  rewrite app_cons, endsWith_cons, IH.
  destruct (s +:+ t) as [|b r] eqn:Hst.
  - destruct s; [rewrite app_empty in Hst; congruence|discriminate].
  - now rewrite eqb_two.
Qed.

Lemma endsWith_hasChar c s :
  Js.hasChar c s = false -> Js.endsWith s (String c EmptyString) = false.
Proof.
  induction s as [|a s IH]; [reflexivity|].
  cbn [Js.hasChar]. intros Hc. apply orb_false_iff in Hc as [Ha Hs].
  rewrite endsWith_cons, (IH Hs), orb_false_r.
  destruct s as [|b r]; [now rewrite eqb_one|apply eqb_two].
Qed.

Lemma app_nonempty s t : s <> EmptyString -> s +:+ t <> EmptyString.
Proof. destruct s; [congruence|discriminate]. Qed.

Lemma startsWith_app s t :
  s <> EmptyString -> Js.startsWith (s +:+ t) "-" = Js.startsWith s "-".
Proof. rewrite !startsWith_dash. destruct s; [congruence|reflexivity]. Qed.

Lemma isLowerAlnum_label c : Js.isLowerAlnum c = true -> Js.isLabelChar c = true.
Proof. unfold Js.isLabelChar. now intros ->. Qed.

Lemma allChars_impl (p q : ascii -> bool) s :
  (forall c, p c = true -> q c = true) ->
  Js.allChars p s = true -> Js.allChars q s = true.
Proof.
  intros Hpq. induction s as [|c s IH]; [reflexivity|].
  rewrite !allChars_cons. intros Hall. apply andb_true_iff in Hall as [Hc Hs].
  now rewrite (Hpq c Hc), IH.
Qed.

Lemma dashed_strip mapped :
  Js.allChars Js.isLabelChar mapped = true ->
  Js.stripTrailing "-" (Resolver.stripLeadingDashes (Js.collapseDashes mapped)) <> EmptyString ->
  Shape.dashedName
    (Js.stripTrailing "-" (Resolver.stripLeadingDashes (Js.collapseDashes mapped))).
Proof.
  intros Hchars Hne. split; [exact Hne|]. split; [|split; [|split]].
  - now apply allChars_stripTrailing, allChars_stripLeadingDashes, allChars_collapseDashes.
  - apply startsWith_stripTrailing, stripLeadingDashes_head.
  - apply endsWith_stripTrailing.
  - apply noRun_stripTrailing, noRun_stripLeadingDashes, collapseDashes_no_run.
Qed.

Lemma dashed_site : Shape.dashedName "site".
Proof. unfold Shape.dashedName. repeat split; try reflexivity. discriminate. Qed.

(** X10. Whatever the domain, [slugifyDomain] returns a name that is not
    empty, is made of lower-case letters, digits and dashes, has no dash at
    either end and no two dashes in a row. *)
Theorem slugify_is_dashed_name domain : Shape.dashedName (Resolver.slugifyDomain domain).
Proof.
  unfold Resolver.slugifyDomain. cbv zeta.
  destruct (String.eqb _ EmptyString) eqn:He; [exact dashed_site|].
  apply String.eqb_neq in He. apply dashed_strip; [apply allChars_dashed|exact He].
Qed.

Lemma dashed_part n slug :
  Shape.dashedName slug -> (1 <= n)%nat ->
  Shape.dashedName (Js.stripTrailing "-" (Js.take n slug)).
Proof.
  intros (Hne & Hchars & Hstart & Hend & Hrun) Hn.
  destruct n as [|n]; [lia|]. destruct slug as [|c slug]; [congruence|].
  rewrite startsWith_dash in Hstart.
  assert (Hhead : Js.stripTrailing "-" (Js.take (S n) (String c slug)) <> EmptyString).
  { cbn [Js.take]. rewrite stripTrailing_cons.
    destruct (Js.stripTrailing "-" (Js.take n slug)); [rewrite Hstart|]; discriminate. }
  split; [exact Hhead|]. split; [|split; [|split]].
  - now apply allChars_stripTrailing, allChars_take.
  - apply startsWith_stripTrailing. cbn [Js.take]. now rewrite startsWith_dash.
  - apply endsWith_stripTrailing.
  - now apply noRun_stripTrailing, noRun_take.
Qed.

Lemma dashed_join a b :
  Shape.dashedName a -> b <> EmptyString ->
  Js.allChars Js.isLabelChar b = true -> Js.startsWith b "-" = false ->
  Js.endsWith b "-" = false -> Js.includes b "--" = false ->
  Shape.dashedName (a +:+ "-" +:+ b).
Proof.
  intros (Hne & Hchars & Hstart & Hend & Hrun) Hb Hcb Hsb Heb Hrb.
  assert (Htail : Js.includes ("-" +:+ b) "--" = false).
  { rewrite app_cons, app_empty, includes_cons, Hrb, orb_false_r, prefix_dashes.
    rewrite startsWith_dash in Hsb. destruct b; [reflexivity|exact Hsb]. }
  split; [now apply app_nonempty|]. split; [|split; [|split]].
  - rewrite !allChars_app, Hchars, Hcb. reflexivity.
  - now rewrite startsWith_app.
  - rewrite endsWith_app by (rewrite app_cons; discriminate).
    rewrite app_cons, app_empty, endsWith_cons, Heb, orb_false_r.
    destruct b as [|c b]; [congruence|apply eqb_two].
  - apply noRun_app; auto.
Qed.

Lemma buildName_parts prefix slug hash maxLen :
  Shape.dashedName prefix -> Shape.dashedName slug ->
  hash <> EmptyString -> Js.allChars Js.isLowerAlnum hash = true ->
  let budget := maxLen - Z.of_nat (String.length prefix + 2 + String.length hash) in
  let part := Js.stripTrailing "-" (Js.take (Z.to_nat (Z.max 1 budget)) slug) in
  ResolveConfig.buildName prefix slug hash maxLen = prefix +:+ "-" +:+ part +:+ "-" +:+ hash
  /\ Shape.dashedName part
  /\ Shape.dashedName (ResolveConfig.buildName prefix slug hash maxLen).
Proof.
  intros Hprefix Hslug Hne Hhash budget part.
  assert (Hfixed : maxLen - Z.of_nat (String.length (prefix +:+ "--" +:+ hash)) = budget).
  { unfold budget. rewrite !length_append. simpl String.length. f_equal. lia. }
  assert (Hpart : Shape.dashedName part) by (apply dashed_part; [exact Hslug|lia]).
  assert (Hdash : Js.hasChar "-" hash = false)
    by (apply (allChars_hasChar Js.isLowerAlnum); [exact Hhash|reflexivity]).
  assert (Hinner : Shape.dashedName (part +:+ "-" +:+ hash)).
  { apply dashed_join; try assumption.
    - now apply (allChars_impl Js.isLowerAlnum), Hhash; apply isLowerAlnum_label.
    - rewrite startsWith_dash. destruct hash as [|c hash]; [reflexivity|].
      cbn [Js.hasChar] in Hdash. now apply orb_false_iff in Hdash as [Hc _].
    - now apply endsWith_hasChar.
    - now apply hasChar_includes_false. }
  assert (Hall : Shape.dashedName (prefix +:+ "-" +:+ part +:+ "-" +:+ hash)).
  { destruct Hinner as (H1 & H2 & H3 & H4 & H5). now apply dashed_join. }
  assert (Heq : ResolveConfig.buildName prefix slug hash maxLen
                = prefix +:+ "-" +:+ part +:+ "-" +:+ hash).
  { unfold ResolveConfig.buildName. cbv zeta. rewrite Hfixed.
    apply collapseDashes_id. now destruct Hall as (_ & _ & _ & _ & Hrun). }
  split; [exact Heq|]. split; [exact Hpart|]. now rewrite Heq.
Qed.

(** X11. For a prefix and a slug made of lower-case letters, digits and
    single inner dashes, and a hash of lower-case letters and digits,
    [buildName] is exactly [prefix-part-hash], where [part] is the slug cut
    to the budget without the dashes at its end: the final collapse of
    dashes changes nothing, so prefix and hash are kept whole. The name is
    again of that form, and its length is at most [maxLen] or, when prefix
    and hash leave no room, three more than prefix and hash together. *)
Theorem buildName_exact prefix slug hash maxLen :
  Shape.dashedName prefix -> Shape.dashedName slug ->
  hash <> EmptyString -> Js.allChars Js.isLowerAlnum hash = true ->
  let budget := maxLen - Z.of_nat (String.length prefix + 2 + String.length hash) in
  let part := Js.stripTrailing "-" (Js.take (Z.to_nat (Z.max 1 budget)) slug) in
  let name := ResolveConfig.buildName prefix slug hash maxLen in
  name = prefix +:+ "-" +:+ part +:+ "-" +:+ hash
  /\ Shape.dashedName part
  /\ Shape.dashedName name
  /\ Z.of_nat (String.length name)
     <= Z.max maxLen (Z.of_nat (String.length prefix + 3 + String.length hash)).
Proof.
  intros Hprefix Hslug Hne Hhash budget part name.
  destruct (buildName_parts prefix slug hash maxLen Hprefix Hslug Hne Hhash)
    as (Heq & Hpart & Hname).
  fold budget in Heq, Hpart. fold part in Heq, Hpart. fold name in Heq, Hname.
  repeat (split; [assumption|]).
  rewrite Heq, !length_append. simpl String.length.
  pose proof (length_stripTrailing "-" (Js.take (Z.to_nat (Z.max 1 budget)) slug)) as Hs.
  pose proof (length_take (Z.to_nat (Z.max 1 budget)) slug) as Ht.
  fold part in Hs. unfold budget in *. lia.
Qed.

Lemma isHexChar_lowerAlnum c : Shape.isHexChar c = true -> Js.isLowerAlnum c = true.
Proof. destruct c as [[] [] [] [] [] [] [] []]; vm_compute; congruence. Qed.

Lemma length_take_exact n s :
  (n <= String.length s)%nat -> String.length (Js.take n s) = n.
Proof.
  revert s. induction n as [|n IH]; intros [|c s]; cbn [Js.take String.length];
    try reflexivity; try lia.
  intros Hn. rewrite IH; [reflexivity|lia].
Qed.

Lemma orElse_empty b : Resolver.orElse EmptyString b = b.
Proof. reflexivity. Qed.

Lemma take_all n s : (String.length s <= n)%nat -> Js.take n s = s.
Proof.
  revert s. induction n as [|n IH]; intros [|c s]; cbn [Js.take String.length];
    try reflexivity; try lia.
  intros Hn. rewrite IH; [reflexivity|lia].
Qed.

Lemma stripTrailing_noop c s :
  Js.endsWith s (String c EmptyString) = false -> Js.stripTrailing c s = s.
Proof.
  induction s as [|a s IH]; [reflexivity|].
  rewrite endsWith_cons, stripTrailing_cons. intros He.
  apply orb_false_iff in He as [Ha Hs]. rewrite (IH Hs).
  destruct s as [|b r]; [|reflexivity].
  rewrite eqb_one in Ha. now rewrite Ha.
Qed.

Lemma derived_name sha256hex prefix domain :
  (forall s, (8 <= String.length (sha256hex s))%nat
             /\ Js.allChars Shape.isHexChar (sha256hex s) = true) ->
  Shape.dashedName prefix -> (String.length prefix <= 11)%nat ->
  Shape.derivedName prefix (Resolver.slugifyDomain domain)
    (Resolver.shortHash sha256hex domain) (53 - String.length prefix)
    (ResolveConfig.buildName prefix (Resolver.slugifyDomain domain)
       (Resolver.shortHash sha256hex domain) 63).
Proof.
  intros Hsha Hprefix Hlen. destruct (Hsha domain) as [Hlong Hhex].
  assert (Hlh : String.length (Resolver.shortHash sha256hex domain) = 8%nat)
    by now apply length_take_exact.
  assert (Hne : Resolver.shortHash sha256hex domain <> EmptyString).
  { intros He. rewrite He in Hlh. discriminate. }
  assert (Hchars : Js.allChars Js.isLowerAlnum (Resolver.shortHash sha256hex domain) = true).
  { apply (allChars_impl Shape.isHexChar); [apply isHexChar_lowerAlnum|].
    now apply allChars_take. }
  assert (Hslug : Shape.dashedName (Resolver.slugifyDomain domain)).
  { unfold Resolver.slugifyDomain. cbv zeta.
    destruct (String.eqb _ EmptyString) eqn:He; [exact dashed_site|].
    apply String.eqb_neq in He. apply dashed_strip; [apply allChars_dashed|exact He]. }
  destruct (buildName_parts prefix (Resolver.slugifyDomain domain)
              (Resolver.shortHash sha256hex domain) 63 Hprefix
              Hslug Hne Hchars) as (Heq & Hpart & Hname).
  rewrite Hlh in Heq.
  replace (Z.to_nat (Z.max 1 (63 - Z.of_nat (String.length prefix + 2 + 8))))
    with (53 - String.length prefix)%nat in Heq by lia.
  split; [exact Heq|]. split; [|split; [exact Hname|]].
  - intros Hroom. rewrite Heq, (take_all _ _ Hroom), stripTrailing_noop; [reflexivity|].
    now destruct Hslug as (_ & _ & _ & Hend & _).
  - rewrite Heq, !length_append. simpl String.length.
    pose proof (length_stripTrailing "-"
                  (Js.take (53 - String.length prefix) (Resolver.slugifyDomain domain))) as Hs.
    pose proof (length_take (53 - String.length prefix) (Resolver.slugifyDomain domain)) as Ht.
    rewrite Hlh. lia.
Qed.

(** X12. With a digest of at least eight hexadecimal characters, the names
    the resolver derives when no override is given are, for [worker_name],
    [inkrypt-api], the slug of the domain cut to 42 characters without the
    dashes the cut leaves at its end, and the first eight characters of the
    digest of the domain, joined by dashes, and for [d1_name] the same with
    [inkrypt] and 46 characters; a slug that fits is kept whole. The names
    are made of lower-case letters, digits and single inner dashes and have
    at most 63 characters. *)
Theorem derived_names_valid (sha256hex : string -> string) args env domain :
  (forall s, (8 <= String.length (sha256hex s))%nat
             /\ Js.allChars Shape.isHexChar (sha256hex s) = true) ->
  let outs := Resolver.resolveOutputs sha256hex args env domain in
  let slug := Resolver.slugifyDomain domain in
  let hash := Js.take 8 (sha256hex domain) in
  String.length hash = 8%nat
  /\ (Resolver.setting args env "worker-name" "INKRYPT_WORKER_NAME" EmptyString = EmptyString ->
      exists name, In ("worker_name", name) outs
                   /\ Shape.derivedName "inkrypt-api" slug hash 42 name)
  /\ (Resolver.setting args env "d1-name" "INKRYPT_D1_NAME" EmptyString = EmptyString ->
      exists name, In ("d1_name", name) outs
                   /\ Shape.derivedName "inkrypt" slug hash 46 name).
Proof.
  intros Hsha outs slug hash.
  split; [apply length_take_exact, Hsha|]. split.
  - intros Hnone. eexists. split.
    + unfold outs, Resolver.resolveOutputs. cbv zeta. rewrite Hnone, orElse_empty.
      do 6 right. left. reflexivity.
    + apply (derived_name sha256hex "inkrypt-api" domain); [exact Hsha| |simpl; lia].
      unfold Shape.dashedName. repeat split; try reflexivity. discriminate.
  - intros Hnone. eexists. split.
    + unfold outs, Resolver.resolveOutputs. cbv zeta. rewrite Hnone, orElse_empty.
      do 7 right. left. reflexivity.
    + apply (derived_name sha256hex "inkrypt" domain); [exact Hsha| |simpl; lia].
      unfold Shape.dashedName. repeat split; try reflexivity. discriminate.
Qed.

End MoreNameFacts.

(** ** The whole run of cf-api.mjs *)

Section ProcessFacts.
Context `{Platform}.

Section Kept.
Variable R : Proc -> Proc -> Prop.
Hypothesis R_refl : forall p, R p p.
Hypothesis R_trans : forall p q r, R p q -> R q r -> R p r.
Variable token : string.
Hypothesis R_cf : forall method path query body,
  Js.startsWith path "/zones" = true ->
  Shape.keeps R (CfApi.cf token method path query body).

Lemma keeps_bind {A B : Type} (m : M A) (k : A -> M B) :
  Shape.keeps R m -> (forall a, Shape.keeps R (k a)) -> Shape.keeps R (bind m k).
Proof.
  intros Hm Hk p. rewrite bind_run. specialize (Hm p).
  destruct (m p) as [p1 [a|e|n|]]; cbn [fst] in *; try exact Hm.
  exact (R_trans _ _ _ Hm (Hk a p1)).
Qed.

Lemma keeps_lift {A : Type} (c : completion A) : Shape.keeps R (lift c).
Proof. intros p. apply R_refl. Qed.

Lemma keeps_resolveZone_loop normalized names :
  Shape.keeps R (CfApi.resolveZone_loop token normalized names).
Proof.
  induction names as [|name rest IH]; cbn [CfApi.resolveZone_loop].
  - apply keeps_lift.
  - apply keeps_bind; [now apply R_cf|]. intros result. cbv zeta.
    destruct (negb (toBoolean _)); [exact IH|apply keeps_lift].
Qed.

Lemma keeps_resolveZone fuel domain : Shape.keeps R (CfApi.resolveZone fuel token domain).
Proof.
  unfold CfApi.resolveZone. apply keeps_bind; [apply keeps_lift|].
  intros normalized. cbv zeta.
  destruct (_ <? _)%nat; [apply keeps_lift|apply keeps_resolveZone_loop].
Qed.

Lemma zones_path rest : Js.startsWith ("/zones/" +:+ rest) "/zones" = true.
Proof. reflexivity. Qed.

Lemma keeps_ensureDnsA zoneId recordName ip proxied force :
  Shape.keeps R (CfApi.ensureDnsA token zoneId recordName ip proxied force).
Proof.
  unfold CfApi.ensureDnsA. apply keeps_bind; [apply R_cf, zones_path|].
  intros records. cbv zeta.
  destruct (_ <? _)%nat; [apply keeps_lift|].
  destruct (arrayOrEmpty records) as [|record rest].
  - apply keeps_bind; [apply R_cf, zones_path|]. intros; apply keeps_lift.
  - destruct (CfApi.recordMatches _ _ _ _).
    + apply keeps_bind; [apply keeps_lift|intros; apply keeps_lift].
    + destruct (negb force); [apply keeps_lift|].
      apply keeps_bind; [apply keeps_lift|].
      intros rid. apply keeps_bind; [|intros; apply keeps_lift].
      apply R_cf. unfold CfApi.dnsRecordsPath. apply zones_path.
Qed.

Lemma keeps_routes_loop zoneId workerName routes force patterns :
  Shape.keeps R (CfApi.ensureWorkerRoutes_loop token zoneId workerName routes force patterns).
Proof.
  induction patterns as [|pattern rest IH]; cbn [CfApi.ensureWorkerRoutes_loop].
  - apply keeps_lift.
  - cbv zeta. destruct (negb (toBoolean _)).
    + apply keeps_bind; [apply R_cf, zones_path|]. intros _. exact IH.
    + destruct (strictEqStr _ _); [exact IH|].
      destruct (negb force); [apply keeps_lift|].
      apply keeps_bind; [|intros _; exact IH].
      apply R_cf. unfold CfApi.routesPath. apply zones_path.
Qed.

Lemma keeps_ensureWorkerRoutes zoneId workerName patterns force :
  Shape.keeps R (CfApi.ensureWorkerRoutes token zoneId workerName patterns force).
Proof.
  unfold CfApi.ensureWorkerRoutes. apply keeps_bind; [apply R_cf, zones_path|].
  intros routes. apply keeps_routes_loop.
Qed.

End Kept.

Lemma adds_refl P p : Shape.adds P p p.
Proof. exists []. now rewrite app_nil_r. Qed.

Lemma adds_trans P p q r : Shape.adds P p q -> Shape.adds P q r -> Shape.adds P p r.
Proof.
  intros (c1 & H1 & F1) (c2 & H2 & F2). exists (c1 ++ c2).
  split; [now rewrite H2, H1, app_assoc|]. now apply Forall_app.
Qed.

Lemma adds_cf token method path query body :
  Js.startsWith path "/zones" = true ->
  Shape.keeps (Shape.adds (Shape.apiCall token)) (CfApi.cf token method path query body).
Proof.
  intros Hpath p.
  destruct (cf_step token method path query body p) as (p1 & r & Hcf & Hreq & _).
  rewrite Hcf. exists [CfApi.cfRequest token method path query body].
  split; [exact Hreq|]. constructor; [|constructor].
  split; [|split; reflexivity]. cbn [CfApi.cfRequest req_url].
  unfold Js.startsWith in *.
  destruct path as [|a path]; [discriminate|].
  revert Hpath. generalize (String a path). intros s Hs.
  change ("https://api.cloudflare.com/client/v4/zones")
    with ("https://api.cloudflare.com/client/v4" +:+ "/zones").
  generalize "https://api.cloudflare.com/client/v4". intros base.
  induction base as [|c base IH]; [exact Hs|].
  rewrite !app_cons, prefix_cons, Ascii.eqb_refl. exact IH.
Qed.

Lemma quiet_cf token method path query body :
  Shape.keeps Shape.sameStreams (CfApi.cf token method path query body).
Proof.
  intros p.
  destruct (cf_step token method path query body p) as (p1 & r & Hcf & _ & Hsame).
  now rewrite Hcf.
Qed.

Lemma adds_same_requests P p q : requests q = requests p -> Shape.adds P p q.
Proof. intros Hq. exists []. now rewrite app_nil_r. Qed.

Lemma adds_tail P (m : M unit) :
  (forall p, requests (m p).1 = requests p) -> Shape.keeps (Shape.adds P) m.
Proof. intros Hm p. apply adds_same_requests, Hm. Qed.

Lemma adds_githubOutput P env key value :
  Shape.keeps (Shape.adds P) (CfApi.githubOutput env key value).
Proof.
  apply adds_tail. intros p. unfold CfApi.githubOutput.
  destruct (negb _); [reflexivity|]. cbv zeta.
  destruct (appendFile _ _ _ _) as [w' [message|]]; reflexivity.
Qed.

Lemma adds_writeOut P s : Shape.keeps (Shape.adds P) (writeOut s).
Proof. apply adds_tail. reflexivity. Qed.

Lemma adds_resolveZoneCommand fuel args env token :
  Shape.keeps (Shape.adds (Shape.apiCall token))
    (CfApi.resolveZoneCommand fuel args env token).
Proof.
  pose proof (adds_refl (Shape.apiCall token)) as Hr.
  pose proof (adds_trans (Shape.apiCall token)) as Ht.
  unfold CfApi.resolveZoneCommand.
  apply keeps_bind; [exact Ht|now apply keeps_lift|]. intros domain.
  apply keeps_bind; [exact Ht| |].
  { apply (keeps_resolveZone _ Hr Ht token). intros. now apply adds_cf. }
  intros zone. repeat (apply keeps_bind; [exact Ht|apply adds_githubOutput|intros _]).
  apply keeps_bind; [exact Ht|apply adds_writeOut|intros _]. now apply keeps_lift.
Qed.

Lemma adds_ensureDnsACommand fuel args env token :
  Shape.keeps (Shape.adds (Shape.apiCall token))
    (CfApi.ensureDnsACommand fuel args env token).
Proof.
  pose proof (adds_refl (Shape.apiCall token)) as Hr.
  pose proof (adds_trans (Shape.apiCall token)) as Ht.
  unfold CfApi.ensureDnsACommand. cbv zeta.
  apply keeps_bind; [exact Ht|now apply keeps_lift|]. intros name.
  destruct (String.eqb _ EmptyString); [now apply keeps_lift|].
  destruct (String.eqb _ EmptyString); [now apply keeps_lift|].
  apply keeps_bind; [exact Ht| |].
  { apply (keeps_ensureDnsA _ Hr Ht token). intros. now apply adds_cf. }
  intros dns. apply keeps_bind; [exact Ht|apply adds_writeOut|intros _].
  now apply keeps_lift.
Qed.

Lemma adds_ensureWorkerRoutesCommand args env token :
  Shape.keeps (Shape.adds (Shape.apiCall token))
    (CfApi.ensureWorkerRoutesCommand args env token).
Proof.
  pose proof (adds_refl (Shape.apiCall token)) as Hr.
  pose proof (adds_trans (Shape.apiCall token)) as Ht.
  unfold CfApi.ensureWorkerRoutesCommand. cbv zeta.
  destruct (String.eqb _ EmptyString); [now apply keeps_lift|].
  destruct (String.eqb _ EmptyString); [now apply keeps_lift|].
  destruct (CfApi.collectPatterns args) as [|pattern rest]; [now apply keeps_lift|].
  apply keeps_bind; [exact Ht| |].
  { apply (keeps_ensureWorkerRoutes _ Hr Ht token). intros. now apply adds_cf. }
  intros _. apply keeps_bind; [exact Ht|apply adds_writeOut|intros _].
  now apply keeps_lift.
Qed.

(** X13. Every request of a run of cf-api.mjs carries the token of
    [--token] or of the environment in its [Authorization] header, and its
    URL is what [new URL] makes of a text that starts with the zone
    endpoints of the Cloudflare API; there is no request unless the
    arguments name one of the three sub-commands and a token is at hand. *)
Theorem process_calls fuel argv env p :
  exists calls,
    requests (CfApi.runProcess fuel argv env p).1 = requests p ++ calls
    /\ (calls <> [] ->
        exists args token,
          CfApi.parseArgs argv = Normal args
          /\ CfApi.getToken args env = Normal token
          /\ Shape.knownCommand (CfApi.command args)
          /\ Forall (Shape.apiCall token) calls).
Proof.
  assert (Hrun : requests (CfApi.runProcess fuel argv env p).1
                 = requests (CfApi.main fuel argv env p).1).
  { unfold CfApi.runProcess. now destruct (CfApi.main fuel argv env p) as [q [[]|e|n|]]. }
  rewrite Hrun, main_dispatch.
  assert (Hnone : forall q : Proc * completion unit,
            requests q.1 = requests p ->
            exists calls,
              requests q.1 = requests p ++ calls
              /\ (calls <> [] ->
                  exists args token,
                    CfApi.parseArgs argv = Normal args
                    /\ CfApi.getToken args env = Normal token
                    /\ Shape.knownCommand (CfApi.command args)
                    /\ Forall (Shape.apiCall token) calls)).
  { intros q Hq. exists []. rewrite app_nil_r. split; [exact Hq|congruence]. }
  destruct (CfApi.parseArgs argv) as [args|e|n|]; try (now apply Hnone).
  cbv zeta. destruct (negb (toBoolean _)); [now apply Hnone|].
  destruct (CfApi.getToken args env) as [token|e|n|] eqn:Htoken; try (now apply Hnone).
  assert (Hsome : forall m : M unit,
            Shape.knownCommand (CfApi.command args) ->
            Shape.keeps (Shape.adds (Shape.apiCall token)) m ->
            exists calls,
              requests (m p).1 = requests p ++ calls
              /\ (calls <> [] ->
                  exists args0 token0,
                    Normal args = Normal args0
                    /\ CfApi.getToken args0 env = Normal token0
                    /\ Shape.knownCommand (CfApi.command args0)
                    /\ Forall (Shape.apiCall token0) calls)).
  { intros m Hcmd Hm. destruct (Hm p) as (calls & Hreq & Hall).
    exists calls. split; [exact Hreq|]. intros _. exists args, token. auto. }
  destruct (strictEqStr _ "resolve-zone") eqn:H1.
  { apply strictEqStr_true in H1.
    apply (Hsome (CfApi.resolveZoneCommand fuel args env token)); [now left|].
    apply adds_resolveZoneCommand. }
  destruct (strictEqStr _ "ensure-dns-a") eqn:H2.
  { apply strictEqStr_true in H2.
    apply (Hsome (CfApi.ensureDnsACommand fuel args env token)); [right; now left|].
    apply adds_ensureDnsACommand. }
  destruct (strictEqStr _ "ensure-worker-routes") eqn:H3.
  { apply strictEqStr_true in H3.
    apply (Hsome (CfApi.ensureWorkerRoutesCommand args env token)); [right; now right|].
    apply adds_ensureWorkerRoutesCommand. }
  now apply Hnone.
Qed.

End ProcessFacts.

(** ** What a run writes *)

Section StreamFacts.
Context `{Platform}.

Lemma quiet_resolveZone fuel token domain :
  Shape.keeps Shape.sameStreams (CfApi.resolveZone fuel token domain).
Proof.
  apply (keeps_resolveZone _ sameStreams_refl sameStreams_trans token).
  intros. apply quiet_cf.
Qed.

Lemma quiet_ensureDnsA token zoneId recordName ip proxied force :
  Shape.keeps Shape.sameStreams (CfApi.ensureDnsA token zoneId recordName ip proxied force).
Proof.
  apply (keeps_ensureDnsA _ sameStreams_refl sameStreams_trans token).
  intros. apply quiet_cf.
Qed.

Lemma quiet_ensureWorkerRoutes token zoneId workerName patterns force :
  Shape.keeps Shape.sameStreams
    (CfApi.ensureWorkerRoutes token zoneId workerName patterns force).
Proof.
  apply (keeps_ensureWorkerRoutes _ sameStreams_refl sameStreams_trans token).
  intros. apply quiet_cf.
Qed.

Lemma reports_bind {A : Type} (m : M A) (k : A -> M unit) :
  Shape.keeps Shape.sameStreams m -> Ends.never Ends.ByExit m ->
  (forall a, Shape.reports (k a)) -> Shape.reports (bind m k).
Proof.
  intros Hquiet Hnever Hk p. rewrite bind_run.
  specialize (Hquiet p). specialize (Hnever p).
  destruct (m p) as [p1 [a|e|n|]]; cbn [fst snd] in *;
    destruct Hquiet as (Ho & He & Hw).
  - destruct (Hk a p1) as [(Hend & Hline & Herr & Hout)|(Hfail & Hso & Hse & Hout)].
    + left. rewrite <- Ho, <- He, <- Hw. auto.
    + right. rewrite <- Ho, <- He, <- Hw. auto.
  - right. split; [exact I|]. split; [exact Ho|]. split; [exact He|].
    exists []. rewrite app_nil_r. split; [now left|exact Hw].
  - exfalso. apply Hnever. exact I.
  - right. split; [exact I|]. split; [exact Ho|]. split; [exact He|].
    exists []. rewrite app_nil_r. split; [now left|exact Hw].
Qed.

Lemma reports_throw e : Shape.reports (throw e).
Proof.
  intros p. right. split; [exact I|]. split; [reflexivity|]. split; [reflexivity|].
  exists []. cbn. rewrite app_nil_r. split; [now left|reflexivity].
Qed.

Lemma reports_done s : Shape.reports (do* writeOut s in exit 0).
Proof.
  intros p. left. cbn. split; [reflexivity|]. split; [eauto|].
  split; [reflexivity|]. exists []. rewrite app_nil_r. split; [now left|reflexivity].
Qed.

Lemma quiet_lift {A : Type} (c : completion A) : Shape.keeps Shape.sameStreams (lift c).
Proof. intros p. apply sameStreams_refl. Qed.

Lemma cutShort_zone zone n :
  (n < 3)%nat -> Shape.cutShort (Shape.zoneEntries zone) (List.firstn n (Shape.zoneEntries zone)).
Proof.
  intros Hn. exists (List.skipn n (Shape.zoneEntries zone)).
  split; [|now rewrite List.firstn_skipn].
  destruct n as [|[|[|n]]]; [discriminate..|lia].
Qed.

(** The end of [resolve-zone]: the three appends, each of which may throw,
    then the line, then [process.exit(0)]. *)
Lemma reports_zone_tail env zone line :
  Shape.reports
    (do* CfApi.githubOutput env "zone_id" (CfApi.zone_id zone) in
     do* CfApi.githubOutput env "zone_name" (CfApi.zone_name zone) in
     do* CfApi.githubOutput env "account_id" (CfApi.account_id zone) in
     do* writeOut line in
     exit 0).
Proof.
  intros p. unfold bind, CfApi.githubOutput, writeOut, exit, lift.
  destruct (toBoolean (envVar env "GITHUB_OUTPUT")) eqn:Hgh; cbn [negb].
  2:{ left. cbn. split; [reflexivity|]. split; [eauto|]. split; [reflexivity|].
      exists []. rewrite app_nil_r. split; [now left|reflexivity]. }
  cbv zeta.
  destruct (appendFile (world p) _ "zone_id" _) as [w1 [m1|]]; cbn.
  { right. split; [exact I|]. split; [reflexivity|]. split; [reflexivity|].
    exists []. rewrite app_nil_r. split; [now left|reflexivity]. }
  destruct (appendFile w1 _ "zone_name" _) as [w2 [m2|]]; cbn.
  { right. split; [exact I|]. split; [reflexivity|]. split; [reflexivity|].
    eexists. split; [|reflexivity]. right. exists zone. exact (cutShort_zone zone 1 ltac:(lia)). }
  destruct (appendFile w2 _ "account_id" _) as [w3 [m3|]]; cbn.
  { right. split; [exact I|]. split; [reflexivity|]. split; [reflexivity|].
    eexists. split; [|now rewrite <- app_assoc]. right. exists zone.
    exact (cutShort_zone zone 2 ltac:(lia)). }
  left. split; [reflexivity|]. split; [eauto|]. split; [reflexivity|].
  eexists. split; [right; exists zone; reflexivity|]. now rewrite <- !app_assoc.
Qed.

Lemma reports_resolveZoneCommand fuel args env token :
  Shape.reports (CfApi.resolveZoneCommand fuel args env token).
Proof.
  unfold CfApi.resolveZoneCommand.
  apply reports_bind; [apply quiet_lift| |].
  { apply never_lift, cfapi_normalize_never_exits. }
  intros domain.
  apply reports_bind;
    [apply quiet_resolveZone|apply never_resolveZone, cfapi_normalize_never_exits|].
  intros zone. apply reports_zone_tail.
Qed.

Lemma reports_ensureDnsACommand fuel args env token :
  Shape.reports (CfApi.ensureDnsACommand fuel args env token).
Proof.
  unfold CfApi.ensureDnsACommand. cbv zeta.
  apply reports_bind; [apply quiet_lift| |].
  { apply never_lift, cfapi_normalize_never_exits. }
  intros name.
  destruct (String.eqb _ EmptyString); [apply reports_throw|].
  destruct (String.eqb _ EmptyString); [apply reports_throw|].
  apply reports_bind; [apply quiet_ensureDnsA|apply never_ensureDnsA|].
  intros dns. apply reports_done.
Qed.

Lemma reports_ensureWorkerRoutesCommand args env token :
  Shape.reports (CfApi.ensureWorkerRoutesCommand args env token).
Proof.
  unfold CfApi.ensureWorkerRoutesCommand. cbv zeta.
  destruct (String.eqb _ EmptyString); [apply reports_throw|].
  destruct (String.eqb _ EmptyString); [apply reports_throw|].
  destruct (CfApi.collectPatterns args) as [|pattern rest]; [apply reports_throw|].
  apply reports_bind; [apply quiet_ensureWorkerRoutes|apply never_ensureWorkerRoutes|].
  intros _. apply reports_done.
Qed.

(** X14. A run of cf-api.mjs writes to the output stream only when it ends
    with exit code 0: it has then written exactly one line to it, nothing
    to the error stream, and as step outputs none or the three of a zone
    ([zone_id], [zone_name], [account_id]). With any other end the output
    stream is as before, and the step outputs written are none or the
    first or the first two of a zone: a write to the file of step outputs
    that fails ends the run with what was written before it. *)
Theorem process_outputs fuel argv env p :
  let run := CfApi.runProcess fuel argv env p in
  (run.2 = Some 0 ->
   (exists line, stdout run.1 = stdout p ++ [line])
   /\ stderr run.1 = stderr p
   /\ exists entries, Shape.zoneWritten entries /\ outputs run.1 = outputs p ++ entries)
  /\ (run.2 <> Some 0 ->
      stdout run.1 = stdout p
      /\ exists entries, Shape.zoneCutShort entries /\ outputs run.1 = outputs p ++ entries).
Proof.
  cbv zeta. unfold CfApi.runProcess. rewrite main_dispatch.
  set (ok := fun (run : Proc * option Z) =>
    (run.2 = Some 0 ->
     (exists line, stdout run.1 = stdout p ++ [line])
     /\ stderr run.1 = stderr p
     /\ exists entries, Shape.zoneWritten entries /\ outputs run.1 = outputs p ++ entries)
    /\ (run.2 <> Some 0 ->
        stdout run.1 = stdout p
        /\ exists entries,
             Shape.zoneCutShort entries /\ outputs run.1 = outputs p ++ entries)).
  assert (Hhandler : forall m : M unit,
    Shape.reports m ->
    ok (match m p with
        | (p', Exit n) => (p', Some n)
        | (p', Normal _) => (p', Some 0)
        | (p', Throw e) =>
            (mkProc _ (world p') (requests p') (stdout p')
               (stderr p' ++ [CfApi.uncaughtReport e]) (outputs p'), Some 1)
        | (p', OutOfFuel) => (p', None)
        end)).
  { intros m Hm.
    destruct (Hm p) as [(Hend & Hline & Herr & Hout)|(Hfail & Hso & Hse & Hout)].
    - destruct (m p) as [q r]. cbn [fst snd] in *. subst r. split; cbn [fst snd].
      + auto.
      + congruence.
    - destruct (m p) as [q [[]|e|n|]]; cbn [fst snd] in *; try contradiction;
        (split; cbn [fst snd stdout outputs]; [discriminate|auto]). }
  assert (Hplain : forall (q : Proc) (code : Z),
    code <> 0 -> stdout q = stdout p -> outputs q = outputs p -> ok (q, Some code)).
  { intros q code Hcode Ho Hw. split; cbn [fst snd]; [congruence|].
    intros _. split; [exact Ho|]. exists []. rewrite app_nil_r. split; [now left|exact Hw]. }
  enough (Hok : ok
    (match
       match CfApi.parseArgs argv with
       | Normal args =>
           let cmd := CfApi.command args in
           if negb (toBoolean cmd) then Ends.usageEnd p []
           else
             match CfApi.getToken args env with
             | Normal token =>
                 if strictEqStr cmd "resolve-zone"
                 then CfApi.resolveZoneCommand fuel args env token p
                 else if strictEqStr cmd "ensure-dns-a"
                 then CfApi.ensureDnsACommand fuel args env token p
                 else if strictEqStr cmd "ensure-worker-routes"
                 then CfApi.ensureWorkerRoutesCommand args env token p
                 else Ends.usageEnd p ["Unknown command: " +:+ toString cmd +:+ nl]
             | Throw e => (p, Throw e)
             | Exit n => (p, Exit n)
             | OutOfFuel => (p, OutOfFuel)
             end
       | Throw e => (p, Throw e)
       | Exit n => (p, Exit n)
       | OutOfFuel => (p, OutOfFuel)
       end
     with
     | (p', Exit n) => (p', Some n)
     | (p', Normal _) => (p', Some 0)
     | (p', Throw e) =>
         (mkProc _ (world p') (requests p') (stdout p')
            (stderr p' ++ [CfApi.uncaughtReport e]) (outputs p'), Some 1)
     | (p', OutOfFuel) => (p', None)
     end)) by exact Hok.
  destruct (parseArgs_result argv) as [[args Hargs]|[e Hargs]]; rewrite Hargs;
    [|now apply Hplain].
  cbv zeta. destruct (negb (toBoolean _)).
  { unfold Ends.usageEnd. now apply Hplain. }
  destruct (getToken_result args env) as [[token Htoken]|Htoken]; rewrite Htoken;
    [|now apply Hplain].
  destruct (strictEqStr _ "resolve-zone").
  { apply (Hhandler (CfApi.resolveZoneCommand fuel args env token)).
    apply reports_resolveZoneCommand. }
  destruct (strictEqStr _ "ensure-dns-a").
  { apply (Hhandler (CfApi.ensureDnsACommand fuel args env token)).
    apply reports_ensureDnsACommand. }
  destruct (strictEqStr _ "ensure-worker-routes").
  { apply (Hhandler (CfApi.ensureWorkerRoutesCommand args env token)).
    apply reports_ensureWorkerRoutesCommand. }
  unfold Ends.usageEnd. now apply Hplain.
Qed.

End StreamFacts.

(** ** The run of the configuration resolver *)

Section ResolverFacts.
Context `{Platform}.
Variable sha256hex : string -> string.
Variable JSON_pretty : jsval -> string.





End ResolverFacts.

(** ** The further properties at work *)

Section MoreExamples.
#[local] Existing Instance Demo.platform.

(** The sub-command is the only token that is neither a flag nor a value. *)
Lemma parseArgs_positionals_witness :
  ~ In "--_" Demo.routeArgv
  /\ exists args,
       CfApi.parseArgs Demo.routeArgv = Normal args
       /\ args !! "_" = Some (JArr [JStr "ensure-worker-routes"])
       /\ CfApi.command args = JStr "ensure-worker-routes".
Proof.
  assert (Hno : ~ In "--_" Demo.routeArgv).
  { intros Hin. repeat (destruct Hin as [Heq|Hin]; [discriminate Heq|]). exact Hin. }
  split; [exact Hno|].
  destruct (parseArgs_positionals Demo.routeArgv Hno) as (args & Hparse & Hpos & Hcmd).
  exists args. split; [exact Hparse|]. split; [exact Hpos|exact Hcmd].
Defined.

(** [--zone-id z1] is read as a value, [--force] as a switch, and [--ip] is
    missing. *)
Lemma parseArgs_flag_value_witness :
  "zone-id" <> "_" /\ "zone-id" <> "__proto__"
  /\ CfApi.parseArgs Demo.routeArgv = Normal Demo.routeArgs
  /\ Demo.routeArgs !! "zone-id" = Some (JStr "z1").
Proof.
  assert (Hkey : "zone-id" <> "_") by discriminate.
  assert (Hown : "zone-id" <> "__proto__") by discriminate.
  assert (Hparse : CfApi.parseArgs Demo.routeArgv = Normal Demo.routeArgs) by reflexivity.
  split; [exact Hkey|]. split; [exact Hown|]. split; [exact Hparse|].
  destruct (parseArgs_flag_value "zone-id" Demo.routeArgv Demo.routeArgs Hkey Hown Hparse)
    as (_ & Hvalue & _).
  apply (Hvalue ["ensure-worker-routes"] "z1"
           ["--worker-name"; "inkrypt-api"; "--route"; "a.example.com/*";
            "--route"; "b.example.com/*, c.example.com/*"; "--force"]);
    [reflexivity|reflexivity|].
  intros Hin. repeat (destruct Hin as [Heq|Hin]; [discriminate Heq|]). exact Hin.
Defined.

(** The token of the environment is used when [--token] is absent. *)
Lemma token_resolution_witness :
  Js.trim "tok" <> EmptyString
  /\ CfApi.getToken ∅ Demo.tokenEnv = Normal "tok".
Proof.
  assert (Hne : Js.trim "tok" <> EmptyString) by discriminate.
  split; [exact Hne|].
  destruct (token_resolution ∅ Demo.tokenEnv) as (_ & Henv & _).
  assert (Harg : (∅ : gmap string jsval) !! "token" = None) by reflexivity.
  assert (Hvar : Demo.tokenEnv !! "CLOUDFLARE_API_TOKEN" = Some "tok") by reflexivity.
  exact (Henv "tok" Harg Hvar Hne).
Defined.

(** A URL that the resolver accepts is accepted by cf-api.mjs, and a single
    label that cf-api.mjs rejects is rejected by the resolver. *)
Lemma resolver_stricter_than_cfapi_witness :
  CfApi.normalizeDomain 2 (JStr "HTTPS://Notes.Example.com/") = Normal "notes.example.com"
  /\ exists e, ResolveConfig.normalizeDomain 1 (JStr "localhost") = Throw e.
Proof.
  assert (Hyes : ResolveConfig.normalizeDomain 2 (JStr "HTTPS://Notes.Example.com/")
                 = Normal "notes.example.com") by reflexivity.
  assert (Hno : CfApi.normalizeDomain 1 (JStr "localhost")
                = Throw (Error "DOMAIN must contain at least one dot, e.g. notes.example.com"))
    by reflexivity.
  split.
  - exact (proj1 (resolver_stricter_than_cfapi 2 (JStr "HTTPS://Notes.Example.com/"))
             "notes.example.com" Hyes).
  - exact (proj2 (resolver_stricter_than_cfapi 1 (JStr "localhost")) _ Hno).
Defined.

Lemma resolver_result_is_canonical_witness :
  ResolveConfig.normalizeDomain 2 (JStr "HTTPS://Notes.Example.com/")
  = Normal "notes.example.com"
  /\ ResolveConfig.NormalizedDomain "notes.example.com"
  /\ CfApi.normalizeDomain 1 (JStr "notes.example.com") = Normal "notes.example.com".
Proof.
  assert (Hyes : ResolveConfig.normalizeDomain 2 (JStr "HTTPS://Notes.Example.com/")
                 = Normal "notes.example.com") by reflexivity.
  split; [exact Hyes|].
  destruct (resolver_result_is_canonical 2 0 (JStr "HTTPS://Notes.Example.com/")
              "notes.example.com" Hyes) as (Hn & _ & Hc).
  split; [exact Hn|exact Hc].
Defined.

(** Dots and spaces around the name go away, and the result is stable. *)
Lemma cfapi_normalize_shape_witness :
  CfApi.normalizeDomain 1 (JStr " Notes.Example.COM.. ") = Normal "notes.example.com"
  /\ Js.trimEnd "notes.example.com" = "notes.example.com"
  /\ CfApi.normalizeDomain 3 (JStr "notes.example.com") = Normal "notes.example.com".
Proof.
  assert (Hyes : CfApi.normalizeDomain 1 (JStr " Notes.Example.COM.. ")
                 = Normal "notes.example.com") by reflexivity.
  assert (Hend : Js.trimEnd "notes.example.com" = "notes.example.com") by reflexivity.
  split; [exact Hyes|]. split; [exact Hend|].
  destruct (cfapi_normalize_shape 1 (JStr " Notes.Example.COM.. ") "notes.example.com"
              Hyes) as (_ & _ & _ & _ & _ & Hstable).
  exact (Hstable Hend 2%nat).
Defined.

(** A long slug is cut, and the dash the cut leaves at the end is dropped. *)
Lemma buildName_exact_witness :
  Shape.dashedName "inkrypt"
  /\ Shape.dashedName "a-very-long-sub-domain-label-that-goes-on-and-on-example-com"
  /\ ResolveConfig.buildName "inkrypt"
       "a-very-long-sub-domain-label-that-goes-on-and-on-example-com" "0123abcd" 63
     = "inkrypt-a-very-long-sub-domain-label-that-goes-on-and-0123abcd".
Proof.
  assert (Hprefix : Shape.dashedName "inkrypt").
  { unfold Shape.dashedName. repeat split; try reflexivity. discriminate. }
  assert (Hslug : Shape.dashedName
                    "a-very-long-sub-domain-label-that-goes-on-and-on-example-com").
  { unfold Shape.dashedName. repeat split; try reflexivity. discriminate. }
  assert (Hhash : "0123abcd" <> EmptyString) by discriminate.
  assert (Hchars : Js.allChars Js.isLowerAlnum "0123abcd" = true) by reflexivity.
  split; [exact Hprefix|]. split; [exact Hslug|].
  destruct (buildName_exact "inkrypt"
              "a-very-long-sub-domain-label-that-goes-on-and-on-example-com" "0123abcd" 63
              Hprefix Hslug Hhash Hchars) as (Hname & _).
  exact Hname.
Defined.

Lemma derived_names_valid_witness :
  (forall s, (8 <= String.length (Demo.digest s))%nat
             /\ Js.allChars Shape.isHexChar (Demo.digest s) = true)
  /\ In ("worker_name", "inkrypt-api-notes-example-com-0123abcd")
        (Resolver.resolveOutputs Demo.digest ∅ ∅ "notes.example.com").
Proof.
  assert (Hdigest : forall s, (8 <= String.length (Demo.digest s))%nat
                              /\ Js.allChars Shape.isHexChar (Demo.digest s) = true).
  { intros s. split; [unfold Demo.digest; simpl; lia|reflexivity]. }
  split; [exact Hdigest|].
  destruct (derived_names_valid Demo.digest ∅ ∅ "notes.example.com" Hdigest)
    as (_ & Hworker & _).
  assert (Hnone : Resolver.setting ∅ ∅ "worker-name" "INKRYPT_WORKER_NAME" EmptyString
                  = EmptyString) by reflexivity.
  destruct (Hworker Hnone) as (name & Hin & _ & Hwhole & _).
  assert (Hfit : (String.length (Resolver.slugifyDomain "notes.example.com") <= 42)%nat)
    by (vm_compute; lia).
  rewrite (Hwhole Hfit) in Hin. exact Hin.
Defined.

(** A zone lookup sends requests, all of them with the token. *)
Lemma process_calls_witness :
  exists calls,
    requests (CfApi.runProcess 2 Demo.zoneArgv Demo.tokenEnv
                (Demo.start [Demo.ok Demo.zonesText])).1 = calls
    /\ calls <> []
    /\ Forall (Shape.apiCall "tok") calls.
Proof.
  destruct (process_calls 2 Demo.zoneArgv Demo.tokenEnv
              (Demo.start [Demo.ok Demo.zonesText])) as (calls & Hreq & Hall).
  exists calls. split; [exact Hreq|].
  assert (Hne : calls <> []).
  { intros ->. vm_compute in Hreq. discriminate Hreq. }
  split; [exact Hne|].
  destruct (Hall Hne) as (args & token & Hargs & Htoken & _ & Hcalls).
  assert (Ha : args = <["domain" := JStr "notes.example.com"]>
                        {["_" := JArr [JStr "resolve-zone"]]}).
  { assert (Hp : CfApi.parseArgs Demo.zoneArgv
                 = Normal (<["domain" := JStr "notes.example.com"]>
                             {["_" := JArr [JStr "resolve-zone"]]})) by reflexivity.
    rewrite Hp in Hargs. now injection Hargs. }
  subst args.
  assert (Ht : CfApi.getToken (<["domain" := JStr "notes.example.com"]>
                                 {["_" := JArr [JStr "resolve-zone"]]}) Demo.tokenEnv
               = Normal "tok") by reflexivity.
  rewrite Ht in Htoken. injection Htoken as <-. exact Hcalls.
Defined.

(** With a file of step outputs that cannot be written, the zone is found
    and the run still ends with exit code 1, the line never printed. *)
Example unwritable_outputs_zone :
  let env := <["GITHUB_OUTPUT" := "/run/outputs"]> Demo.tokenEnv in
  let run := @CfApi.runProcess Demo.readOnly 1 ["resolve-zone"; "--domain"; "example.com"] env
               (@mkProc Demo.readOnly [Demo.ok Demo.zonesText] [] [] [] []) in
  run.2 = Some 1
  /\ @stdout Demo.readOnly run.1 = []
  /\ @outputs Demo.readOnly run.1 = []
  /\ @stderr Demo.readOnly run.1 = ["Error: EACCES: permission denied"].
Proof. repeat split; reflexivity. Qed.

(** The resolver in the same situation. *)
Example unwritable_outputs_resolver :
  let env := {["GITHUB_OUTPUT" := "/run/outputs"]} in
  let run := @Resolver.runProcess Demo.readOnly Demo.digest Demo.render 1
               ["--domain"; "notes.example.com"] env
               (@mkProc Demo.readOnly [] [] [] [] []) in
  run.2 = Some 1
  /\ @stdout Demo.readOnly run.1 = []
  /\ @outputs Demo.readOnly run.1 = []
  /\ @stderr Demo.readOnly run.1 = ["Error: EACCES: permission denied"].
Proof. repeat split; reflexivity. Qed.

End MoreExamples.
